(** * IA Matéria: normaliser, text vectoriser and matcher

    A shallow embedding of [utils/processamento.py] and
    [utils/recomendacao.py], and the properties of the specification
    that were checked against it.

    Conventions of the model.
    - A Python [str] is a list of Unicode code points ([text]).  String
      literals are written in UTF-8 and decoded by [u].  Case mapping,
      decimal digits and white space are those of Unicode 14.0, the
      version of CPython 3.11.
    - A Python [float] is an exact rational, or one of the three special
      values infinity, minus infinity and NaN ([flt]).  Rounding and
      overflow of binary64 are outside the model.
    - A raised exception is the [Err] case of [result].
    - pandas is read as in its versions 1 and 2: text lives in columns of
      dtype [object], a missing cell there is [None] or NaN, and
      [astype(str)] turns every cell into its text.
    - A column of no cells has no value to tell its dtype by: where
      pandas keeps the tag [object] for it, the model tags it [float64].
    - scikit-learn's neighbour search is library code and stays a
      parameter; only the input validation of [kneighbors] is modelled. *)

From Stdlib Require Import List ZArith NArith QArith Bool Lia String Ascii.
From Stdlib Require Import DecimalString Lqa.
Import ListNotations.

Local Open Scope Z_scope.

(** ** Exceptions and results *)

Inductive exn : Type :=
| AttributeError
| KeyError
| ValueError
| TypeError
| IndexError.

Inductive result (A : Type) : Type :=
| Ok (a : A)
| Err (e : exn).

Arguments Ok {A} a.
Arguments Err {A} e.

Definition bind {A B : Type} (r : result A) (f : A -> result B) : result B :=
  match r with
  | Ok a => f a
  | Err e => Err e
  end.

Notation "x <- r ;; k" := (bind r (fun x => k))
  (at level 61, r at next level, right associativity).

Definition is_ok {A : Type} (r : result A) : bool :=
  match r with Ok _ => true | Err _ => false end.

(** ** Text *)

Module Text.

Definition text : Type := list N.

Local Open Scope N_scope.

(** Decoding of a UTF-8 byte sequence into code points.  Only used to
    write the literals of the source in readable form. *)
Fixpoint utf8_decode (l : list N) : text :=
  match l with
  | [] => []
  | b :: r =>
    if b <? 128 then b :: utf8_decode r
    else if b <? 224 then
      match r with
      | b2 :: r' => ((b - 192) * 64 + (b2 - 128)) :: utf8_decode r'
      | [] => []
      end
    else if b <? 240 then
      match r with
      | b2 :: b3 :: r' =>
        ((b - 224) * 4096 + (b2 - 128) * 64 + (b3 - 128)) :: utf8_decode r'
      | _ => []
      end
    else
      match r with
      | b2 :: b3 :: b4 :: r' =>
        ((b - 240) * 262144 + (b2 - 128) * 4096 + (b3 - 128) * 64 + (b4 - 128))
          :: utf8_decode r'
      | _ => []
      end
  end.

Fixpoint bytes_of_string (s : string) : list N :=
  match s with
  | EmptyString => []
  | String c s' => N_of_ascii c :: bytes_of_string s'
  end.

Definition u (s : string) : text := utf8_decode (bytes_of_string s).

Definition text_eqb (a b : text) : bool :=
  if list_eq_dec N.eq_dec a b then true else false.

Lemma text_eqb_eq (a b : text) : text_eqb a b = true <-> a = b.
Proof.
  unfold text_eqb. destruct (list_eq_dec N.eq_dec a b); split; congruence.
Qed.

(** *** Unicode data

    The tables of Unicode 14.0, the version CPython 3.11 is built with,
    for the three properties the source depends on through [str.lower],
    [\d] and [float]. *)

(** The code points of the digit zero of each block of decimal digits
    (category Nd); the nine code points after each are its digits 1 to
    9. *)
Definition decimal_zeros : list N :=
  [
   48; 1632; 1776; 1984; 2406; 2534; 2662; 2790;
   2918; 3046; 3174; 3302; 3430; 3558; 3664; 3792;
   3872; 4160; 4240; 6112; 6160; 6470; 6608; 6784;
   6800; 6992; 7088; 7232; 7248; 42528; 43216; 43264;
   43472; 43504; 43600; 44016; 65296; 66720; 68912; 69734;
   69872; 69942; 70096; 70384; 70736; 70864; 71248; 71360;
   71472; 71904; 72016; 72784; 73040; 73120; 92768; 92864;
   93008; 120782; 120792; 120802; 120812; 120822; 123200; 123632;
   125264; 130032].

(** The simple lowercase mapping, as runs [(first, last, step, target)]:
    the code points [first], [first + step], ..., [last] map to [target],
    [target + step], ... *)
Definition lowercase_runs : list (N * N * N * N) :=
  [
   (65, 90, 1, 97); (192, 214, 1, 224); (216, 222, 1, 248);
   (256, 302, 2, 257); (306, 310, 2, 307); (313, 327, 2, 314);
   (330, 374, 2, 331); (376, 376, 1, 255); (377, 381, 2, 378);
   (385, 385, 1, 595); (386, 388, 2, 387); (390, 390, 1, 596);
   (391, 391, 1, 392); (393, 394, 1, 598); (395, 395, 1, 396);
   (398, 398, 1, 477); (399, 399, 1, 601); (400, 400, 1, 603);
   (401, 401, 1, 402); (403, 403, 1, 608); (404, 404, 1, 611);
   (406, 406, 1, 617); (407, 407, 1, 616); (408, 408, 1, 409);
   (412, 412, 1, 623); (413, 413, 1, 626); (415, 415, 1, 629);
   (416, 420, 2, 417); (422, 422, 1, 640); (423, 423, 1, 424);
   (425, 425, 1, 643); (428, 428, 1, 429); (430, 430, 1, 648);
   (431, 431, 1, 432); (433, 434, 1, 650); (435, 437, 2, 436);
   (439, 439, 1, 658); (440, 440, 1, 441); (444, 444, 1, 445);
   (452, 452, 1, 454); (453, 453, 1, 454); (455, 455, 1, 457);
   (456, 456, 1, 457); (458, 458, 1, 460); (459, 475, 2, 460);
   (478, 494, 2, 479); (497, 497, 1, 499); (498, 500, 2, 499);
   (502, 502, 1, 405); (503, 503, 1, 447); (504, 542, 2, 505);
   (544, 544, 1, 414); (546, 562, 2, 547); (570, 570, 1, 11365);
   (571, 571, 1, 572); (573, 573, 1, 410); (574, 574, 1, 11366);
   (577, 577, 1, 578); (579, 579, 1, 384); (580, 580, 1, 649);
   (581, 581, 1, 652); (582, 590, 2, 583); (880, 882, 2, 881);
   (886, 886, 1, 887); (895, 895, 1, 1011); (902, 902, 1, 940);
   (904, 906, 1, 941); (908, 908, 1, 972); (910, 911, 1, 973);
   (913, 929, 1, 945); (931, 939, 1, 963); (975, 975, 1, 983);
   (984, 1006, 2, 985); (1012, 1012, 1, 952); (1015, 1015, 1, 1016);
   (1017, 1017, 1, 1010); (1018, 1018, 1, 1019); (1021, 1023, 1, 891);
   (1024, 1039, 1, 1104); (1040, 1071, 1, 1072); (1120, 1152, 2, 1121);
   (1162, 1214, 2, 1163); (1216, 1216, 1, 1231); (1217, 1229, 2, 1218);
   (1232, 1326, 2, 1233); (1329, 1366, 1, 1377); (4256, 4293, 1, 11520);
   (4295, 4295, 1, 11559); (4301, 4301, 1, 11565); (5024, 5103, 1, 43888);
   (5104, 5109, 1, 5112); (7312, 7354, 1, 4304); (7357, 7359, 1, 4349);
   (7680, 7828, 2, 7681); (7838, 7838, 1, 223); (7840, 7934, 2, 7841);
   (7944, 7951, 1, 7936); (7960, 7965, 1, 7952); (7976, 7983, 1, 7968);
   (7992, 7999, 1, 7984); (8008, 8013, 1, 8000); (8025, 8031, 2, 8017);
   (8040, 8047, 1, 8032); (8072, 8079, 1, 8064); (8088, 8095, 1, 8080);
   (8104, 8111, 1, 8096); (8120, 8121, 1, 8112); (8122, 8123, 1, 8048);
   (8124, 8124, 1, 8115); (8136, 8139, 1, 8050); (8140, 8140, 1, 8131);
   (8152, 8153, 1, 8144); (8154, 8155, 1, 8054); (8168, 8169, 1, 8160);
   (8170, 8171, 1, 8058); (8172, 8172, 1, 8165); (8184, 8185, 1, 8056);
   (8186, 8187, 1, 8060); (8188, 8188, 1, 8179); (8486, 8486, 1, 969);
   (8490, 8490, 1, 107); (8491, 8491, 1, 229); (8498, 8498, 1, 8526);
   (8544, 8559, 1, 8560); (8579, 8579, 1, 8580); (9398, 9423, 1, 9424);
   (11264, 11311, 1, 11312); (11360, 11360, 1, 11361); (11362, 11362, 1, 619);
   (11363, 11363, 1, 7549); (11364, 11364, 1, 637); (11367, 11371, 2, 11368);
   (11373, 11373, 1, 593); (11374, 11374, 1, 625); (11375, 11375, 1, 592);
   (11376, 11376, 1, 594); (11378, 11378, 1, 11379); (11381, 11381, 1, 11382);
   (11390, 11391, 1, 575); (11392, 11490, 2, 11393); (11499, 11501, 2, 11500);
   (11506, 11506, 1, 11507); (42560, 42604, 2, 42561); (42624, 42650, 2, 42625);
   (42786, 42798, 2, 42787); (42802, 42862, 2, 42803); (42873, 42875, 2, 42874);
   (42877, 42877, 1, 7545); (42878, 42886, 2, 42879); (42891, 42891, 1, 42892);
   (42893, 42893, 1, 613); (42896, 42898, 2, 42897); (42902, 42920, 2, 42903);
   (42922, 42922, 1, 614); (42923, 42923, 1, 604); (42924, 42924, 1, 609);
   (42925, 42925, 1, 620); (42926, 42926, 1, 618); (42928, 42928, 1, 670);
   (42929, 42929, 1, 647); (42930, 42930, 1, 669); (42931, 42931, 1, 43859);
   (42932, 42946, 2, 42933); (42948, 42948, 1, 42900); (42949, 42949, 1, 642);
   (42950, 42950, 1, 7566); (42951, 42953, 2, 42952); (42960, 42960, 1, 42961);
   (42966, 42968, 2, 42967); (42997, 42997, 1, 42998); (65313, 65338, 1, 65345);
   (66560, 66599, 1, 66600); (66736, 66771, 1, 66776); (66928, 66938, 1, 66967);
   (66940, 66954, 1, 66979); (66956, 66962, 1, 66995); (66964, 66965, 1, 67003);
   (68736, 68786, 1, 68800); (71840, 71871, 1, 71872); (93760, 93791, 1, 93792);
   (125184, 125217, 1, 125218)].

(** The code points with the property Case_Ignorable, as ranges. *)
Definition case_ignorable_ranges : list (N * N) :=
  [
   (39, 39); (46, 46); (58, 58); (94, 94);
   (96, 96); (168, 168); (173, 173); (175, 175);
   (180, 180); (183, 184); (688, 879); (884, 885);
   (890, 890); (900, 901); (903, 903); (1155, 1161);
   (1369, 1369); (1375, 1375); (1425, 1469); (1471, 1471);
   (1473, 1474); (1476, 1477); (1479, 1479); (1524, 1524);
   (1536, 1541); (1552, 1562); (1564, 1564); (1600, 1600);
   (1611, 1631); (1648, 1648); (1750, 1757); (1759, 1768);
   (1770, 1773); (1807, 1807); (1809, 1809); (1840, 1866);
   (1958, 1968); (2027, 2037); (2042, 2042); (2045, 2045);
   (2070, 2093); (2137, 2139); (2184, 2184); (2192, 2193);
   (2200, 2207); (2249, 2306); (2362, 2362); (2364, 2364);
   (2369, 2376); (2381, 2381); (2385, 2391); (2402, 2403);
   (2417, 2417); (2433, 2433); (2492, 2492); (2497, 2500);
   (2509, 2509); (2530, 2531); (2558, 2558); (2561, 2562);
   (2620, 2620); (2625, 2626); (2631, 2632); (2635, 2637);
   (2641, 2641); (2672, 2673); (2677, 2677); (2689, 2690);
   (2748, 2748); (2753, 2757); (2759, 2760); (2765, 2765);
   (2786, 2787); (2810, 2815); (2817, 2817); (2876, 2876);
   (2879, 2879); (2881, 2884); (2893, 2893); (2901, 2902);
   (2914, 2915); (2946, 2946); (3008, 3008); (3021, 3021);
   (3072, 3072); (3076, 3076); (3132, 3132); (3134, 3136);
   (3142, 3144); (3146, 3149); (3157, 3158); (3170, 3171);
   (3201, 3201); (3260, 3260); (3263, 3263); (3270, 3270);
   (3276, 3277); (3298, 3299); (3328, 3329); (3387, 3388);
   (3393, 3396); (3405, 3405); (3426, 3427); (3457, 3457);
   (3530, 3530); (3538, 3540); (3542, 3542); (3633, 3633);
   (3636, 3642); (3654, 3662); (3761, 3761); (3764, 3772);
   (3782, 3782); (3784, 3789); (3864, 3865); (3893, 3893);
   (3895, 3895); (3897, 3897); (3953, 3966); (3968, 3972);
   (3974, 3975); (3981, 3991); (3993, 4028); (4038, 4038);
   (4141, 4144); (4146, 4151); (4153, 4154); (4157, 4158);
   (4184, 4185); (4190, 4192); (4209, 4212); (4226, 4226);
   (4229, 4230); (4237, 4237); (4253, 4253); (4348, 4348);
   (4957, 4959); (5906, 5908); (5938, 5939); (5970, 5971);
   (6002, 6003); (6068, 6069); (6071, 6077); (6086, 6086);
   (6089, 6099); (6103, 6103); (6109, 6109); (6155, 6159);
   (6211, 6211); (6277, 6278); (6313, 6313); (6432, 6434);
   (6439, 6440); (6450, 6450); (6457, 6459); (6679, 6680);
   (6683, 6683); (6742, 6742); (6744, 6750); (6752, 6752);
   (6754, 6754); (6757, 6764); (6771, 6780); (6783, 6783);
   (6823, 6823); (6832, 6862); (6912, 6915); (6964, 6964);
   (6966, 6970); (6972, 6972); (6978, 6978); (7019, 7027);
   (7040, 7041); (7074, 7077); (7080, 7081); (7083, 7085);
   (7142, 7142); (7144, 7145); (7149, 7149); (7151, 7153);
   (7212, 7219); (7222, 7223); (7288, 7293); (7376, 7378);
   (7380, 7392); (7394, 7400); (7405, 7405); (7412, 7412);
   (7416, 7417); (7468, 7530); (7544, 7544); (7579, 7679);
   (8125, 8125); (8127, 8129); (8141, 8143); (8157, 8159);
   (8173, 8175); (8189, 8190); (8203, 8207); (8216, 8217);
   (8228, 8228); (8231, 8231); (8234, 8238); (8288, 8292);
   (8294, 8303); (8305, 8305); (8319, 8319); (8336, 8348);
   (8400, 8432); (11388, 11389); (11503, 11505); (11631, 11631);
   (11647, 11647); (11744, 11775); (11823, 11823); (12293, 12293);
   (12330, 12333); (12337, 12341); (12347, 12347); (12441, 12446);
   (12540, 12542); (40981, 40981); (42232, 42237); (42508, 42508);
   (42607, 42610); (42612, 42621); (42623, 42623); (42652, 42655);
   (42736, 42737); (42752, 42785); (42864, 42864); (42888, 42890);
   (42994, 42996); (43000, 43001); (43010, 43010); (43014, 43014);
   (43019, 43019); (43045, 43046); (43052, 43052); (43204, 43205);
   (43232, 43249); (43263, 43263); (43302, 43309); (43335, 43345);
   (43392, 43394); (43443, 43443); (43446, 43449); (43452, 43453);
   (43471, 43471); (43493, 43494); (43561, 43566); (43569, 43570);
   (43573, 43574); (43587, 43587); (43596, 43596); (43632, 43632);
   (43644, 43644); (43696, 43696); (43698, 43700); (43703, 43704);
   (43710, 43711); (43713, 43713); (43741, 43741); (43756, 43757);
   (43763, 43764); (43766, 43766); (43867, 43871); (43881, 43883);
   (44005, 44005); (44008, 44008); (44013, 44013); (64286, 64286);
   (64434, 64450); (65024, 65039); (65043, 65043); (65056, 65071);
   (65106, 65106); (65109, 65109); (65279, 65279); (65287, 65287);
   (65294, 65294); (65306, 65306); (65342, 65342); (65344, 65344);
   (65392, 65392); (65438, 65439); (65507, 65507); (65529, 65531);
   (66045, 66045); (66272, 66272); (66422, 66426); (67456, 67461);
   (67463, 67504); (67506, 67514); (68097, 68099); (68101, 68102);
   (68108, 68111); (68152, 68154); (68159, 68159); (68325, 68326);
   (68900, 68903); (69291, 69292); (69446, 69456); (69506, 69509);
   (69633, 69633); (69688, 69702); (69744, 69744); (69747, 69748);
   (69759, 69761); (69811, 69814); (69817, 69818); (69821, 69821);
   (69826, 69826); (69837, 69837); (69888, 69890); (69927, 69931);
   (69933, 69940); (70003, 70003); (70016, 70017); (70070, 70078);
   (70089, 70092); (70095, 70095); (70191, 70193); (70196, 70196);
   (70198, 70199); (70206, 70206); (70367, 70367); (70371, 70378);
   (70400, 70401); (70459, 70460); (70464, 70464); (70502, 70508);
   (70512, 70516); (70712, 70719); (70722, 70724); (70726, 70726);
   (70750, 70750); (70835, 70840); (70842, 70842); (70847, 70848);
   (70850, 70851); (71090, 71093); (71100, 71101); (71103, 71104);
   (71132, 71133); (71219, 71226); (71229, 71229); (71231, 71232);
   (71339, 71339); (71341, 71341); (71344, 71349); (71351, 71351);
   (71453, 71455); (71458, 71461); (71463, 71467); (71727, 71735);
   (71737, 71738); (71995, 71996); (71998, 71998); (72003, 72003);
   (72148, 72151); (72154, 72155); (72160, 72160); (72193, 72202);
   (72243, 72248); (72251, 72254); (72263, 72263); (72273, 72278);
   (72281, 72283); (72330, 72342); (72344, 72345); (72752, 72758);
   (72760, 72765); (72767, 72767); (72850, 72871); (72874, 72880);
   (72882, 72883); (72885, 72886); (73009, 73014); (73018, 73018);
   (73020, 73021); (73023, 73029); (73031, 73031); (73104, 73105);
   (73109, 73109); (73111, 73111); (73459, 73460); (78896, 78904);
   (92912, 92916); (92976, 92982); (92992, 92995); (94031, 94031);
   (94095, 94111); (94176, 94177); (94179, 94180); (110576, 110579);
   (110581, 110587); (110589, 110590); (113821, 113822); (113824, 113827);
   (118528, 118573); (118576, 118598); (119143, 119145); (119155, 119170);
   (119173, 119179); (119210, 119213); (119362, 119364); (121344, 121398);
   (121403, 121452); (121461, 121461); (121476, 121476); (121499, 121503);
   (121505, 121519); (122880, 122886); (122888, 122904); (122907, 122913);
   (122915, 122916); (122918, 122922); (123184, 123197); (123566, 123566);
   (123628, 123631); (125136, 125142); (125252, 125259); (127995, 127999);
   (917505, 917505); (917536, 917631); (917760, 917999)].

(** The code points with the property Cased, as ranges. *)
Definition cased_ranges : list (N * N) :=
  [
   (65, 90); (97, 122); (170, 170); (181, 181);
   (186, 186); (192, 214); (216, 246); (248, 442);
   (444, 447); (452, 659); (661, 696); (704, 705);
   (736, 740); (837, 837); (880, 883); (886, 887);
   (890, 893); (895, 895); (902, 902); (904, 906);
   (908, 908); (910, 929); (931, 1013); (1015, 1153);
   (1162, 1327); (1329, 1366); (1376, 1416); (4256, 4293);
   (4295, 4295); (4301, 4301); (4304, 4346); (4349, 4351);
   (5024, 5109); (5112, 5117); (7296, 7304); (7312, 7354);
   (7357, 7359); (7424, 7615); (7680, 7957); (7960, 7965);
   (7968, 8005); (8008, 8013); (8016, 8023); (8025, 8025);
   (8027, 8027); (8029, 8029); (8031, 8061); (8064, 8116);
   (8118, 8124); (8126, 8126); (8130, 8132); (8134, 8140);
   (8144, 8147); (8150, 8155); (8160, 8172); (8178, 8180);
   (8182, 8188); (8305, 8305); (8319, 8319); (8336, 8348);
   (8450, 8450); (8455, 8455); (8458, 8467); (8469, 8469);
   (8473, 8477); (8484, 8484); (8486, 8486); (8488, 8488);
   (8490, 8493); (8495, 8500); (8505, 8505); (8508, 8511);
   (8517, 8521); (8526, 8526); (8544, 8575); (8579, 8580);
   (9398, 9449); (11264, 11492); (11499, 11502); (11506, 11507);
   (11520, 11557); (11559, 11559); (11565, 11565); (42560, 42605);
   (42624, 42653); (42786, 42887); (42891, 42894); (42896, 42954);
   (42960, 42961); (42963, 42963); (42965, 42969); (42997, 42998);
   (43000, 43002); (43824, 43866); (43868, 43880); (43888, 43967);
   (64256, 64262); (64275, 64279); (65313, 65338); (65345, 65370);
   (66560, 66639); (66736, 66771); (66776, 66811); (66928, 66938);
   (66940, 66954); (66956, 66962); (66964, 66965); (66967, 66977);
   (66979, 66993); (66995, 67001); (67003, 67004); (67456, 67456);
   (67459, 67461); (67463, 67504); (67506, 67514); (68736, 68786);
   (68800, 68850); (71840, 71903); (93760, 93823); (119808, 119892);
   (119894, 119964); (119966, 119967); (119970, 119970); (119973, 119974);
   (119977, 119980); (119982, 119993); (119995, 119995); (119997, 120003);
   (120005, 120069); (120071, 120074); (120077, 120084); (120086, 120092);
   (120094, 120121); (120123, 120126); (120128, 120132); (120134, 120134);
   (120138, 120144); (120146, 120485); (120488, 120512); (120514, 120538);
   (120540, 120570); (120572, 120596); (120598, 120628); (120630, 120654);
   (120656, 120686); (120688, 120712); (120714, 120744); (120746, 120770);
   (120772, 120779); (122624, 122633); (122635, 122654); (125184, 125251);
   (127280, 127305); (127312, 127337); (127344, 127369)].

(** Membership in a sorted list of ranges. *)
Fixpoint in_ranges (rs : list (N * N)) (c : N) : bool :=
  match rs with
  | [] => false
  | (lo, hi) :: rs' =>
    if c <? lo then false
    else if c <=? hi then true
    else in_ranges rs' c
  end.

Definition case_ignorable (c : N) : bool := in_ranges case_ignorable_ranges c.

Definition cased (c : N) : bool := in_ranges cased_ranges c.

Fixpoint lower_in (runs : list (N * N * N * N)) (c : N) : N :=
  match runs with
  | [] => c
  | (lo, hi, step, target) :: runs' =>
    if c <? lo then c
    else if c <=? hi then
      if (c - lo) mod step =? 0 then target + (c - lo) else c
    else lower_in runs' c
  end.

(** The lowercase of one code point that maps to one code point. *)
Definition lower_cp (c : N) : N := lower_in lowercase_runs c.

Fixpoint skip_ignorable (t : text) : text :=
  match t with
  | c :: t' => if case_ignorable c then skip_ignorable t' else t
  | [] => []
  end.

(** The context Final_Sigma of a capital sigma: before it, over
    case-ignorable code points, a cased one; after it, over
    case-ignorable code points, none.  [before] is the text read so far,
    the latest code point first. *)
Definition final_sigma (before after : text) : bool :=
  match skip_ignorable before with
  | c :: _ => cased c
  | [] => false
  end
  && match skip_ignorable after with
     | c :: _ => negb (cased c)
     | [] => true
     end.

Fixpoint lower_from (before t : text) : text :=
  match t with
  | [] => []
  | c :: t' =>
    (if c =? 931 then [if final_sigma before t' then 962 else 963]
     else if c =? 304 then [105; 775]
     else [lower_cp c])
    ++ lower_from (c :: before) t'
  end.

(** [str.lower()]: the full lowercase mapping.  Capital sigma (U+03A3)
    becomes the final sigma (U+03C2) in the context Final_Sigma and the
    small sigma (U+03C3) elsewhere; capital I with dot above (U+0130)
    becomes two code points. *)
Definition lower (t : text) : text := lower_from [] t.

(** Unicode white space, as [str.isspace], [str.strip] and the regular
    expression class [\s] see it. *)
Definition is_space (c : N) : bool :=
  ((9 <=? c) && (c <=? 13)) || ((28 <=? c) && (c <=? 32))
  || (c =? 133) || (c =? 160) || (c =? 5760)
  || ((8192 <=? c) && (c <=? 8202))
  || (c =? 8232) || (c =? 8233) || (c =? 8239) || (c =? 8287) || (c =? 12288).

(** The value of a decimal digit, as [Py_UNICODE_TODECIMAL] gives it. *)
Fixpoint decimal_in (zs : list N) (c : N) : option N :=
  match zs with
  | [] => None
  | z :: zs' =>
    if c <? z then None
    else if c <=? z + 9 then Some (c - z)
    else decimal_in zs' c
  end.

Definition decimal (c : N) : option N := decimal_in decimal_zeros c.

(** The decimal digits: the class [\d] of a [str] pattern. *)
Definition is_digit (c : N) : bool :=
  match decimal c with Some _ => true | None => false end.

Fixpoint lstrip (t : text) : text :=
  match t with
  | c :: t' => if is_space c then lstrip t' else t
  | [] => []
  end.

Definition strip (t : text) : text := rev (lstrip (rev (lstrip t))).

Fixpoint starts_with (p t : text) : bool :=
  match p, t with
  | [], _ => true
  | _ :: _, [] => false
  | a :: p', b :: t' => (a =? b) && starts_with p' t'
  end.

(** [sub in t] on strings. *)
Fixpoint contains (t sub : text) : bool :=
  starts_with sub t ||
  match t with
  | [] => false
  | _ :: t' => contains t' sub
  end.

End Text.
Import Text.

(** ** Numbers *)

Module Num.

Local Open Scope Q_scope.

(** A binary64 value: a rational, or one of the special values. *)
Inductive flt : Type :=
| Fin (q : Q)
| PInf
| NInf
| NaN.

Definition fin (q : Q) : flt := Fin (Qred q).

Definition of_Z (z : Z) : flt := Fin (inject_Z z).

Definition of_bool (b : bool) : flt := if b then of_Z 1 else of_Z 0.

Definition isnan (x : flt) : bool :=
  match x with NaN => true | _ => false end.

Definition isfinite (x : flt) : bool :=
  match x with Fin _ => true | _ => false end.

(** [x <= y] on values that are not NaN. *)
Definition leb (x y : flt) : bool :=
  match x, y with
  | NaN, _ | _, NaN => false
  | NInf, _ => true
  | _, PInf => true
  | Fin a, Fin b => Qle_bool a b
  | _, _ => false
  end.

(** [(x + y) / 2], with the IEEE rules for infinities. *)
Definition mean2 (x y : flt) : flt :=
  match x, y with
  | NaN, _ | _, NaN => NaN
  | PInf, NInf | NInf, PInf => NaN
  | PInf, _ | _, PInf => PInf
  | NInf, _ | _, NInf => NInf
  | Fin a, Fin b => fin ((a + b) / 2)
  end.

(** [x * c] for a positive finite constant [c]. *)
Definition scale (x : flt) (c : Q) : flt :=
  match x with
  | Fin a => fin (a * c)
  | other => other
  end.

Fixpoint insert_sorted (x : flt) (l : list flt) : list flt :=
  match l with
  | [] => [x]
  | y :: l' => if leb x y then x :: l else y :: insert_sorted x l'
  end.

Definition sort (l : list flt) : list flt := fold_right insert_sorted [] l.

Definition dropna (l : list flt) : list flt :=
  filter (fun x => negb (isnan x)) l.

(** The median as pandas and numpy compute it: NaN cells are skipped; an
    empty selection gives NaN; an even count gives the mean of the two
    middle values. *)
Definition median (l : list flt) : flt :=
  let s := sort (dropna l) in
  let n := List.length s in
  match n with
  | O => NaN
  | _ =>
    if Nat.even n
    then mean2 (nth (n / 2 - 1)%nat s NaN) (nth (n / 2)%nat s NaN)
    else nth (n / 2)%nat s NaN
  end.

End Num.
Import Num.

(** ** Series and data frames *)

Module Pandas.

(** A Python object held in a column of dtype [object]. *)
Inductive pyval : Type :=
| VNone
| VBool (b : bool)
| VInt (z : Z)
| VFloat (x : flt)
| VStr (s : text).

(** A column with its dtype: [int64], [float64] (NaN is the missing
    value), [bool] or [object]. *)
Inductive Series : Type :=
| SInt (l : list Z)
| SFloat (l : list flt)
| SBool (l : list bool)
| SObj (l : list pyval).

Definition series_len (s : Series) : nat :=
  match s with
  | SInt l => List.length l
  | SFloat l => List.length l
  | SBool l => List.length l
  | SObj l => List.length l
  end.

(** A data frame: the number of rows and the named columns, each of that
    many cells. *)
Record DataFrame : Type := mkDF {
  nrows : nat;
  columns : list (string * Series)
}.

Fixpoint lookup (c : string) (cols : list (string * Series)) : option Series :=
  match cols with
  | [] => None
  | (n, s) :: cols' => if String.eqb c n then Some s else lookup c cols'
  end.

(** [df[c]] when [c in df.columns]. *)
Definition get (df : DataFrame) (c : string) : option Series :=
  lookup c (columns df).

(** [c in df.columns]. *)
Definition has_col (df : DataFrame) (c : string) : bool :=
  match get df c with Some _ => true | None => false end.

Fixpoint assign (c : string) (s : Series) (cols : list (string * Series))
  : list (string * Series) :=
  match cols with
  | [] => [(c, s)]
  | (n, s0) :: cols' =>
    if String.eqb c n then (n, s) :: cols' else (n, s0) :: assign c s cols'
  end.

(** [df[c] = s]: the column is replaced where it stands, or added last. *)
Definition set_col (df : DataFrame) (c : string) (s : Series) : DataFrame :=
  mkDF (nrows df) (assign c s (columns df)).

(** [df[names]]: the named columns in the order asked for. *)
Fixpoint select_cols (cols : list (string * Series)) (names : list string)
  : result (list (string * Series)) :=
  match names with
  | [] => Ok []
  | n :: names' =>
    match lookup n cols with
    | None => Err KeyError
    | Some s => rest <- select_cols cols names' ;; Ok ((n, s) :: rest)
    end
  end.

Definition select (df : DataFrame) (names : list string) : result DataFrame :=
  cols <- select_cols (columns df) names ;; Ok (mkDF (nrows df) cols).

(** Every column has one cell per row. *)
Definition wf (df : DataFrame) : Prop :=
  Forall (fun c => series_len (snd c) = nrows df) (columns df).

(** A Python [dict] with string keys. *)
Definition dict (V : Type) : Type := list (text * V).

Fixpoint dict_get {V : Type} (d : dict V) (k : text) : option V :=
  match d with
  | [] => None
  | (k0, v) :: d' => if text_eqb k k0 then Some v else dict_get d' k
  end.

(** [str(z)] for an integer. *)
Definition str_of_Z (z : Z) : text :=
  bytes_of_string (NilEmpty.string_of_int (Z.to_int z)).

Definition str_of_bool (b : bool) : text :=
  if b then u "True" else u "False".

(** [str(v).strip().lower()] for a cell that is not a float.  The text of
    a float (['1.0'], ['2.5e-07'], ['nan'], ['inf']) is a key of none of the
    maps below, so no text is built for it and the look-up misses. *)
Definition str_key (v : pyval) : option text :=
  match v with
  | VNone => Some (lower (strip (u "None")))
  | VBool b => Some (lower (strip (str_of_bool b)))
  | VInt z => Some (lower (strip (str_of_Z z)))
  | VFloat _ => None
  | VStr s => Some (lower (strip s))
  end.

(** The cells of a column as Python objects. *)
Definition cells (s : Series) : list pyval :=
  match s with
  | SInt l => map VInt l
  | SFloat l => map VFloat l
  | SBool l => map VBool l
  | SObj l => l
  end.

(** The dtype pandas infers for the result of [Series.map] when the
    function returns integers or NaN: [int64] when no cell is NaN,
    [float64] otherwise; an empty column comes back as it is, of dtype
    [object]. *)
Definition all_some {A : Type} (l : list (option A)) : bool :=
  forallb (fun o => match o with Some _ => true | None => false end) l.

Definition infer_int (l : list (option Z)) : Series :=
  match l with
  | [] => SObj []
  | _ =>
    if all_some l
    then SInt (map (fun o => match o with Some z => z | None => 0 end) l)
    else SFloat (map (fun o => match o with Some z => of_Z z | None => NaN end) l)
  end.

(** The same when the function returns floats or NaN. *)
Definition infer_float (l : list (option Q)) : Series :=
  match l with
  | [] => SObj []
  | _ => SFloat (map (fun o => match o with Some q => Fin q | None => NaN end) l)
  end.

(** [s.astype(str).str.strip().str.lower().map(lambda v: d.get(v, nan))]. *)
Definition lookup_cell {V : Type} (d : dict V) (v : pyval) : option V :=
  match str_key v with
  | Some k => dict_get d k
  | None => None
  end.

Definition map_str_int (d : dict Z) (s : Series) : Series :=
  infer_int (map (lookup_cell d) (cells s)).

Definition map_str_float (d : dict Q) (s : Series) : Series :=
  infer_float (map (lookup_cell d) (cells s)).

(** [s.isna().any()]. *)
Definition has_na (s : Series) : bool :=
  match s with
  | SFloat l => existsb isnan l
  | SObj l => existsb (fun v => match v with
                                | VNone => true
                                | VFloat x => isnan x
                                | _ => false
                                end) l
  | _ => false
  end.

(** [s.fillna(x)] on a numeric column. *)
Definition fillna (s : Series) (x : flt) : Series :=
  match s with
  | SFloat l => SFloat (map (fun y => if isnan y then x else y) l)
  | other => other
  end.

(** [s.median()].  Missing cells are skipped.  On a column of dtype
    [object] a string makes pandas raise. *)
Definition obj_num (v : pyval) : result flt :=
  match v with
  | VNone => Ok NaN
  | VBool b => Ok (of_bool b)
  | VInt z => Ok (of_Z z)
  | VFloat x => Ok x
  | VStr _ => Err TypeError
  end.

Fixpoint mapM {A B : Type} (f : A -> result B) (l : list A) : result (list B) :=
  match l with
  | [] => Ok []
  | a :: l' => b <- f a ;; bs <- mapM f l' ;; Ok (b :: bs)
  end.

Definition series_median (s : Series) : result flt :=
  match s with
  | SInt l => Ok (median (map of_Z l))
  | SFloat l => Ok (median l)
  | SBool l => Ok (median (map of_bool l))
  | SObj l => xs <- mapM obj_num l ;; Ok (median xs)
  end.

(** [s.iloc[idx]]: the cells at the given positions. *)
Fixpoint take {A : Type} (l : list A) (idx : list nat) : result (list A) :=
  match idx with
  | [] => Ok []
  | i :: idx' =>
    match nth_error l i with
    | None => Err IndexError
    | Some a => rest <- take l idx' ;; Ok (a :: rest)
    end
  end.

Definition series_take (s : Series) (idx : list nat) : result Series :=
  match s with
  | SInt l => r <- take l idx ;; Ok (SInt r)
  | SFloat l => r <- take l idx ;; Ok (SFloat r)
  | SBool l => r <- take l idx ;; Ok (SBool r)
  | SObj l => r <- take l idx ;; Ok (SObj r)
  end.

End Pandas.
Import Pandas.

(** ** utils/processamento.py *)

Local Open Scope string_scope.
Local Open Scope Z_scope.
Local Open Scope list_scope.

Fixpoint foldM {A B : Type} (f : A -> B -> result A) (a : A) (l : list B)
  : result A :=
  match l with
  | [] => Ok a
  | b :: l' => a' <- f a b ;; foldM f a' l'
  end.

Definition _MAP_CUSTO : dict Z :=
  [(u "baixo", 0); (u "baixo-médio", 1); (u "médio", 2);
   (u "médio-alto", 3); (u "alto", 4)].

Definition _MAP_PESO : dict Z :=
  [(u "leve", 0); (u "médio", 1); (u "pesado", 2)].

Definition _MAP_RESIST : dict Z :=
  [(u "baixa", 0); (u "média", 1); (u "alta", 2)].

Definition _MAP_SIMNAO : dict Z :=
  [(u "não", 0); (u "nao", 0); (u "não ", 0); (u "sim", 1);
   (u "1", 1); (u "0", 0)].

Definition dens_map : dict Z :=
  [(u "leve", 1000); (u "médio", 5000); (u "medio", 5000); (u "pesado", 8000)].

Definition res_map : dict Q :=
  [(u "baixa", 10 # 1); (u "média", 100 # 1); (u "media", 100 # 1);
   (u "alta", 400 # 1)]%Q.

Definition cond_map : dict Q :=
  [(u "baixa", 1 # 10); (u "média", 1 # 1); (u "media", 1 # 1);
   (u "alta", 100 # 1)]%Q.

Definition features : list string :=
  ["custo_index"; "densidade_kg_m3"; "tensile_strength_MPa";
   "thermal_conductivity_W_mK"; "reciclavel"; "biodegradavel";
   "melting_point_C"].

Definition defaults : list (string * Z) :=
  [("custo_index", 3); ("densidade_kg_m3", 2000);
   ("tensile_strength_MPa", 50); ("thermal_conductivity_W_mK", 1);
   ("reciclavel", 1); ("biodegradavel", 0); ("melting_point_C", 300)].

Fixpoint defaults_get (d : list (string * Z)) (f : string) : result Z :=
  match d with
  | [] => Err KeyError
  | (n, z) :: d' => if String.eqb f n then Ok z else defaults_get d' f
  end.

(** The cell-wise part of
    [df[col].str.strip().map(lambda v: mapa.get(v.lower(), np.nan))]:
    [.str.strip()] leaves NaN where the cell is no string, and the lambda
    then calls [.lower()] on it. *)
Definition strip_lower_get (mapa : dict Z) (v : pyval) : result (option Z) :=
  match v with
  | VStr s => Ok (dict_get mapa (lower (strip s)))
  | _ => Err AttributeError
  end.

Definition _map_col_if_exists (df : DataFrame) (col : string) (mapa : dict Z)
  : result (option Series) :=
  match get df col with
  | Some (SObj l) =>
    r <- mapM (strip_lower_get mapa) l ;; Ok (Some (infer_int r))
  | Some other => Ok (Some other)
  | None => Ok None
  end.

Section Normalizer.

(** What [pd.to_numeric(..., errors='coerce')] makes of a string cell: the
    number it reads, NaN when it reads none. *)
Variable parse_numeric : text -> flt.

Definition to_numeric_cell (v : pyval) : flt :=
  match v with
  | VNone => NaN
  | VBool b => of_bool b
  | VInt z => of_Z z
  | VFloat x => x
  | VStr s => parse_numeric s
  end.

(** [pd.to_numeric(s, errors='coerce')]: a numeric column is returned as
    it is; the cells of an [object] column are converted one by one (the
    result is given as [float64]; pandas keeps [int64] when every cell is
    an integer, with the same values). *)
Definition to_numeric (s : Series) : Series :=
  match s with
  | SObj l => SFloat (map to_numeric_cell l)
  | other => other
  end.

(** custo_index <- 'custo' *)
Definition alias_custo (out : DataFrame) : result DataFrame :=
  if negb (has_col out "custo_index") && has_col out "custo" then
    mapped <- _map_col_if_exists out "custo" _MAP_CUSTO ;;
    match mapped with
    | Some s => Ok (set_col out "custo_index" s)
    | None => Ok (set_col out "custo_index" (SObj (repeat VNone (nrows out))))
    end
  else Ok out.

(** The three columns mapped through [astype(str)]. *)
Definition alias_str_int (target source : string) (d : dict Z)
  (out : DataFrame) : DataFrame :=
  if negb (has_col out target) then
    match get out source with
    | Some s => set_col out target (map_str_int d s)
    | None => out
    end
  else out.

Definition alias_str_float (target source : string) (d : dict Q)
  (out : DataFrame) : DataFrame :=
  if negb (has_col out target) then
    match get out source with
    | Some s => set_col out target (map_str_float d s)
    | None => out
    end
  else out.

(** reciclavel / biodegradavel *)
Definition map_simnao (c : string) (out : DataFrame) : DataFrame :=
  match get out c with
  | Some s => set_col out c (map_str_int _MAP_SIMNAO s)
  | None => out
  end.

(** melting_point_C <- temperatura_max *)
Definition alias_temp (out : DataFrame) : DataFrame :=
  if negb (has_col out "melting_point_C") then
    match get out "temperatura_max" with
    | Some s => set_col out "melting_point_C" s
    | None => out
    end
  else out.

Definition add_missing (out : DataFrame) (f : string) : DataFrame :=
  if has_col out f then out
  else set_col out f (SFloat (repeat NaN (nrows out))).

(** [out[features].apply(pd.to_numeric, errors='coerce')], one column at
    a time.  On a table with no rows pandas does not call the function and
    a column keeps its dtype tag; the model gives the tag [float64] to
    such a column, which holds no cell. *)
Definition coerce_feature (out : DataFrame) (f : string) : result DataFrame :=
  match get out f with
  | Some s => Ok (set_col out f (to_numeric s))
  | None => Err KeyError
  end.

Definition fill_feature (out : DataFrame) (f : string) : result DataFrame :=
  match get out f with
  | None => Err KeyError
  | Some s =>
    if has_na s then
      median <- series_median s ;;
      if isnan median then
        d <- defaults_get defaults f ;; Ok (set_col out f (fillna s (of_Z d)))
      else Ok (set_col out f (fillna s median))
    else Ok out
  end.

Definition mapear_valores (df : DataFrame) : result DataFrame :=
  let out := df in
  out <- alias_custo out ;;
  let out := alias_str_int "densidade_kg_m3" "peso" dens_map out in
  let out := alias_str_float "tensile_strength_MPa" "resistencia" res_map out in
  let out :=
    alias_str_float "thermal_conductivity_W_mK" "condutividade" cond_map out in
  let out := map_simnao "reciclavel" out in
  let out := map_simnao "biodegradavel" out in
  let out := alias_temp out in
  let out := fold_left add_missing features out in
  out <- foldM coerce_feature out features ;;
  out <- foldM fill_feature out features ;;
  let keep := (filter (has_col out) ["id"; "nome_material"] ++ features)%list in
  select out keep.

End Normalizer.

(** ** A column-wise reading of [mapear_valores]

    Every canonical column of the result depends on one or two columns of
    the input only.  The definitions below compute the result column by
    column; [mapear_valores_by_column] proves that the pipeline of the
    source computes the same table. *)

Section ColumnWise.

Variable parse_numeric : text -> flt.

(** [cur] when the canonical column exists, else what the alternative
    column gives. *)
Definition aliased (cur alt : option Series) : option Series :=
  match cur with
  | Some s => Some s
  | None => alt
  end.

(** The column 'custo_index' after aliasing: [None] when neither it nor
    'custo' exists. *)
Definition custo_index_raw (df : DataFrame) : result (option Series) :=
  match get df "custo_index" with
  | Some s => Ok (Some s)
  | None =>
    match get df "custo" with
    | Some _ => _map_col_if_exists df "custo" _MAP_CUSTO
    | None => Ok None
    end
  end.

(** The floats of a numeric column. *)
Definition floats (s : Series) : list flt :=
  match s with
  | SInt l => map of_Z l
  | SFloat l => l
  | SBool l => map of_bool l
  | SObj l => []
  end.

(** The imputation of one numeric column, with its default [d]. *)
Definition fill_col (d : Z) (s : Series) : Series :=
  if has_na s then
    if isnan (median (floats s)) then fillna s (of_Z d)
    else fillna s (median (floats s))
  else s.

(** Synthesis of a missing column, coercion and imputation. *)
Definition normalized_column (d : Z) (n : nat) (r : option Series) : Series :=
  fill_col d
    (to_numeric parse_numeric
       (match r with Some s => s | None => SFloat (repeat NaN n) end)).

Definition id_columns (df : DataFrame) : list (string * Series) :=
  flat_map (fun c => match get df c with Some s => [(c, s)] | None => [] end)
           ["id"; "nome_material"].

Definition simnao (df : DataFrame) (c : string) : option Series :=
  option_map (map_str_int _MAP_SIMNAO) (get df c).

Definition mapear_valores_por_coluna (df : DataFrame) : result DataFrame :=
  custo <- custo_index_raw df ;;
  let n := nrows df in
  Ok (mkDF n
        (id_columns df ++
         [("custo_index", normalized_column 3 n custo);
          ("densidade_kg_m3",
           normalized_column 2000 n
             (aliased (get df "densidade_kg_m3")
                      (option_map (map_str_int dens_map) (get df "peso"))));
          ("tensile_strength_MPa",
           normalized_column 50 n
             (aliased (get df "tensile_strength_MPa")
                      (option_map (map_str_float res_map)
                                  (get df "resistencia"))));
          ("thermal_conductivity_W_mK",
           normalized_column 1 n
             (aliased (get df "thermal_conductivity_W_mK")
                      (option_map (map_str_float cond_map)
                                  (get df "condutividade"))));
          ("reciclavel", normalized_column 1 n (simnao df "reciclavel"));
          ("biodegradavel", normalized_column 0 n (simnao df "biodegradavel"));
          ("melting_point_C",
           normalized_column 300 n
             (aliased (get df "melting_point_C")
                      (get df "temperatura_max")))])).

End ColumnWise.

(** Notions used to follow one column through the pipeline. *)

(** [frame touched a b]: [b] has the rows of [a] and the same column under
    every name outside [touched]. *)
Definition frame (touched : list string) (a b : DataFrame) : Prop :=
  nrows b = nrows a /\ forall c, ~ In c touched -> get b c = get a c.

(** The column under [c] once the missing columns are synthesised. *)
Definition synth (out : DataFrame) (c : string) : Series :=
  match get out c with
  | Some s => s
  | None => SFloat (repeat NaN (nrows out))
  end.

Definition is_obj (s : Series) : bool :=
  match s with SObj _ => true | _ => false end.

(** The column under [c] after imputation. *)
Definition filled (out : DataFrame) (c : string) : option Series :=
  match get out c, defaults_get defaults c with
  | Some s, Ok d => Some (fill_col d s)
  | _, _ => None
  end.

(** The first half: the aliasing steps after 'custo'. *)
Definition alias_rest (out : DataFrame) : DataFrame :=
  alias_temp
    (map_simnao "biodegradavel"
       (map_simnao "reciclavel"
          (alias_str_float "thermal_conductivity_W_mK" "condutividade" cond_map
             (alias_str_float "tensile_strength_MPa" "resistencia" res_map
                (alias_str_int "densidade_kg_m3" "peso" dens_map out))))).

(** A raw column, when there is one, has one cell per row. *)
Definition raw_ok (n : nat) (r : option Series) : Prop :=
  match r with
  | Some s => series_len s = n
  | None => True
  end.

(** The cell is a Python [str]. *)
Definition is_str (v : pyval) : bool :=
  match v with VStr _ => true | _ => false end.

(** The column of the raw table a canonical column is read from: the
    canonical column itself when it exists, else its legacy alias. *)
Definition source_column (df : DataFrame) (f : string) : option Series :=
  aliased (get df f)
    (if String.eqb f "custo_index" then get df "custo"
     else if String.eqb f "densidade_kg_m3" then get df "peso"
     else if String.eqb f "tensile_strength_MPa" then get df "resistencia"
     else if String.eqb f "thermal_conductivity_W_mK"
          then get df "condutividade"
     else if String.eqb f "melting_point_C" then get df "temperatura_max"
     else None).

(** ** Regular expressions

    The fragment of Python's [re] the source uses, with its backtracking
    semantics: alternatives are tried from left to right, repetitions are
    greedy and give back one character at a time, [re.search] returns the
    match at the leftmost position that has one. *)

Module Regex.

Inductive regex : Type :=
| RLit (t : text)                                  (* the characters of [t] *)
| RAny                                             (* [.] *)
| RRep (p : N -> bool) (lo : nat) (hi : option nat)  (* [p{lo,hi}], greedy *)
| RSeq (a b : regex)
| RAlt (a b : regex)
| ROpt (a : regex)                                 (* [a?], greedy *)
| RGroup (i : nat) (a : regex).                    (* capturing group [i] *)

(** The groups captured so far, the latest first. *)
Definition captures : Type := list (nat * text).

Fixpoint group (i : nat) (cs : captures) : option text :=
  match cs with
  | [] => None
  | (j, t) :: cs' => if Nat.eqb i j then Some t else group i cs'
  end.

(** The length of the longest prefix of [s] made of characters in [p], no
    longer than [hi] when a bound is given. *)
Fixpoint span (p : N -> bool) (hi : option nat) (s : text) : nat :=
  match s with
  | [] => O
  | c :: s' =>
    if p c then
      match hi with
      | Some O => O
      | Some (S h) => S (span p (Some h) s')
      | None => S (span p None s')
      end
    else O
  end.

(** Tries [f (lo + d)], [f (lo + d - 1)], ..., [f lo] and returns the
    first success. *)
Fixpoint backoff {A : Type} (f : nat -> option A) (lo d : nat) : option A :=
  match f (lo + d)%nat with
  | Some x => Some x
  | None =>
    match d with
    | O => None
    | S d' => backoff f lo d'
    end
  end.

(** [rmatch r s cs k]: matches [r] at the start of [s] and hands the rest
    of the text and the captures to the continuation [k]; when [k] fails
    the next way of matching [r] is tried. *)
Fixpoint rmatch {A : Type} (r : regex) (s : text) (cs : captures)
  (k : text -> captures -> option A) : option A :=
  match r with
  | RLit t => if starts_with t s then k (skipn (List.length t) s) cs else None
  | RAny =>
    match s with
    | c :: s' => if N.eqb c 10 then None else k s' cs
    | [] => None
    end
  | RRep p lo hi =>
    let n := span p hi s in
    if Nat.ltb n lo then None
    else backoff (fun j => k (skipn j s) cs) lo (n - lo)
  | RSeq a b => rmatch a s cs (fun s' cs' => rmatch b s' cs' k)
  | RAlt a b =>
    match rmatch a s cs k with
    | Some x => Some x
    | None => rmatch b s cs k
    end
  | ROpt a =>
    match rmatch a s cs k with
    | Some x => Some x
    | None => k s cs
    end
  | RGroup i a =>
    rmatch a s cs
      (fun s' cs' =>
         k s' ((i, firstn (List.length s - List.length s') s) :: cs'))
  end.

Definition match_here (r : regex) (s : text) : option captures :=
  rmatch r s [] (fun _ cs => Some cs).

(** [re.search(r, s)]: the captures of the leftmost match. *)
Fixpoint search (r : regex) (s : text) : option captures :=
  match match_here r s with
  | Some cs => Some cs
  | None =>
    match s with
    | [] => None
    | _ :: s' => search r s'
    end
  end.

Definition is_char (c : N) (x : N) : bool := N.eqb x c.

(** The indices of the capturing groups of an expression. *)
Fixpoint group_ids (r : regex) : list nat :=
  match r with
  | RLit _ | RAny | RRep _ _ _ => []
  | RSeq a b | RAlt a b => group_ids a ++ group_ids b
  | ROpt a => group_ids a
  | RGroup i a => i :: group_ids a
  end.

(** The words an expression denotes (its language), against which the
    backtracking matcher is checked below. *)
Inductive lang : regex -> text -> Prop :=
| LLit t : lang (RLit t) t
| LAny c : c <> 10%N -> lang RAny [c]
| LRep p lo hi w :
    Forall (fun c => p c = true) w ->
    (lo <= List.length w)%nat ->
    (forall h, hi = Some h -> (List.length w <= h)%nat) ->
    lang (RRep p lo hi) w
| LSeq a b w1 w2 : lang a w1 -> lang b w2 -> lang (RSeq a b) (w1 ++ w2)
| LAltL a b w : lang a w -> lang (RAlt a b) w
| LAltR a b w : lang b w -> lang (RAlt a b) w
| LOptSome a w : lang a w -> lang (ROpt a) w
| LOptNone a : lang (ROpt a) []
| LGroup i a w : lang a w -> lang (RGroup i a) w.

(** [r] matches somewhere in [s]. *)
Definition occurs (r : regex) (s : text) : Prop :=
  exists pre w post, s = (pre ++ w ++ post)%list /\ lang r w.

End Regex.
Import Regex.

(** ** utils/recomendacao.py: the text parser *)

Definition _FEATURES : list string :=
  ["custo_index"; "densidade_kg_m3"; "tensile_strength_MPa";
   "thermal_conductivity_W_mK"; "reciclavel"; "biodegradavel";
   "melting_point_C"].

(** The value of a digit in [float]'s reading. *)
Definition digit_val (c : N) : Z :=
  match decimal c with
  | Some d => Z.of_N d
  | None => 0
  end.

Definition digits_val (t : text) : Z :=
  fold_left (fun acc c => 10 * acc + digit_val c) t 0.

(** [float(g)] for a text of the form [-?digits(.digits)?], which is what
    the groups below capture; any other text raises. *)
Definition float_unsigned (t : text) : result flt :=
  let ip := firstn (span is_digit None t) t in
  let rest := skipn (span is_digit None t) t in
  match ip, rest with
  | [], _ => Err ValueError
  | _, [] => Ok (of_Z (digits_val ip))
  | _, c :: fp =>
    if N.eqb c 46 && forallb is_digit fp then
      Ok (fin (inject_Z (digits_val (ip ++ fp)%list)
               / inject_Z (10 ^ Z.of_nat (List.length fp)))%Q)
    else Err ValueError
  end.

Definition py_float (t : text) : result flt :=
  match t with
  | 45%N :: t' =>
    x <- float_unsigned t' ;;
    Ok (match x with Fin q => fin (- q)%Q | other => other end)
  | _ => float_unsigned t
  end.

(** [(\d{2,5})\s*(kg\/m3|kg/m³)] *)
Definition re_kg_m3 : regex :=
  RSeq (RGroup 1 (RRep is_digit 2 (Some 5%nat)))
  (RSeq (RRep is_space 0 None)
        (RGroup 2 (RAlt (RLit (u "kg/m3")) (RLit (u "kg/m³"))))).

(** [(\d{1,4}(\.\d+)?)\s*(g\/cm3|g\/cm³)] *)
Definition re_g_cm3 : regex :=
  RSeq (RGroup 1 (RSeq (RRep is_digit 1 (Some 4%nat))
                       (ROpt (RGroup 2 (RSeq (RLit (u "."))
                                             (RRep is_digit 1 None))))))
  (RSeq (RRep is_space 0 None)
        (RGroup 3 (RAlt (RLit (u "g/cm3")) (RLit (u "g/cm³"))))).

(** [(\d{2,4})\s*(mpa)] *)
Definition re_mpa : regex :=
  RSeq (RGroup 1 (RRep is_digit 2 (Some 4%nat)))
  (RSeq (RRep is_space 0 None) (RGroup 2 (RLit (u "mpa")))).

(** [(\d{1,4}(\.\d+)?)\s*(w\/m.k|w\/m·k|w\/mk|w\/m·k)] *)
Definition re_w_mk : regex :=
  RSeq (RGroup 1 (RSeq (RRep is_digit 1 (Some 4%nat))
                       (ROpt (RGroup 2 (RSeq (RLit (u "."))
                                             (RRep is_digit 1 None))))))
  (RSeq (RRep is_space 0 None)
        (RGroup 3
           (RAlt (RSeq (RLit (u "w/m")) (RSeq RAny (RLit (u "k"))))
           (RAlt (RLit (u "w/m·k"))
           (RAlt (RLit (u "w/mk")) (RLit (u "w/m·k"))))))).

(** [(-?\d{1,4})\s*°?\s*c] *)
Definition re_temp : regex :=
  RSeq (RGroup 1 (RSeq (RRep (is_char 45) 0 (Some 1%nat))
                       (RRep is_digit 1 (Some 4%nat))))
  (RSeq (RRep is_space 0 None)
  (RSeq (RRep (is_char 176) 0 (Some 1%nat))
  (RSeq (RRep is_space 0 None) (RLit (u "c"))))).

(** [float(m.group(1))] *)
Definition group1_float (cs : captures) : result flt :=
  match group 1 cs with
  | Some g => py_float g
  | None => Err TypeError
  end.

(** [df_population[col].median() if df_population is not None else d] *)
Definition population_median (df_population : option DataFrame)
  (col : string) (d : flt) : result flt :=
  match df_population with
  | Some df =>
    match get df col with
    | Some s => series_median s
    | None => Err KeyError
    end
  | None => Ok d
  end.

(** The seven fields, in the order of the source.  Each of the
    definitions below is one commented block of [texto_para_vetor], on the
    lowercased text [t]. *)

(* custo_index *)
Definition vetor_custo (t : text) : flt :=
  if contains t (u "barato") || contains t (u "baixo custo") then of_Z 1
  else if contains t (u "médio") || contains t (u "medio")
          || contains t (u "custo médio") then of_Z 3
  else if contains t (u "caro") || contains t (u "alto custo") then of_Z 6
  else of_Z 3.

(* densidade proxy *)
Definition vetor_dens (t : text) (df_population : option DataFrame)
  : result flt :=
  if contains t (u "leve") || contains t (u "levíssimo") then Ok (of_Z 900)
  else if contains t (u "pesado") || contains t (u "pesad")
  then Ok (of_Z 7800)
  else if contains t (u "médio") then Ok (of_Z 2500)
  else
    match search re_kg_m3 t with
    | Some m => group1_float m
    | None =>
      match search re_g_cm3 t with
      | Some m2 => x <- group1_float m2 ;; Ok (scale x (1000 # 1)%Q)
      | None => population_median df_population "densidade_kg_m3" (of_Z 2000)
      end
    end.

(* tensile strength proxy *)
Definition vetor_tens (t : text) (df_population : option DataFrame)
  : result flt :=
  if contains t (u "muito resistente") || contains t (u "alta resistência")
  then Ok (of_Z 400)
  else if contains t (u "resistente") || contains t (u "resistência alta")
  then Ok (of_Z 200)
  else if contains t (u "pouco resistente") || contains t (u "frágil")
  then Ok (of_Z 10)
  else
    match search re_mpa t with
    | Some m => group1_float m
    | None => population_median df_population "tensile_strength_MPa" (of_Z 50)
    end.

(* thermal conductivity *)
Definition vetor_cond (t : text) (df_population : option DataFrame)
  : result flt :=
  if contains t (u "isolante") || contains t (u "baixo condutor")
  then Ok (Fin (1 # 5)%Q)
  else if contains t (u "condutor") || contains t (u "alta condutividade")
          || contains t (u "elétrico")
  then Ok (of_Z 100)
  else
    match search re_w_mk t with
    | Some m => group1_float m
    | None =>
      population_median df_population "thermal_conductivity_W_mK" (of_Z 1)
    end.

(* reciclavel / biodegradavel *)
Definition vetor_recicl (t : text) : flt :=
  if contains t (u "recicl") || contains t (u "reutiliz")
  then of_Z 1 else of_Z 0.

Definition vetor_bio (t : text) : flt :=
  if contains t (u "biodegrad") || contains t (u "compost")
  then of_Z 1 else of_Z 0.

(* temperatura max *)
Definition vetor_temp (t : text) (df_population : option DataFrame)
  : result flt :=
  match search re_temp t with
  | Some m => group1_float m
  | None =>
    if contains t (u "resiste ao calor") || contains t (u "alta temperatura")
    then Ok (of_Z 1000)
    else if contains t (u "nao derrete") || contains t (u "não derrete")
    then Ok (of_Z 1500)
    else population_median df_population "melting_point_C" (of_Z 300)
  end.

Definition texto_para_vetor (texto : text) (df_population : option DataFrame)
  : result (list flt) :=
  let t := lower texto in
  let custo := vetor_custo t in
  dens <- vetor_dens t df_population ;;
  tens <- vetor_tens t df_population ;;
  cond <- vetor_cond t df_population ;;
  let recicl := vetor_recicl t in
  let bio := vetor_bio t in
  temp <- vetor_temp t df_population ;;
  Ok [custo; dens; tens; cond; recicl; bio; temp].

(** The shapes the expressions look for.  [kg_m3_here s g]: [s] starts
    with the number [g] of 2 to 5 digits, then optional white space and
    the unit.  [g_cm3_here s g]: the same with a number of 1 to 4 digits
    and an optional fractional part.  [temp_here s g]: [s] starts with a
    number [g] of 1 to 4 digits, with an optional minus sign, then
    optional white space, an optional degree sign, optional white space
    and "c". *)
Definition all_digits (g : text) : Prop :=
  Forall (fun c => is_digit c = true) g.

Definition all_spaces (ws : text) : Prop :=
  Forall (fun c => is_space c = true) ws.

Definition kg_m3_here (s g : text) : Prop :=
  exists ws unit post,
    s = g ++ ws ++ unit ++ post
    /\ all_digits g /\ (2 <= List.length g <= 5)%nat
    /\ all_spaces ws /\ (unit = u "kg/m3" \/ unit = u "kg/m³").

Definition decimal_number (g : text) : Prop :=
  exists ip,
    all_digits ip /\ (1 <= List.length ip <= 4)%nat
    /\ (g = ip
        \/ exists fp, all_digits fp /\ fp <> [] /\ g = ip ++ u "." ++ fp).

Definition g_cm3_here (s g : text) : Prop :=
  exists ws unit post,
    s = g ++ ws ++ unit ++ post
    /\ decimal_number g
    /\ all_spaces ws /\ (unit = u "g/cm3" \/ unit = u "g/cm³").

Definition temp_here (s g : text) : Prop :=
  exists sign ds ws1 deg ws2 post,
    s = g ++ ws1 ++ deg ++ ws2 ++ u "c" ++ post
    /\ g = sign ++ ds /\ (sign = [] \/ sign = u "-")
    /\ all_digits ds /\ (1 <= List.length ds <= 4)%nat
    /\ all_spaces ws1 /\ (deg = [] \/ deg = u "°") /\ all_spaces ws2.

(** The shape [here] is found with the number [g] at position [n] of
    [t], counted in code points from 0. *)
Definition at_pos (here : text -> text -> Prop) (t : text) (n : nat)
  (g : text) : Prop :=
  exists pre s, t = pre ++ s /\ List.length pre = n /\ here s g.

(** [n] is the leftmost position of [t] at which the shape is found, and
    [g] is the number it is found with there, the only one. *)
Definition leftmost (here : text -> text -> Prop) (t : text) (n : nat)
  (g : text) : Prop :=
  at_pos here t n g
  /\ (forall n' g', at_pos here t n' g' -> (n <= n')%nat)
  /\ (forall g', at_pos here t n g' -> g' = g).

(** The shape is found somewhere in [t], with the number [g]. *)
Definition kg_m3_at (t g : text) : Prop := exists n, at_pos kg_m3_here t n g.

Definition g_cm3_at (t g : text) : Prop := exists n, at_pos g_cm3_here t n g.

Definition temp_at (t g : text) : Prop := exists n, at_pos temp_here t n g.

(** The integer a text of the form [-?digits] denotes. *)
Definition signed_val (g : text) : Z :=
  match g with
  | 45%N :: ds => - digits_val ds
  | _ => digits_val g
  end.

(** ** utils/recomendacao.py: the matcher *)

(** A fitted [NearestNeighbors]: the parameter given at construction, the
    matrix it was fitted on (one row per sample) and the number of columns
    of that matrix. *)
Record NearestNeighbors : Type := mkNN {
  n_neighbors : Z;
  fit_X : list (list flt);
  n_features_in : nat
}.

Definition n_samples_fit (m : NearestNeighbors) : nat := List.length (fit_X m).

(** [df.iloc[idx]] *)
Definition iloc (df : DataFrame) (idx : list nat) : result DataFrame :=
  if forallb (fun i => Nat.ltb i (nrows df)) idx then
    cols <- mapM (fun c => s <- series_take (snd c) idx ;; Ok (fst c, s))
                 (columns df) ;;
    Ok (mkDF (List.length idx) cols)
  else Err IndexError.

Section Matcher.

(** What numpy's conversion to [float64] makes of a string cell: a number,
    or [ValueError]. *)
Variable astype_float : text -> result flt.

(** The search of scikit-learn behind [kneighbors], for a fitted matrix, a
    query row and a number of neighbours: the distances and the positions
    of the rows found.  It is library code, taken here as it comes. *)
Variable neighbors_search :
  list (list flt) -> list flt -> nat -> list flt * list nat.

Definition values_cell (v : pyval) : result flt :=
  match v with
  | VNone => Ok NaN
  | VBool b => Ok (of_bool b)
  | VInt z => Ok (of_Z z)
  | VFloat x => Ok x
  | VStr s => astype_float s
  end.

(** The cells of a column as [float64]. *)
Definition series_values (s : Series) : result (list flt) :=
  mapM values_cell (cells s).

(** The rows of a matrix given by its columns. *)
Definition rows_of (n : nat) (cols : list (list flt)) : list (list flt) :=
  map (fun i => map (fun c => nth i c NaN) cols) (seq 0 n).

(** The input validation of scikit-learn: at least one row, no NaN, no
    infinity. *)
Definition check_array (X : list (list flt)) : result (list (list flt)) :=
  match X with
  | [] => Err ValueError
  | _ => if forallb (forallb isfinite) X then Ok X else Err ValueError
  end.

Definition preparar_modelo (df : DataFrame) (n_neighbors : Z)
  : result NearestNeighbors :=
  sel <- select df _FEATURES ;;
  cols <- mapM (fun c => series_values (snd c)) (columns sel) ;;
  let X := rows_of (nrows df) cols in
  if (n_neighbors <=? 0)%Z then Err ValueError
  else
    X <- check_array X ;;
    Ok (mkNN n_neighbors X (List.length _FEATURES)).

(** [modelo.kneighbors(Xq, n_neighbors=k)] for a query of one row. *)
Definition kneighbors (modelo : NearestNeighbors) (Xq : list flt) (k : Z)
  : result (list flt * list nat) :=
  if (k <=? 0)%Z then Err ValueError
  else
    _ <- check_array [Xq] ;;
    if negb (Nat.eqb (List.length Xq) (n_features_in modelo))
    then Err ValueError
    else if (Z.of_nat (n_samples_fit modelo) <? k)%Z then Err ValueError
    else Ok (neighbors_search (fit_X modelo) Xq (Z.to_nat k)).

Definition recomendar_material (modelo : NearestNeighbors)
  (df_original : DataFrame) (vetor_entrada : list flt) (k : Z)
  : result DataFrame :=
  let Xq := vetor_entrada in
  r <- kneighbors modelo Xq k ;;
  let (dist, idx) := r in
  resultados <- iloc df_original idx ;;
  if Nat.eqb (List.length dist) (nrows resultados)
  then Ok (set_col resultados "distancia" (SFloat dist))
  else Err ValueError.

End Matcher.

(** ** models/treinar_modelo.py and app.py: the flows

    Reading the table from its file, the saved model file and the widgets
    are left out: the table and the saved model, when there is one, are
    arguments. *)

Section App.

Variable parse_numeric : text -> flt.
Variable astype_float : text -> result flt.
Variable neighbors_search :
  list (list flt) -> list flt -> nat -> list flt * list nat.

(** [main] of models/treinar_modelo.py: what it hands to [joblib.dump]
    (the model, the feature names, the normalised table). *)
Definition treinar_modelo_main (df : DataFrame)
  : result (NearestNeighbors * list string * DataFrame) :=
  df_proc <- mapear_valores parse_numeric df ;;
  modelo <- preparar_modelo astype_float df_proc 5 ;;
  Ok (modelo, _FEATURES, df_proc).

(** app.py in its free-text mode: the table is normalised, the model is
    the saved one or is fitted on the spot, the description is parsed
    against the normalised table and three materials are looked up in the
    raw table. *)
Definition app_descricao (saved : option NearestNeighbors)
  (df_raw : DataFrame) (texto : text) : result DataFrame :=
  df_proc <- mapear_valores parse_numeric df_raw ;;
  modelo <- match saved with
            | Some m => Ok m
            | None => preparar_modelo astype_float df_proc 5
            end ;;
  vetor <- texto_para_vetor texto (Some df_proc) ;;
  recomendar_material neighbors_search modelo df_raw vetor 3.

End App.

(** ** Inputs used in examples *)

Definition exemplo_texto : text :=
  u "leve, barato, resistência alta, não biodegradável".

Definition exemplo_population : DataFrame :=
  mkDF 3 [("thermal_conductivity_W_mK", SFloat [Fin (1 # 2); Fin 2; Fin 5]);
          ("melting_point_C", SInt [100; 200; 660])].

(** A parser for [pd.to_numeric] that reads no number at all; the examples
    below have no string in a numeric column, so any parser gives the same
    tables. *)
Definition no_parse (s : text) : flt := NaN.

(** A 'custo' column with a missing cell. *)
Definition custo_com_lacuna : DataFrame :=
  mkDF 2 [("custo", SObj [VStr (u "baixo"); VNone])].

(** The same missing cell in a 'peso' column. *)
Definition peso_com_lacuna : DataFrame :=
  mkDF 2 [("peso", SObj [VStr (u "leve"); VNone])].

(** A density column with an infinite value. *)
Definition densidade_infinita : DataFrame :=
  mkDF 1 [("densidade_kg_m3", SFloat [PInf])].

(** Scenario 1 of the specification, with a second material. *)
Definition cenario1 : DataFrame :=
  mkDF 2 [("nome_material", SObj [VStr (u "PET"); VStr (u "aço")]);
          ("custo", SObj [VStr (u "baixo"); VStr (u "medio")]);
          ("peso", SObj [VStr (u "leve"); VStr (u "medio")])].

Definition cenario1_normalizado : DataFrame :=
  mkDF 2 [("nome_material", SObj [VStr (u "PET"); VStr (u "aço")]);
          ("custo_index", SFloat [Fin 0; Fin 0]);
          ("densidade_kg_m3", SInt [1000; 5000]);
          ("tensile_strength_MPa", SFloat [Fin 50; Fin 50]);
          ("thermal_conductivity_W_mK", SFloat [Fin 1; Fin 1]);
          ("reciclavel", SFloat [Fin 1; Fin 1]);
          ("biodegradavel", SFloat [Fin 0; Fin 0]);
          ("melting_point_C", SFloat [Fin 300; Fin 300])].

(** A table with numeric columns out of the documented ranges. *)
Definition fora_de_faixa : DataFrame :=
  mkDF 2 [("custo_index", SInt [9; 2]);
          ("densidade_kg_m3", SFloat [Fin (-5); NaN])].

(** The five canonical columns that are not booleans. *)
Definition non_boolean_features : list string :=
  ["custo_index"; "densidade_kg_m3"; "tensile_strength_MPa";
   "thermal_conductivity_W_mK"; "melting_point_C"].

(** The value pandas imputes in a column of floats with default [d]. *)
Definition fill_value (d : Z) (l : list flt) : flt :=
  if isnan (median l) then of_Z d else median l.

(** What the 'custo' map makes of a cell. *)
Definition custo_cell (v : pyval) : flt :=
  match v with
  | VStr s =>
    match dict_get _MAP_CUSTO (lower (strip s)) with
    | Some z => of_Z z
    | None => NaN
    end
  | _ => NaN
  end.

(** What a map of the normaliser makes of a cell: the mapped value, or
    NaN (missing) when the text of the cell is no key. *)
Definition mapped_int (d : dict Z) (v : pyval) : flt :=
  match lookup_cell d v with
  | Some z => of_Z z
  | None => NaN
  end.

Definition mapped_float (d : dict Q) (v : pyval) : flt :=
  match lookup_cell d v with
  | Some q => Fin q
  | None => NaN
  end.

(** What the normaliser reads in one cell of the column the feature [f]
    comes from, before imputation.  Which reading applies depends on the
    feature, on the columns the table has and on the dtype of 'custo',
    never on the row. *)
Definition reading (parse_numeric : text -> flt) (df : DataFrame)
  (f : string) : pyval -> flt :=
  if String.eqb f "reciclavel" || String.eqb f "biodegradavel"
  then mapped_int _MAP_SIMNAO
  else if has_col df f then to_numeric_cell parse_numeric
  else if String.eqb f "custo_index" then
    match get df "custo" with
    | Some (SObj _) => custo_cell
    | _ => to_numeric_cell parse_numeric
    end
  else if String.eqb f "densidade_kg_m3" then mapped_int dens_map
  else if String.eqb f "tensile_strength_MPa" then mapped_float res_map
  else if String.eqb f "thermal_conductivity_W_mK" then mapped_float cond_map
  else to_numeric_cell parse_numeric.

(** The value of feature [f] in the row whose source cell is [v]: what is
    read in the cell, or, when nothing is read there, the value imputed
    in the column [src] (the median of what is read in its cells, or the
    default [d]). *)
Definition row_value (parse_numeric : text -> flt) (df : DataFrame)
  (f : string) (d : Z) (src : Series) (v : pyval) : flt :=
  let y := reading parse_numeric df f v in
  if isnan y
  then fill_value d (map (reading parse_numeric df f) (cells src))
  else y.

(** A table in canonical form: the seven canonical columns are present,
    numeric and complete. *)
Definition canonical (df : DataFrame) : Prop :=
  forall f, In f features ->
    exists s, get df f = Some s /\ is_obj s = false /\ has_na s = false.




(** What [mapear_valores] makes of an existing 'reciclavel' or
    'biodegradavel' column, with default [d]. *)
Definition simnao_column (parse_numeric : text -> flt) (d : Z) (n : nat)
  (s : Series) : Series :=
  normalized_column parse_numeric d n (Some (map_str_int _MAP_SIMNAO s)).


(** A table with the value 2 in an integer 'reciclavel' column. *)
Definition reciclavel_012 : DataFrame :=
  mkDF 3 [("custo_index", SInt [1; 2; 3]);
          ("densidade_kg_m3", SFloat [Fin 900; Fin 2700; Fin 7800]);
          ("tensile_strength_MPa", SFloat [Fin 50; Fin 300; Fin 400]);
          ("thermal_conductivity_W_mK", SFloat [Fin (1 # 5); Fin 200; Fin 50]);
          ("reciclavel", SInt [0; 1; 2]);
          ("biodegradavel", SInt [0; 0; 0]);
          ("melting_point_C", SInt [250; 660; 1500])].

(** ** An exhaustive search

    A search that meets what the matcher needs from the library: the [k]
    rows nearest to the query, by comparing every fitted row.  Distances
    are given by their squares, the rationals having no square roots; the
    order is the same. *)

Definition sq_diff (x y : flt) : flt :=
  match x, y with
  | Fin a, Fin b => fin ((a - b) * (a - b))%Q
  | _, _ => NaN
  end.

Definition add_flt (x y : flt) : flt :=
  match x, y with
  | Fin a, Fin b => fin (a + b)%Q
  | _, _ => NaN
  end.

Fixpoint sq_dist (x y : list flt) : flt :=
  match x, y with
  | a :: x', b :: y' => add_flt (sq_diff a b) (sq_dist x' y')
  | _, _ => of_Z 0
  end.

Fixpoint insert_near (e : flt * nat) (l : list (flt * nat)) : list (flt * nat) :=
  match l with
  | [] => [e]
  | e' :: l' =>
    if Num.leb (fst e') (fst e) then e' :: insert_near e l' else e :: l
  end.

Definition sort_near (l : list (flt * nat)) : list (flt * nat) :=
  fold_right insert_near [] l.

Definition busca_exaustiva (X : list (list flt)) (q : list flt) (k : nat)
  : list flt * list nat :=
  let ranked :=
    sort_near (combine (map (sq_dist q) X) (seq 0 (List.length X))) in
  (map fst (firstn k ranked), map snd (firstn k ranked)).

(** Conversion of string cells that reads no number. *)
Definition no_float (s : text) : result flt := Err ValueError.

(** A catalogue of three normalised materials and a query. *)
Definition catalogo : DataFrame :=
  mkDF 3 [("nome_material", SObj [VStr (u "PET"); VStr (u "alumínio");
                                  VStr (u "aço")]);
          ("custo_index", SInt [1; 2; 3]);
          ("densidade_kg_m3", SFloat [Fin 900; Fin 2700; Fin 7800]);
          ("tensile_strength_MPa", SFloat [Fin 50; Fin 300; Fin 400]);
          ("thermal_conductivity_W_mK", SFloat [Fin (1 # 5); Fin 200; Fin 50]);
          ("reciclavel", SInt [1; 1; 1]);
          ("biodegradavel", SInt [0; 0; 0]);
          ("melting_point_C", SInt [250; 660; 1500])].

Definition catalogo_modelo : NearestNeighbors :=
  mkNN 3
    [[Fin 1; Fin 900; Fin 50; Fin (1 # 5); Fin 1; Fin 0; Fin 250];
     [Fin 2; Fin 2700; Fin 300; Fin 200; Fin 1; Fin 0; Fin 660];
     [Fin 3; Fin 7800; Fin 400; Fin 50; Fin 1; Fin 0; Fin 1500]]
    7.

Definition consulta : list flt :=
  [Fin 2; Fin 3000; Fin 120; Fin 2; Fin 1; Fin 0; Fin 800].

(** A matcher fitted on fifty rows. *)
Definition modelo_50 : NearestNeighbors :=
  mkNN 5
    (repeat [Fin 1; Fin 900; Fin 50; Fin (1 # 5); Fin 1; Fin 0; Fin 250] 50)
    7.

(** The query is structurally wrong in the sense of the specification. *)
Definition invalid_query (modelo : NearestNeighbors) (v : list flt) (k : Z)
  : Prop :=
  List.length v <> 7%nat
  \/ forallb isfinite v = false
  \/ Z.of_nat (n_samples_fit modelo) < k.

(** The table of two rows in which every field has its default. *)
Definition tabela_padrao_2 : DataFrame :=
  mkDF 2 [("custo_index", SFloat [Fin 3; Fin 3]);
          ("densidade_kg_m3", SFloat [Fin 2000; Fin 2000]);
          ("tensile_strength_MPa", SFloat [Fin 50; Fin 50]);
          ("thermal_conductivity_W_mK", SFloat [Fin 1; Fin 1]);
          ("reciclavel", SFloat [Fin 1; Fin 1]);
          ("biodegradavel", SFloat [Fin 0; Fin 0]);
          ("melting_point_C", SFloat [Fin 300; Fin 300])].

(** A 'reciclavel' column written as text, and one held as floats. *)
Definition reciclavel_texto : DataFrame :=
  mkDF 2 [("reciclavel", SObj [VStr (u "Não"); VStr (u " SIM ")])].

Definition reciclavel_texto_normalizado : DataFrame :=
  mkDF 2 [("custo_index", SFloat [Fin 3; Fin 3]);
          ("densidade_kg_m3", SFloat [Fin 2000; Fin 2000]);
          ("tensile_strength_MPa", SFloat [Fin 50; Fin 50]);
          ("thermal_conductivity_W_mK", SFloat [Fin 1; Fin 1]);
          ("reciclavel", SInt [0; 1]);
          ("biodegradavel", SFloat [Fin 0; Fin 0]);
          ("melting_point_C", SFloat [Fin 300; Fin 300])].

Definition reciclavel_float : DataFrame :=
  mkDF 2 [("reciclavel", SFloat [Fin 0; Fin 1])].

Definition fora_de_faixa_normalizado : DataFrame :=
  mkDF 2 [("custo_index", SInt [9; 2]);
          ("densidade_kg_m3", SFloat [Fin (-5); Fin (-5)]);
          ("tensile_strength_MPa", SFloat [Fin 50; Fin 50]);
          ("thermal_conductivity_W_mK", SFloat [Fin 1; Fin 1]);
          ("reciclavel", SFloat [Fin 1; Fin 1]);
          ("biodegradavel", SFloat [Fin 0; Fin 0]);
          ("melting_point_C", SFloat [Fin 300; Fin 300])].

(** [x] is a rational between [lo] and [hi]. *)
Definition within (lo hi : Q) (x : flt) : Prop :=
  exists q, x = Fin q /\ (lo <= q <= hi)%Q.

(** What the query [consulta] for two neighbours returns on the
    catalogue, with the exhaustive search. *)
Definition consulta_resultado : DataFrame :=
  mkDF 2 [("nome_material", SObj [VStr (u "alumínio"); VStr (u "PET")]);
          ("custo_index", SInt [2; 1]);
          ("densidade_kg_m3", SFloat [Fin 2700; Fin 900]);
          ("tensile_strength_MPa", SFloat [Fin 300; Fin 50]);
          ("thermal_conductivity_W_mK", SFloat [Fin 200; Fin (1 # 5)]);
          ("reciclavel", SInt [1; 1]);
          ("biodegradavel", SInt [0; 0]);
          ("melting_point_C", SInt [660; 250]);
          ("distancia", SFloat [Fin 181204; Fin (117935106 # 25)])].

(* end of example inputs *)

(** * Properties *)

(** ** Sanity checks of the text model *)

Example u_medio : u "médio" = [109; 233; 100; 105; 111]%N.
Proof. reflexivity. Qed.

Example lower_upper : lower (u "MÉDIO kg/m³") = u "médio kg/m³".
Proof. reflexivity. Qed.

Example strip_sim : strip (u "  sim ") = u "sim".
Proof. reflexivity. Qed.

(** Lowercasing beyond Latin-1: the Kelvin sign becomes "k", capital I
    with dot above becomes two code points, and capital sigma becomes the
    final sigma at the end of a word only. *)
Example lower_unicode :
  lower [8490; 304; 913; 931; 32; 931; 913]%N
  = [107; 105; 775; 945; 962; 32; 963; 945]%N.
Proof. vm_compute. reflexivity. Qed.

(** Decimal digits of any script are digits for [\d] and for [float]:
    Arabic-Indic "500 kg/m3" and "30 c" are read as 500 and 30; and a
    unit written with the Kelvin sign is the unit "kg/m3" once
    lowercased. *)
Example unicode_digits_read :
  texto_para_vetor (u "٥٠٠ kg/m3") None
  = Ok [of_Z 3; of_Z 500; of_Z 50; of_Z 1; of_Z 0; of_Z 0; of_Z 300]
  /\ texto_para_vetor (u "٣٠ c") None
     = Ok [of_Z 3; of_Z 2000; of_Z 50; of_Z 1; of_Z 0; of_Z 0; of_Z 30]
  /\ texto_para_vetor [53; 48; 48; 32; 8490; 103; 47; 109; 51]%N None
     = Ok [of_Z 3; of_Z 500; of_Z 50; of_Z 1; of_Z 0; of_Z 0; of_Z 300].
Proof. repeat split; vm_compute; reflexivity. Qed.

Example search_temp_example :
  search re_temp (u "funde a -40 °c") = Some [(1%nat, u "-40")].
Proof. reflexivity. Qed.

(** ** The text parser on the example of the specification *)

Lemma exemplo_contains_biodegrad :
  contains (lower exemplo_texto) (u "biodegrad") = true.
Proof. reflexivity. Qed.

(** C1, as stated, fails: on the text of the example, with a reference
    table whose conductivity median is 2 and whose melting-point median is
    200, the parser does not return [1, 900, 200, 2, 0, 0, 200]; the
    biodegradable field is 1. *)
Lemma C1_counterexample :
  texto_para_vetor exemplo_texto (Some exemplo_population)
    = Ok [of_Z 1; of_Z 900; of_Z 200; of_Z 2; of_Z 0; of_Z 1; of_Z 200]
  /\ texto_para_vetor exemplo_texto (Some exemplo_population)
    <> Ok [of_Z 1; of_Z 900; of_Z 200; of_Z 2; of_Z 0; of_Z 0; of_Z 200].
Proof.
  split.
  - vm_compute. reflexivity.
  - vm_compute. discriminate.
Qed.

(** C1, amended: for the text of the example and a reference table whose
    thermal-conductivity column has median [c] and whose melting-point
    column has median [m], the parser returns [1, 900, 200, c, 0, 1, m]: the
    recyclable field is 0 and the biodegradable field is 1, because the
    text contains "biodegrad". *)
Theorem C1_exemplo_vetor (df : DataFrame) (sc sm : Series) (c m : flt) :
  get df "thermal_conductivity_W_mK" = Some sc ->
  series_median sc = Ok c ->
  get df "melting_point_C" = Some sm ->
  series_median sm = Ok m ->
  texto_para_vetor exemplo_texto (Some df)
    = Ok [of_Z 1; of_Z 900; of_Z 200; c; of_Z 0; of_Z 1; m].
Proof.
  intros Hsc Hc Hsm Hm.
  unfold texto_para_vetor, vetor_dens, vetor_tens, vetor_cond, vetor_temp,
    population_median.
  rewrite Hsc, Hc, Hsm, Hm.
  vm_compute. reflexivity.
Qed.

Lemma C1_exemplo_vetor_witness :
  texto_para_vetor exemplo_texto (Some exemplo_population)
    = Ok [of_Z 1; of_Z 900; of_Z 200; of_Z 2; of_Z 0; of_Z 1; of_Z 200].
Proof.
  apply (C1_exemplo_vetor exemplo_population
           (SFloat [Fin (1 # 2); Fin 2; Fin 5]) (SInt [100; 200; 660])).
  - reflexivity.
  - reflexivity.
  - reflexivity.
  - reflexivity.
Defined.

(** ** The matcher against the language of an expression *)

Lemma starts_with_split (p s : text) :
  starts_with p s = true -> s = p ++ skipn (List.length p) s.
Proof.
  revert s. induction p as [|a p IH]; intros s H.
  - reflexivity.
  - destruct s as [|b s]; [discriminate|].
    simpl in H. apply andb_prop in H as [Hab Hp].
    apply N.eqb_eq in Hab. subst b. simpl. f_equal. now apply IH.
Qed.

Lemma starts_with_app (p s : text) : starts_with p (p ++ s) = true.
Proof.
  induction p as [|a p IH]; [reflexivity|].
  simpl. now rewrite N.eqb_refl, IH.
Qed.

Lemma span_prefix (p : N -> bool) (s : text) :
  forall hi j, (j <= span p hi s)%nat ->
    Forall (fun c => p c = true) (firstn j s) /\ List.length (firstn j s) = j.
Proof.
  induction s as [|c s IH]; intros hi j Hj.
  - simpl in Hj. assert (j = 0%nat) by lia. subst. simpl. auto.
  - destruct j as [|j]; [simpl; auto|].
    simpl in Hj. destruct (p c) eqn:Hc; [|lia].
    destruct hi as [[|h]|]; try lia.
    + destruct (IH (Some h) j) as [H1 H2]; [lia|].
      simpl. split; [constructor; assumption | now rewrite H2].
    + destruct (IH None j) as [H1 H2]; [lia|].
      simpl. split; [constructor; assumption | now rewrite H2].
Qed.

Lemma span_bound (p : N -> bool) (s : text) :
  forall h, (span p (Some h) s <= h)%nat.
Proof.
  induction s as [|c s IH]; intros h; simpl; [lia|].
  destruct (p c); [|lia]. destruct h as [|h]; [lia|].
  specialize (IH h). lia.
Qed.

Lemma span_app (p : N -> bool) (w s' : text) :
  Forall (fun c => p c = true) w ->
  forall hi, (forall h, hi = Some h -> (List.length w <= h)%nat) ->
  (List.length w <= span p hi (w ++ s'))%nat.
Proof.
  induction 1 as [|c w Hc Hw IH]; intros hi Hhi; simpl; [lia|].
  rewrite Hc. destruct hi as [[|h]|].
  - specialize (Hhi 0%nat eq_refl). simpl in Hhi. lia.
  - assert (List.length w <= span p (Some h) (w ++ s'))%nat; [|lia].
    apply IH. intros h' [= <-]. specialize (Hhi (S h) eq_refl). simpl in Hhi. lia.
  - assert (List.length w <= span p None (w ++ s'))%nat; [|lia].
    apply IH. discriminate.
Qed.

Lemma backoff_some {A : Type} (f : nat -> option A) (lo d : nat) (x : A) :
  backoff f lo d = Some x ->
  exists j, (lo <= j <= lo + d)%nat /\ f j = Some x.
Proof.
  induction d as [|d IH]; simpl; intros H.
  - destruct (f (lo + 0)%nat) eqn:E; [|discriminate].
    exists (lo + 0)%nat. split; [lia | congruence].
  - destruct (f (lo + S d)%nat) eqn:E.
    + exists (lo + S d)%nat. split; [lia | congruence].
    + destruct (IH H) as [j [Hj Hf]]. exists j. split; [lia | assumption].
Qed.

Lemma backoff_none {A : Type} (f : nat -> option A) (lo d : nat) :
  backoff f lo d = None ->
  forall j, (lo <= j <= lo + d)%nat -> f j = None.
Proof.
  induction d as [|d IH]; simpl; intros H j Hj.
  - destruct (f (lo + 0)%nat) eqn:E; [discriminate|].
    replace j with (lo + 0)%nat by lia. assumption.
  - destruct (f (lo + S d)%nat) eqn:E; [discriminate|].
    destruct (Nat.eq_dec j (lo + S d)) as [->|Hne]; [assumption|].
    apply IH; [assumption | lia].
Qed.

Lemma firstn_app_length {A : Type} (w s' : list A) :
  firstn (List.length (w ++ s') - List.length s') (w ++ s') = w.
Proof.
  rewrite length_app. replace (List.length w + List.length s' - List.length s')%nat
    with (List.length w + 0)%nat by lia.
  rewrite firstn_app_2. simpl. apply app_nil_r.
Qed.

(** Soundness: a successful match consumed a word of the language, and the
    continuation saw the captures of the groups that took part. *)
Lemma rmatch_sound {A : Type} (r : regex) :
  forall (s : text) (cs : captures) (k : text -> captures -> option A) (x : A),
    rmatch r s cs k = Some x ->
    exists w s' new,
      s = w ++ s' /\ lang r w /\ k s' (new ++ cs) = Some x
      /\ Forall (fun e => In (fst e) (group_ids r)) new.
Proof.
  induction r as [t| |p lo hi|a IHa b IHb|a IHa b IHb|a IHa|i a IHa];
    intros s cs k x H; simpl in H.
  - destruct (starts_with t s) eqn:E; [|discriminate].
    exists t, (skipn (List.length t) s), [].
    repeat split; auto using starts_with_split, LLit.
  - destruct s as [|c s]; [discriminate|].
    destruct (N.eqb c 10) eqn:E; [discriminate|].
    exists [c], s, []. repeat split; auto.
    constructor. now apply N.eqb_neq.
  - destruct (Nat.ltb (span p hi s) lo) eqn:E; [discriminate|].
    apply Nat.ltb_ge in E.
    apply backoff_some in H as [j [Hj Hk]].
    destruct (span_prefix p s hi j) as [Hall Hlen]; [lia|].
    exists (firstn j s), (skipn j s), [].
    repeat split; auto using firstn_skipn.
    + symmetry. apply firstn_skipn.
    + constructor; [assumption | lia |].
      intros h ->. pose proof (span_bound p s h). lia.
  - apply IHa in H as (w1 & s1 & n1 & -> & L1 & H & G1).
    apply IHb in H as (w2 & s2 & n2 & -> & L2 & H & G2).
    exists (w1 ++ w2), s2, (n2 ++ n1).
    repeat split.
    + now rewrite app_assoc.
    + now constructor.
    + now rewrite <- app_assoc.
    + simpl. apply Forall_app. split.
      * eapply Forall_impl; [|exact G2]. intros e He. apply in_or_app. now right.
      * eapply Forall_impl; [|exact G1]. intros e He. apply in_or_app. now left.
  - destruct (rmatch a s cs k) eqn:E.
    + injection H as ->.
      apply IHa in E as (w & s' & new & -> & L & H & G).
      exists w, s', new. repeat split; auto using LAltL.
      eapply Forall_impl; [|exact G]. intros e He. simpl. apply in_or_app. now left.
    + apply IHb in H as (w & s' & new & -> & L & H & G).
      exists w, s', new. repeat split; auto using LAltR.
      eapply Forall_impl; [|exact G]. intros e He. simpl. apply in_or_app. now right.
  - destruct (rmatch a s cs k) eqn:E.
    + injection H as ->.
      apply IHa in E as (w & s' & new & -> & L & H & G).
      exists w, s', new. repeat split; auto using LOptSome.
    + exists [], s, []. repeat split; auto using LOptNone.
  - apply IHa in H as (w & s' & new & -> & L & H & G).
    rewrite firstn_app_length in H.
    exists w, s', ((i, w) :: new). repeat split; auto using LGroup.
    constructor; [simpl; now left|].
    eapply Forall_impl; [|exact G]. intros e He. simpl. now right.
Qed.

(** Completeness: when the match fails, the continuation failed after
    every word of the language that starts the text. *)
Lemma rmatch_complete {A : Type} (r : regex) :
  forall (s : text) (cs : captures) (k : text -> captures -> option A),
    rmatch r s cs k = None ->
    forall w s', s = w ++ s' -> lang r w -> exists cs', k s' cs' = None.
Proof.
  induction r as [t| |p lo hi|a IHa b IHb|a IHa b IHb|a IHa|i a IHa];
    intros s cs k H w s' Hs L; inversion L; subst; simpl in H.
  - rewrite starts_with_app in H.
    rewrite skipn_app, skipn_all, Nat.sub_diag in H. simpl in H. eauto.
  - simpl in H. destruct (N.eqb c 10) eqn:E; [apply N.eqb_eq in E; contradiction|].
    eauto.
  - match goal with
    | Hall : Forall _ w, Hhi : forall h, hi = Some h -> _ |- _ =>
      pose proof (span_app p w s' Hall hi Hhi) as Hsp
    end.
    destruct (Nat.ltb (span p hi (w ++ s')) lo) eqn:E.
    + apply Nat.ltb_lt in E. lia.
    + pose proof (backoff_none _ _ _ H (List.length w)) as Hn.
      cbv beta in Hn.
      rewrite skipn_app, skipn_all, Nat.sub_diag in Hn. simpl in Hn.
      exists cs. apply Hn. lia.
  - rewrite <- app_assoc in H.
    edestruct IHa as [c1 H1']; [exact H | reflexivity | eassumption |].
    eapply IHb; [exact H1' | reflexivity | eassumption].
  - destruct (rmatch a (w ++ s') cs k) eqn:E; [discriminate|].
    eapply IHa; [exact E | reflexivity | eassumption].
  - destruct (rmatch a (w ++ s') cs k) eqn:E; [discriminate|].
    eapply IHb; [exact H | reflexivity | eassumption].
  - destruct (rmatch a (w ++ s') cs k) eqn:E; [discriminate|].
    eapply IHa; [exact E | reflexivity | eassumption].
  - simpl in H. destruct (rmatch a s' cs k) eqn:E; [discriminate|]. eauto.
  - edestruct IHa as [c1 H1']; [exact H | reflexivity | eassumption |].
    cbv beta in H1'. eauto.
Qed.

Lemma match_here_sound (r : regex) (s : text) (m : captures) :
  match_here r s = Some m -> exists w s', s = w ++ s' /\ lang r w.
Proof.
  intros H. apply rmatch_sound in H as (w & s' & new & -> & L & _).
  eauto.
Qed.

Lemma match_here_complete (r : regex) (w s' : text) :
  lang r w -> match_here r (w ++ s') <> None.
Proof.
  intros L H.
  destruct (rmatch_complete r _ _ _ H w s' eq_refl L) as [cs' Hcs].
  discriminate.
Qed.

(** [re.search] finds the leftmost position that has a match. *)
Lemma search_some (r : regex) (s : text) (m : captures) :
  search r s = Some m ->
  exists pre s0, s = pre ++ s0 /\ match_here r s0 = Some m.
Proof.
  induction s as [|c s IH]; simpl; intros H.
  - destruct (match_here r []) eqn:E; [|discriminate].
    exists [], []. split; [reflexivity | congruence].
  - destruct (match_here r (c :: s)) eqn:E.
    + exists [], (c :: s). split; [reflexivity | congruence].
    + destruct (IH H) as (pre & s0 & -> & Hm).
      exists (c :: pre), s0. split; [reflexivity | assumption].
Qed.

Lemma search_none (r : regex) (s : text) :
  search r s = None ->
  forall pre s0, s = pre ++ s0 -> match_here r s0 = None.
Proof.
  induction s as [|c s IH]; simpl; intros H pre s0 Hs.
  - destruct (match_here r []) eqn:E; [discriminate|].
    symmetry in Hs. apply app_eq_nil in Hs as [-> ->]. assumption.
  - destruct (match_here r (c :: s)) eqn:E; [discriminate|].
    destruct pre as [|c' pre]; simpl in Hs.
    + now subst s0.
    + injection Hs as -> ->. now apply (IH H pre).
Qed.

(** [re.search] fails exactly on the texts in which the expression does
    not occur. *)
Lemma search_none_iff (r : regex) (s : text) :
  search r s = None <-> ~ occurs r s.
Proof.
  split.
  - intros H (pre & w & post & -> & L).
    apply (match_here_complete r w post L).
    now apply (search_none r _ H pre).
  - intros Hno. destruct (search r s) as [m|] eqn:E; [|reflexivity].
    exfalso. apply Hno.
    apply search_some in E as (pre & s0 & -> & Hm).
    apply match_here_sound in Hm as (w & s' & -> & L).
    now exists pre, w, s'.
Qed.

Lemma search_some_occurs (r : regex) (s : text) (m : captures) :
  search r s = Some m -> occurs r s.
Proof.
  intros H. destruct (search r s) eqn:E; [|discriminate].
  assert (Hn : search r s <> None) by congruence.
  rewrite search_none_iff in Hn.
  destruct (search_some r s c E) as (pre & s0 & -> & Hm).
  apply match_here_sound in Hm as (w & s' & -> & L).
  now exists pre, w, s'.
Qed.

(** The match [re.search] returns starts at the leftmost position that
    has one. *)
Lemma search_leftmost (r : regex) (s : text) (m : captures) :
  search r s = Some m ->
  exists pre s0,
    s = pre ++ s0 /\ match_here r s0 = Some m
    /\ forall pre' s', s = pre' ++ s' ->
         (List.length pre' < List.length pre)%nat -> match_here r s' = None.
Proof.
  induction s as [|c s IH]; simpl; intros H.
  - destruct (match_here r []) eqn:E; [|discriminate].
    exists [], []. split; [reflexivity|]. split; [congruence|].
    intros pre' s' _ Hlt. simpl in Hlt. lia.
  - destruct (match_here r (c :: s)) eqn:E.
    + exists [], (c :: s). split; [reflexivity|]. split; [congruence|].
      intros pre' s' _ Hlt. simpl in Hlt. lia.
    + destruct (IH H) as (pre & s0 & -> & Hm & Hmin).
      exists (c :: pre), s0. split; [reflexivity|]. split; [assumption|].
      intros pre' s' Hs Hlt. destruct pre' as [|c' pre'].
      * simpl in Hs. now subst s'.
      * simpl in Hs. injection Hs as -> Hs. apply (Hmin pre' s' Hs).
        simpl in Hlt. lia.
Qed.

Lemma app_same_length {A : Type} (a a' b b' : list A) :
  List.length a = List.length a' -> a ++ b = a' ++ b' -> a = a' /\ b = b'.
Proof.
  revert a'. induction a as [|x a IH]; intros [|x' a'] Hl H;
    try discriminate.
  - now split.
  - simpl in H. injection H as -> H. injection Hl as Hl.
    destruct (IH a' Hl H) as [-> ->]. now split.
Qed.

(** A shape that the expression [r] matches wherever it is found, and
    that is found with one number only at a place, is found leftmost
    where [re.search] finds its match. *)
Lemma leftmost_intro (r : regex) (here : text -> text -> Prop)
  (pre s0 g : text) :
  (forall s g', here s g' -> exists w post, s = w ++ post /\ lang r w) ->
  (forall s g1 g2, here s g1 -> here s g2 -> g1 = g2) ->
  here s0 g ->
  (forall pre' s', pre ++ s0 = pre' ++ s' ->
     (List.length pre' < List.length pre)%nat -> match_here r s' = None) ->
  leftmost here (pre ++ s0) (List.length pre) g.
Proof.
  intros Hlang Huniq Hg Hmin. split; [|split].
  - now exists pre, s0.
  - intros n' g' (pre' & s' & Hs & Hn & Hh).
    destruct (Nat.le_gt_cases (List.length pre) n') as [Hle|Hlt];
      [assumption|].
    exfalso. subst n'.
    destruct (Hlang s' g' Hh) as (w & post & -> & L).
    apply (match_here_complete r w post L).
    now apply (Hmin pre').
  - intros g' (pre' & s' & Hs & Hn & Hh).
    symmetry in Hn.
    destruct (app_same_length pre pre' s0 s' Hn Hs) as [_ <-].
    now apply (Huniq s0).
Qed.

Lemma group_skip (ids : list nat) (new cs : captures) (i : nat) (g : text) :
  Forall (fun e => In (fst e) ids) new -> ~ In i ids ->
  group i (new ++ (i, g) :: cs) = Some g.
Proof.
  intros Hnew Hi. induction Hnew as [|[j t] new Hj _ IH]; simpl.
  - now rewrite Nat.eqb_refl.
  - destruct (Nat.eqb i j) eqn:E; [|exact IH].
    apply Nat.eqb_eq in E. subst j. contradiction.
Qed.

(** The expressions of the parser all start with group 1: what a match
    captures there, and what follows it. *)
Lemma match_here_group1 (a rest : regex) (s : text) (m : captures) :
  ~ In 1%nat (group_ids rest) ->
  match_here (RSeq (RGroup 1 a) rest) s = Some m ->
  exists g w2 s',
    s = g ++ w2 ++ s' /\ lang a g /\ lang rest w2 /\ group 1 m = Some g.
Proof.
  intros Hids H. unfold match_here in H. simpl in H.
  apply rmatch_sound in H as (g & s1 & n1 & -> & La & H & _).
  cbv beta in H. rewrite firstn_app_length in H.
  apply rmatch_sound in H as (w2 & s2 & n2 & -> & Lr & H & G2).
  injection H as <-.
  exists g, w2, s2. repeat split; auto.
  now apply (group_skip (group_ids rest)).
Qed.

(** *** Reading the captured numbers *)

Lemma span_all_digits (g rest : text) :
  Forall (fun c => is_digit c = true) g ->
  match rest with [] => True | c :: _ => is_digit c = false end ->
  span is_digit None (g ++ rest) = List.length g.
Proof.
  intros Hg Hrest. induction Hg as [|c g Hc _ IH]; cbn [span app List.length].
  - destruct rest as [|c rest]; [reflexivity|]. cbn [span]. now rewrite Hrest.
  - now rewrite Hc, IH.
Qed.

Lemma float_unsigned_digits (g : text) :
  Forall (fun c => is_digit c = true) g -> g <> [] ->
  float_unsigned g = Ok (of_Z (digits_val g)).
Proof.
  intros Hg Hne. unfold float_unsigned.
  pose proof (span_all_digits g [] Hg I) as Hsp. rewrite app_nil_r in Hsp.
  rewrite Hsp, firstn_all, skipn_all.
  destruct g; [contradiction | reflexivity].
Qed.

Lemma float_unsigned_decimal (ip fp : text) :
  Forall (fun c => is_digit c = true) ip -> ip <> [] ->
  Forall (fun c => is_digit c = true) fp ->
  float_unsigned (ip ++ 46%N :: fp)
  = Ok (fin (inject_Z (digits_val (ip ++ fp))
             / inject_Z (10 ^ Z.of_nat (List.length fp)))%Q).
Proof.
  intros Hip Hne Hfp. unfold float_unsigned.
  rewrite (span_all_digits ip (46%N :: fp) Hip eq_refl).
  rewrite firstn_app, firstn_all, Nat.sub_diag, skipn_app, skipn_all, Nat.sub_diag.
  simpl firstn. simpl skipn. rewrite app_nil_r. simpl app at 1.
  destruct ip as [|c ip]; [contradiction|].
  change (N.eqb 46 46) with true. simpl andb.
  assert (Hall : forallb is_digit fp = true).
  { apply forallb_forall. intros d Hd. rewrite Forall_forall in Hfp. auto. }
  now rewrite Hall.
Qed.

(** ** The density field of the text parser *)

Lemma bind_ok {A B : Type} (r : result A) (f : A -> result B) (b : B) :
  bind r f = Ok b -> exists a, r = Ok a /\ f a = Ok b.
Proof.
  destruct r as [a|e]; simpl; intros H; [eauto | discriminate].
Qed.

Lemma starts_with_prefix (a b s : text) :
  starts_with (a ++ b) s = true -> starts_with a s = true.
Proof.
  revert s. induction a as [|c a IH]; intros s H; [reflexivity|].
  destruct s as [|d s]; [discriminate|].
  simpl in *. apply andb_prop in H as [H1 H2].
  rewrite H1. simpl. now apply IH.
Qed.

Lemma contains_prefix (t a b : text) :
  contains t (a ++ b) = true -> contains t a = true.
Proof.
  induction t as [|c t IH]; simpl; intros H.
  - rewrite orb_false_r in *. now apply starts_with_prefix in H.
  - apply orb_prop in H as [H|H].
    + apply starts_with_prefix in H. now rewrite H.
    + rewrite (IH H). apply orb_true_r.
Qed.

Lemma not_pesad_not_pesado (t : text) :
  contains t (u "pesad") = false -> contains t (u "pesado") = false.
Proof.
  intros H. destruct (contains t (u "pesado")) eqn:E; [|reflexivity].
  change (u "pesado") with (u "pesad" ++ u "o") in E.
  apply contains_prefix in E. congruence.
Qed.

Lemma lang_rep_inv (p : N -> bool) (lo hi : nat) (g : text) :
  lang (RRep p lo (Some hi)) g ->
  Forall (fun c => p c = true) g /\ (lo <= List.length g <= hi)%nat.
Proof.
  intros L. inversion L; subst. split; [assumption|]. split; auto.
Qed.

Lemma lang_star_inv (p : N -> bool) (g : text) :
  lang (RRep p 0 None) g -> Forall (fun c => p c = true) g.
Proof. intros L. now inversion L. Qed.

Lemma lang_alt_lit_inv (a b w : text) :
  lang (RAlt (RLit a) (RLit b)) w -> w = a \/ w = b.
Proof.
  intros L. inversion L as [| | | |? ? ? L1|? ? ? L1| | |]; subst;
    inversion L1; auto.
Qed.

Lemma lang_unit_inv (i : nat) (a b w2 : text) :
  lang (RSeq (RRep is_space 0 None) (RGroup i (RAlt (RLit a) (RLit b)))) w2 ->
  exists ws unit, w2 = ws ++ unit /\ all_spaces ws /\ (unit = a \/ unit = b).
Proof.
  intros L. inversion L as [| | |? ? ws unit Ls Lu| | | | |]; subst.
  apply lang_star_inv in Ls.
  inversion Lu as [| | | | | | | |? ? ? La]; subst.
  apply lang_alt_lit_inv in La.
  now exists ws, unit.
Qed.

Lemma lang_decimal_inv (g : text) :
  lang (RSeq (RRep is_digit 1 (Some 4%nat))
             (ROpt (RGroup 2 (RSeq (RLit (u ".")) (RRep is_digit 1 None))))) g ->
  decimal_number g.
Proof.
  intros L. inversion L as [| | |? ? ip w Li Lo| | | | |]; subst.
  apply lang_rep_inv in Li as [Hd Hl].
  exists ip. repeat split; try tauto; try lia.
  inversion Lo as [| | | | | |? ? Lg| |]; subst.
  - right. inversion Lg as [| | | | | | | |? ? ? Ls]; subst.
    inversion Ls as [| | |? ? dot fp Ld Lf| | | | |]; subst.
    inversion Ld; subst. inversion Lf; subst.
    exists fp. repeat split; auto.
    intros ->. simpl in *. lia.
  - left. now rewrite app_nil_r.
Qed.

(** The number a decimal text denotes. *)
Lemma py_float_digits (g : text) :
  all_digits g -> g <> [] -> py_float g = Ok (of_Z (digits_val g)).
Proof.
  intros Hg Hne. destruct g as [|c g]; [contradiction|].
  assert (Hc : is_digit c = true) by now inversion Hg.
  unfold py_float.
  destruct (N.eq_dec c 45) as [->|Hn]; [discriminate|].
  rewrite <- (float_unsigned_digits (c :: g) Hg Hne).
  destruct c as [|p]; [reflexivity|].
  repeat (destruct p as [p|p|]; try reflexivity); contradiction.
Qed.

Lemma py_float_decimal (g : text) :
  decimal_number g -> exists x, py_float g = Ok x /\ isfinite x = true.
Proof.
  intros (ip & Hip & Hlen & Hg).
  assert (Hne : ip <> []) by (intros ->; simpl in Hlen; lia).
  destruct Hg as [->|(fp & Hfp & Hfne & ->)].
  - rewrite py_float_digits by assumption. eauto.
  - destruct ip as [|c ip]; [contradiction|].
    assert (Hc : is_digit c = true) by now inversion Hip.
    assert (Hpy : py_float ((c :: ip) ++ u "." ++ fp)
                  = float_unsigned ((c :: ip) ++ 46%N :: fp)).
    { unfold py_float. simpl app.
      destruct (N.eq_dec c 45) as [->|Hn]; [discriminate|].
      destruct c as [|p]; [reflexivity|].
      repeat (destruct p as [p|p|]; try reflexivity); contradiction. }
    rewrite Hpy, float_unsigned_decimal by assumption. eauto.
Qed.

(** *** Where a number ends, and where the shapes are found *)

Lemma decimal_in_some (zs : list N) (c d : N) :
  decimal_in zs c = Some d ->
  exists z, In z zs /\ c = (z + d)%N /\ (d <= 9)%N.
Proof.
  induction zs as [|z zs IH]; simpl; [discriminate|].
  destruct (N.ltb_spec c z); [discriminate|].
  destruct (N.leb_spec c (z + 9)).
  - intros [= <-]. exists z. split; [now left|]. lia.
  - intros H'. destruct (IH H') as (z' & Hz & Hc). exists z'. auto.
Qed.

(** A class of code points that holds none of the decimal digits, which
    is checked block by block. *)
Lemma digit_excludes (p : N -> bool) :
  forallb (fun z => forallb (fun i => negb (p (z + i)%N))
                            [0; 1; 2; 3; 4; 5; 6; 7; 8; 9]%N)
          decimal_zeros = true ->
  forall c, is_digit c = true -> p c = false.
Proof.
  intros Hall c Hc. unfold is_digit, decimal in Hc.
  destruct (decimal_in decimal_zeros c) as [d|] eqn:E; [|discriminate].
  apply decimal_in_some in E as (z & Hz & -> & Hd).
  rewrite forallb_forall in Hall. specialize (Hall z Hz).
  rewrite forallb_forall in Hall.
  assert (Hin : In d [0; 1; 2; 3; 4; 5; 6; 7; 8; 9]%N) by (simpl; lia).
  specialize (Hall d Hin). now destruct (p (z + d)%N).
Qed.

Lemma space_not_digit (c : N) : is_space c = true -> is_digit c = false.
Proof.
  intros Hs. destruct (is_digit c) eqn:E; [|reflexivity].
  apply (digit_excludes is_space) in E; [congruence|].
  vm_compute. reflexivity.
Qed.

(** A run of digits followed by a code point that is no digit is read in
    one way only. *)
Lemma digits_prefix_unique (g g' r r' : text) :
  all_digits g -> all_digits g' ->
  match r with [] => True | c :: _ => is_digit c = false end ->
  match r' with [] => True | c :: _ => is_digit c = false end ->
  g ++ r = g' ++ r' -> g = g' /\ r = r'.
Proof.
  intros Hg Hg' Hr Hr' E.
  pose proof (span_all_digits g r Hg Hr) as H1.
  pose proof (span_all_digits g' r' Hg' Hr') as H2.
  rewrite E in H1. apply app_same_length; [congruence | exact E].
Qed.

(** What follows a number in the shapes: white space, or the first code
    point of what comes after it. *)
Lemma after_number (ws rest : text) (c0 : N) :
  all_spaces ws -> (exists r0, rest = c0 :: r0) ->
  exists c r, ws ++ rest = c :: r /\ (is_space c = true \/ c = c0).
Proof.
  intros Hws [r0 ->]. destruct Hws as [|c ws Hc _]; simpl; eauto.
Qed.

Lemma lang_lit_alt (a b unit : text) :
  unit = a \/ unit = b -> lang (RAlt (RLit a) (RLit b)) unit.
Proof. intros [->| ->]; [apply LAltL | apply LAltR]; constructor. Qed.

Lemma kg_m3_here_lang (s g : text) :
  kg_m3_here s g -> exists w post, s = w ++ post /\ lang re_kg_m3 w.
Proof.
  intros (ws & unit & post & -> & Hd & Hl & Hws & Hunit).
  exists (g ++ ws ++ unit), post. split.
  - now rewrite <- !app_assoc.
  - unfold re_kg_m3. constructor.
    + constructor. constructor; [assumption | lia |]. intros h [= <-]. lia.
    + constructor.
      * constructor; [assumption | lia | discriminate].
      * constructor. now apply lang_lit_alt.
Qed.

Lemma kg_m3_here_unique (s g1 g2 : text) :
  kg_m3_here s g1 -> kg_m3_here s g2 -> g1 = g2.
Proof.
  intros (ws1 & unit1 & post1 & E1 & Hd1 & _ & Hws1 & Hu1)
         (ws2 & unit2 & post2 & E2 & Hd2 & _ & Hws2 & Hu2).
  assert (Hstop : forall ws unit post,
            all_spaces ws -> unit = u "kg/m3" \/ unit = u "kg/m³" ->
            match ws ++ unit ++ post with
            | [] => True
            | c :: _ => is_digit c = false
            end).
  { intros ws unit post Hws Hu.
    destruct (after_number ws (unit ++ post) 107 Hws) as (c & r & -> & Hc).
    { destruct Hu as [->| ->]; eexists; reflexivity. }
    destruct Hc as [Hc| ->]; [now apply space_not_digit | reflexivity]. }
  rewrite E1 in E2.
  now destruct (digits_prefix_unique g1 g2 _ _ Hd1 Hd2
                  (Hstop _ _ post1 Hws1 Hu1) (Hstop _ _ post2 Hws2 Hu2) E2).
Qed.

Lemma g_cm3_here_lang (s g : text) :
  g_cm3_here s g -> exists w post, s = w ++ post /\ lang re_g_cm3 w.
Proof.
  intros (ws & unit & post & -> & (ip & Hip & Hlen & Hg) & Hws & Hunit).
  exists (g ++ ws ++ unit), post. split.
  - now rewrite <- !app_assoc.
  - unfold re_g_cm3. constructor.
    + constructor.
      destruct Hg as [->|(fp & Hfp & Hfne & ->)].
      * rewrite <- (app_nil_r ip). constructor.
        -- constructor; [assumption | lia |]. intros h [= <-]. lia.
        -- apply LOptNone.
      * constructor.
        -- constructor; [assumption | lia |]. intros h [= <-]. lia.
        -- apply LOptSome. constructor. constructor; [constructor|].
           constructor; [assumption | | discriminate].
           destruct fp; [contradiction | simpl; lia].
    + constructor.
      * constructor; [assumption | lia | discriminate].
      * constructor. now apply lang_lit_alt.
Qed.

Lemma g_cm3_here_unique (s g1 g2 : text) :
  g_cm3_here s g1 -> g_cm3_here s g2 -> g1 = g2.
Proof.
  intros (ws1 & unit1 & post1 & E1 & (ip1 & Hip1 & _ & Hg1) & Hws1 & Hu1)
         (ws2 & unit2 & post2 & E2 & (ip2 & Hip2 & _ & Hg2) & Hws2 & Hu2).
  assert (Htail : forall ws unit post,
            all_spaces ws -> unit = u "g/cm3" \/ unit = u "g/cm³" ->
            exists c r, ws ++ unit ++ post = c :: r
                        /\ is_digit c = false /\ c <> 46%N).
  { intros ws unit post Hws Hu.
    destruct (after_number ws (unit ++ post) 103 Hws) as (c & r & E & Hc).
    { destruct Hu as [->| ->]; eexists; reflexivity. }
    exists c, r. split; [exact E|].
    destruct Hc as [Hc| ->].
    - split; [now apply space_not_digit|]. intros ->. discriminate.
    - split; [reflexivity | discriminate]. }
  destruct (Htail ws1 unit1 post1 Hws1 Hu1) as (c1 & r1 & T1 & Hc1 & Hn1).
  destruct (Htail ws2 unit2 post2 Hws2 Hu2) as (c2 & r2 & T2 & Hc2 & Hn2).
  rewrite E1, T1, T2 in E2. clear E1.
  destruct Hg1 as [->|(fp1 & Hfp1 & _ & ->)];
    destruct Hg2 as [->|(fp2 & Hfp2 & _ & ->)].
  - now destruct (digits_prefix_unique ip1 ip2 (c1 :: r1) (c2 :: r2)
                    Hip1 Hip2 Hc1 Hc2 E2).
  - rewrite <- !app_assoc in E2. change (u ".") with [46%N] in E2.
    cbn [app] in E2.
    destruct (digits_prefix_unique ip1 ip2 (c1 :: r1) (46%N :: fp2 ++ c2 :: r2)
                Hip1 Hip2 Hc1 eq_refl E2) as [_ E].
    injection E as E _. contradiction.
  - rewrite <- !app_assoc in E2. change (u ".") with [46%N] in E2.
    cbn [app] in E2.
    destruct (digits_prefix_unique ip1 ip2 (46%N :: fp1 ++ c1 :: r1) (c2 :: r2)
                Hip1 Hip2 eq_refl Hc2 E2) as [_ E].
    injection E as E _. symmetry in E. contradiction.
  - rewrite <- !app_assoc in E2. change (u ".") with [46%N] in E2.
    cbn [app] in E2.
    destruct (digits_prefix_unique ip1 ip2 (46%N :: fp1 ++ c1 :: r1)
                (46%N :: fp2 ++ c2 :: r2) Hip1 Hip2 eq_refl eq_refl E2)
      as [-> E].
    injection E as E.
    now destruct (digits_prefix_unique fp1 fp2 (c1 :: r1) (c2 :: r2)
                    Hfp1 Hfp2 Hc1 Hc2 E) as [-> _].
Qed.

(** The number the expression for kg/m3 captures: the one of the
    leftmost place of the shape. *)
Lemma search_kg_m3_leftmost (t : text) (m : captures) :
  search re_kg_m3 t = Some m ->
  exists n g, leftmost kg_m3_here t n g /\ group 1 m = Some g
              /\ group1_float m = Ok (of_Z (digits_val g)).
Proof.
  intros H. apply search_leftmost in H as (pre & s0 & -> & H & Hmin).
  unfold re_kg_m3 in H.
  apply match_here_group1 in H as (g & w2 & post & E & Lg & Lr & Hg).
  2:{ simpl. intros [E|[]]. discriminate. }
  apply lang_rep_inv in Lg as [Hd Hl].
  apply lang_unit_inv in Lr as (ws & unit & -> & Hws & Hunit).
  assert (Hhere : kg_m3_here s0 g).
  { exists ws, unit, post. rewrite E, <- app_assoc. auto. }
  exists (List.length pre), g. split; [|split; [assumption|]].
  - apply (leftmost_intro re_kg_m3);
      [exact kg_m3_here_lang | exact kg_m3_here_unique | exact Hhere
       | exact Hmin].
  - unfold group1_float. rewrite Hg. apply py_float_digits; [assumption|].
    intros ->. simpl in Hl. lia.
Qed.

Lemma search_kg_m3_value (t : text) (m : captures) :
  search re_kg_m3 t = Some m ->
  exists g, kg_m3_at t g /\ group 1 m = Some g
            /\ group1_float m = Ok (of_Z (digits_val g)).
Proof.
  intros H.
  destruct (search_kg_m3_leftmost t m H) as (n & g & (Hat & _) & Hg & Hv).
  exists g. split; [now exists n | auto].
Qed.

Lemma search_g_cm3_leftmost (t : text) (m : captures) :
  search re_g_cm3 t = Some m ->
  exists n g x, leftmost g_cm3_here t n g /\ group 1 m = Some g
                /\ py_float g = Ok x /\ group1_float m = Ok x.
Proof.
  intros H. apply search_leftmost in H as (pre & s0 & -> & H & Hmin).
  unfold re_g_cm3 in H.
  apply match_here_group1 in H as (g & w2 & post & E & Lg & Lr & Hg).
  2:{ simpl. intros [E|[]]. discriminate. }
  apply lang_decimal_inv in Lg.
  apply lang_unit_inv in Lr as (ws & unit & -> & Hws & Hunit).
  destruct (py_float_decimal g Lg) as (x & Hx & _).
  assert (Hhere : g_cm3_here s0 g).
  { exists ws, unit, post. rewrite E, <- app_assoc. auto. }
  exists (List.length pre), g, x.
  split; [|split; [assumption|split; [assumption|]]].
  - apply (leftmost_intro re_g_cm3);
      [exact g_cm3_here_lang | exact g_cm3_here_unique | exact Hhere
       | exact Hmin].
  - unfold group1_float. now rewrite Hg.
Qed.

Lemma search_g_cm3_value (t : text) (m : captures) :
  search re_g_cm3 t = Some m ->
  exists g x, g_cm3_at t g /\ group 1 m = Some g
              /\ py_float g = Ok x /\ group1_float m = Ok x.
Proof.
  intros H.
  destruct (search_g_cm3_leftmost t m H)
    as (n & g & x & (Hat & _) & Hg & Hx & Hv).
  exists g, x. split; [now exists n | auto].
Qed.

Lemma at_pos_occurs (r : regex) (here : text -> text -> Prop)
  (t : text) (n : nat) (g : text) :
  (forall s g', here s g' -> exists w post, s = w ++ post /\ lang r w) ->
  at_pos here t n g -> occurs r t.
Proof.
  intros Hlang (pre & s & -> & _ & Hh).
  destruct (Hlang s g Hh) as (w & post & -> & L).
  now exists pre, w, post.
Qed.

Lemma kg_m3_at_occurs (t g : text) : kg_m3_at t g -> occurs re_kg_m3 t.
Proof. intros [n H]. exact (at_pos_occurs _ _ t n g kg_m3_here_lang H). Qed.

Lemma g_cm3_at_occurs (t g : text) : g_cm3_at t g -> occurs re_g_cm3 t.
Proof. intros [n H]. exact (at_pos_occurs _ _ t n g g_cm3_here_lang H). Qed.

(** C8, as stated, fails on the code in two ways: a text with the stem
    "pesad" but none of the four keywords gets 7800 although it gives a
    density in kg/m3, and a number of one digit before "kg/m3" is not
    read. *)
Lemma C8_counterexample :
  (contains (u "chapa pesada de 500 kg/m3") (u "leve") = false
   /\ contains (u "chapa pesada de 500 kg/m3") (u "levíssimo") = false
   /\ contains (u "chapa pesada de 500 kg/m3") (u "pesado") = false
   /\ contains (u "chapa pesada de 500 kg/m3") (u "médio") = false
   /\ texto_para_vetor (u "chapa pesada de 500 kg/m3") None
      = Ok [of_Z 3; of_Z 7800; of_Z 50; of_Z 1; of_Z 0; of_Z 0; of_Z 300])
  /\ texto_para_vetor (u "5 kg/m3") None
     = Ok [of_Z 3; of_Z 2000; of_Z 50; of_Z 1; of_Z 0; of_Z 0; of_Z 300].
Proof. repeat split; vm_compute; reflexivity. Qed.

(** C8, amended: for every text whose lowercased form [t] contains none of
    "leve", "levíssimo", "pesad" and "médio", the density field of the
    vector that [texto_para_vetor] returns is:
    - when [t] has somewhere a number of 2 to 5 decimal digits followed by
      optional white space and "kg/m3" or "kg/m³": the number found at the
      leftmost such place, that is at the position [n] before which the
      shape is not found, [g] being the only number the shape is found
      with there;
    - otherwise, when [t] has somewhere a number of 1 to 4 digits with an
      optional fractional part followed by optional white space and
      "g/cm3" or "g/cm³": 1000 times the number at the leftmost such
      place;
    - otherwise the median of the reference table's density column, or
      2000 without a reference table. *)
Theorem C8_density_field (texto : text) (df : option DataFrame) (v : list flt) :
  contains (lower texto) (u "leve") = false ->
  contains (lower texto) (u "levíssimo") = false ->
  contains (lower texto) (u "pesad") = false ->
  contains (lower texto) (u "médio") = false ->
  texto_para_vetor texto df = Ok v ->
  ((exists g, kg_m3_at (lower texto) g) ->
   exists n g m, leftmost kg_m3_here (lower texto) n g
                 /\ search re_kg_m3 (lower texto) = Some m
                 /\ group 1 m = Some g
                 /\ nth_error v 1 = Some (of_Z (digits_val g)))
  /\ (~ (exists g, kg_m3_at (lower texto) g) ->
      (exists g, g_cm3_at (lower texto) g) ->
      exists n g m x, leftmost g_cm3_here (lower texto) n g
                      /\ search re_g_cm3 (lower texto) = Some m
                      /\ group 1 m = Some g
                      /\ py_float g = Ok x
                      /\ nth_error v 1 = Some (scale x (1000 # 1)%Q))
  /\ (~ (exists g, kg_m3_at (lower texto) g) ->
      ~ (exists g, g_cm3_at (lower texto) g) ->
      population_median df "densidade_kg_m3" (of_Z 2000)
      = Ok (nth 1%nat v NaN)).
Proof.
  intros Hleve Hlev Hpesad Hmedio Hv.
  pose proof (not_pesad_not_pesado _ Hpesad) as Hpesado.
  unfold texto_para_vetor in Hv. cbv zeta in Hv.
  apply bind_ok in Hv as (dens & Hdens & Hv).
  apply bind_ok in Hv as (tens & _ & Hv).
  apply bind_ok in Hv as (cond & _ & Hv).
  apply bind_ok in Hv as (temp & _ & Hv).
  injection Hv as <-. simpl nth_error. simpl nth.
  unfold vetor_dens in Hdens.
  rewrite Hleve, Hlev, Hpesado, Hpesad, Hmedio in Hdens. simpl in Hdens.
  destruct (search re_kg_m3 (lower texto)) as [m|] eqn:Ekg.
  - destruct (search_kg_m3_leftmost _ _ Ekg) as (n & g & Hleft & Hgrp & Hval).
    assert (Hex : exists g, kg_m3_at (lower texto) g).
    { exists g, n. exact (proj1 Hleft). }
    repeat split.
    + intros _. exists n, g, m. repeat split; try assumption;
        try apply Hleft. congruence.
    + intros Hno. contradiction.
    + intros Hno. contradiction.
  - assert (Hnokg : ~ exists g, kg_m3_at (lower texto) g).
    { intros [g Hg]. apply kg_m3_at_occurs in Hg.
      now apply search_none_iff in Ekg. }
    destruct (search re_g_cm3 (lower texto)) as [m|] eqn:Eg.
    + destruct (search_g_cm3_leftmost _ _ Eg)
        as (n & g & x & Hleft & Hgrp & Hpy & Hval).
      rewrite Hval in Hdens. simpl in Hdens. injection Hdens as <-.
      assert (Hex : exists g, g_cm3_at (lower texto) g).
      { exists g, n. exact (proj1 Hleft). }
      repeat split.
      * intros H. contradiction.
      * intros _ _. exists n, g, m, x. repeat split; try assumption;
          apply Hleft.
      * intros _ Hno. contradiction.
    + assert (Hnog : ~ exists g, g_cm3_at (lower texto) g).
      { intros [g Hg]. apply g_cm3_at_occurs in Hg.
        now apply search_none_iff in Eg. }
      repeat split.
      * intros H. contradiction.
      * intros _ H. contradiction.
      * intros _ _. assumption.
Qed.

Lemma C8_density_field_witness :
  (exists n g m,
     leftmost kg_m3_here (lower (u "Tubo de 1200 kg/m3")) n g
     /\ search re_kg_m3 (lower (u "Tubo de 1200 kg/m3")) = Some m
     /\ group 1 m = Some g
     /\ nth_error [of_Z 3; of_Z 1200; of_Z 50; of_Z 1; of_Z 0; of_Z 0;
                   of_Z 300] 1
        = Some (of_Z (digits_val g)))
  /\ (exists n g m x,
        leftmost g_cm3_here (lower (u "Liga de 2.5 g/cm3")) n g
        /\ search re_g_cm3 (lower (u "Liga de 2.5 g/cm3")) = Some m
        /\ group 1 m = Some g
        /\ py_float g = Ok x
        /\ nth_error [of_Z 3; of_Z 2500; of_Z 50; of_Z 1; of_Z 0; of_Z 0;
                      of_Z 300] 1
           = Some (scale x (1000 # 1)%Q))
  /\ population_median None "densidade_kg_m3" (of_Z 2000)
     = Ok (nth 1%nat [of_Z 3; of_Z 2000; of_Z 50; of_Z 1; of_Z 0; of_Z 0;
                      of_Z 300] NaN).
Proof.
  assert (Hnokg : forall t, search re_kg_m3 t = None ->
            ~ (exists g, kg_m3_at t g)).
  { intros t E [g Hg]. apply kg_m3_at_occurs in Hg.
    now apply search_none_iff in E. }
  assert (Hnog : forall t, search re_g_cm3 t = None ->
            ~ (exists g, g_cm3_at t g)).
  { intros t E [g Hg]. apply g_cm3_at_occurs in Hg.
    now apply search_none_iff in E. }
  split; [|split].
  - destruct (C8_density_field (u "Tubo de 1200 kg/m3") None
                [of_Z 3; of_Z 1200; of_Z 50; of_Z 1; of_Z 0; of_Z 0; of_Z 300])
      as (H1 & _ & _);
      [reflexivity | reflexivity | reflexivity | reflexivity
       | vm_compute; reflexivity |].
    apply H1.
    exists (u "1200"), 8%nat, (u "tubo de "), (u "1200 kg/m3").
    split; [reflexivity|]. split; [reflexivity|].
    exists (u " "), (u "kg/m3"), [].
    split; [reflexivity|].
    split; [repeat constructor|]. split; [simpl; lia|].
    split; [repeat constructor | now left].
  - destruct (C8_density_field (u "Liga de 2.5 g/cm3") None
                [of_Z 3; of_Z 2500; of_Z 50; of_Z 1; of_Z 0; of_Z 0; of_Z 300])
      as (_ & H2 & _);
      [reflexivity | reflexivity | reflexivity | reflexivity
       | vm_compute; reflexivity |].
    apply H2.
    + apply Hnokg. vm_compute. reflexivity.
    + exists (u "2.5"), 8%nat, (u "liga de "), (u "2.5 g/cm3").
      split; [reflexivity|]. split; [reflexivity|].
      exists (u " "), (u "g/cm3"), [].
      split; [reflexivity|]. split.
      * exists (u "2"). split; [repeat constructor|]. split; [simpl; lia|].
        right. exists (u "5").
        split; [repeat constructor|]. split; [discriminate | reflexivity].
      * split; [repeat constructor | now left].
  - destruct (C8_density_field (u "Liga comum") None
                [of_Z 3; of_Z 2000; of_Z 50; of_Z 1; of_Z 0; of_Z 0; of_Z 300])
      as (_ & _ & H3);
      [reflexivity | reflexivity | reflexivity | reflexivity
       | vm_compute; reflexivity |].
    apply H3.
    + apply Hnokg. vm_compute. reflexivity.
    + apply Hnog. vm_compute. reflexivity.
Defined.

(** *** The parser has no failure path of its own *)

Lemma search_mpa_ok (t : text) (m : captures) :
  search re_mpa t = Some m -> exists x, group1_float m = Ok x.
Proof.
  intros H. apply search_some in H as (pre & s0 & -> & H).
  unfold re_mpa in H.
  apply match_here_group1 in H as (g & w2 & post & -> & Lg & _ & Hg).
  2:{ simpl. intros [E|[]]. discriminate. }
  apply lang_rep_inv in Lg as [Hd Hl].
  unfold group1_float. rewrite Hg. rewrite py_float_digits; eauto.
  intros ->. simpl in Hl. lia.
Qed.

Lemma search_w_mk_ok (t : text) (m : captures) :
  search re_w_mk t = Some m -> exists x, group1_float m = Ok x.
Proof.
  intros H. apply search_some in H as (pre & s0 & -> & H).
  unfold re_w_mk in H.
  apply match_here_group1 in H as (g & w2 & post & -> & Lg & _ & Hg).
  2:{ simpl. intros [E|[]]. discriminate. }
  apply lang_decimal_inv in Lg.
  destruct (py_float_decimal g Lg) as (x & Hx & _).
  unfold group1_float. rewrite Hg. eauto.
Qed.

Lemma search_temp_ok (t : text) (m : captures) :
  search re_temp t = Some m -> exists x, group1_float m = Ok x.
Proof.
  intros H. apply search_some in H as (pre & s0 & -> & H).
  unfold re_temp in H.
  apply match_here_group1 in H as (g & w2 & post & -> & Lg & _ & Hg).
  2:{ simpl. tauto. }
  unfold group1_float. rewrite Hg.
  inversion Lg as [| | |? ? sign ds Ls Ld| | | | |]; subst.
  apply lang_rep_inv in Ls as [Hs Hsl].
  apply lang_rep_inv in Ld as [Hd Hdl].
  assert (Hne : ds <> []) by (intros ->; simpl in Hdl; lia).
  destruct sign as [|c sign].
  - simpl. rewrite py_float_digits; eauto.
  - destruct sign; [|simpl in Hsl; lia].
    assert (c = 45%N) as ->.
    { inversion Hs as [|? ? Hc _]. unfold is_char in Hc.
      now apply N.eqb_eq in Hc. }
    simpl. rewrite float_unsigned_digits by assumption. simpl. eauto.
Qed.

(** Without a reference table the parser returns a vector of seven fields
    for every text. *)
Lemma texto_para_vetor_total (texto : text) :
  exists v, texto_para_vetor texto None = Ok v /\ List.length v = 7%nat.
Proof.
  unfold texto_para_vetor. cbv zeta.
  assert (Hd : exists d, vetor_dens (lower texto) None = Ok d).
  { unfold vetor_dens.
    repeat match goal with |- context [if ?b then _ else _] => destruct b end;
      eauto.
    destruct (search re_kg_m3 (lower texto)) as [m|] eqn:E1.
    - destruct (search_kg_m3_value _ _ E1) as (g & _ & _ & ->). eauto.
    - destruct (search re_g_cm3 (lower texto)) as [m|] eqn:E2.
      + destruct (search_g_cm3_value _ _ E2) as (g & x & _ & _ & _ & ->).
        simpl. eauto.
      + simpl. eauto. }
  assert (Ht : exists d, vetor_tens (lower texto) None = Ok d).
  { unfold vetor_tens.
    repeat match goal with |- context [if ?b then _ else _] => destruct b end;
      eauto.
    destruct (search re_mpa (lower texto)) as [m|] eqn:E1.
    - destruct (search_mpa_ok _ _ E1) as [x ->]. eauto.
    - simpl. eauto. }
  assert (Hc : exists d, vetor_cond (lower texto) None = Ok d).
  { unfold vetor_cond.
    repeat match goal with |- context [if ?b then _ else _] => destruct b end;
      eauto.
    destruct (search re_w_mk (lower texto)) as [m|] eqn:E1.
    - destruct (search_w_mk_ok _ _ E1) as [x ->]. eauto.
    - simpl. eauto. }
  assert (Hp : exists d, vetor_temp (lower texto) None = Ok d).
  { unfold vetor_temp.
    destruct (search re_temp (lower texto)) as [m|] eqn:E1.
    - destruct (search_temp_ok _ _ E1) as [x ->]. eauto.
    - repeat match goal with |- context [if ?b then _ else _] => destruct b end;
        simpl; eauto. }
  destruct Hd as [d ->], Ht as [t' ->], Hc as [c ->], Hp as [p ->].
  simpl. eauto.
Qed.

(** ** The normaliser, column by column *)

Lemma lookup_assign (c c' : string) (s : Series) (cols : list (string * Series)) :
  lookup c' (assign c s cols) = if String.eqb c' c then Some s else lookup c' cols.
Proof.
  induction cols as [|[n s0] cols IH]; simpl.
  - reflexivity.
  - destruct (String.eqb c n) eqn:E; simpl.
    + apply String.eqb_eq in E. subst n.
      destruct (String.eqb c' c); reflexivity.
    + destruct (String.eqb c' n) eqn:E'.
      * apply String.eqb_eq in E'. subst n.
        rewrite String.eqb_sym in E. now rewrite E.
      * exact IH.
Qed.

Lemma get_set_col (df : DataFrame) (c c' : string) (s : Series) :
  get (set_col df c s) c' = if String.eqb c' c then Some s else get df c'.
Proof. apply lookup_assign. Qed.

Lemma get_set_col_same (df : DataFrame) (c : string) (s : Series) :
  get (set_col df c s) c = Some s.
Proof. rewrite get_set_col. now rewrite String.eqb_refl. Qed.

Lemma get_set_col_other (df : DataFrame) (c c' : string) (s : Series) :
  c' <> c -> get (set_col df c s) c' = get df c'.
Proof.
  intros H. rewrite get_set_col.
  destruct (String.eqb c' c) eqn:E; [|reflexivity].
  apply String.eqb_eq in E. contradiction.
Qed.

Lemma assign_same (c : string) (s : Series) (cols : list (string * Series)) :
  lookup c cols = Some s -> assign c s cols = cols.
Proof.
  induction cols as [|[n s0] cols IH]; simpl; [discriminate|].
  destruct (String.eqb c n) eqn:E.
  - intros [= ->]. reflexivity.
  - intros H. now rewrite IH.
Qed.

Lemma set_col_same (df : DataFrame) (c : string) (s : Series) :
  get df c = Some s -> set_col df c s = df.
Proof.
  intros H. destruct df as [n cols]. unfold set_col. simpl.
  unfold get in H. simpl in H. now rewrite assign_same.
Qed.

Lemma has_col_get (df : DataFrame) (c : string) :
  has_col df c = match get df c with Some _ => true | None => false end.
Proof. reflexivity. Qed.

Lemma frame_refl (l : list string) (a : DataFrame) : frame l a a.
Proof. split; auto. Qed.

Lemma frame_set_col (a : DataFrame) (c : string) (s : Series) :
  frame [c] a (set_col a c s).
Proof.
  split; [reflexivity|]. intros c' H. apply get_set_col_other.
  intros ->. apply H. now left.
Qed.

Lemma frame_trans (l1 l2 : list string) (a b c : DataFrame) :
  frame l1 a b -> frame l2 b c -> frame (l1 ++ l2) a c.
Proof.
  intros [N1 G1] [N2 G2]. split; [congruence|].
  intros x Hx. rewrite G2, G1; auto; intros H; apply Hx, in_or_app; auto.
Qed.

Lemma frame_weaken (l l' : list string) (a b : DataFrame) :
  incl l l' -> frame l a b -> frame l' a b.
Proof.
  intros Hi [N G]. split; [assumption|]. intros c Hc. apply G. auto.
Qed.

Section NormalizerSteps.

Variable parse_numeric : text -> flt.

(** *** The aliasing steps *)

Lemma alias_custo_frame (out out' : DataFrame) :
  alias_custo out = Ok out' -> frame ["custo_index"] out out'.
Proof.
  unfold alias_custo. intros H.
  destruct (negb (has_col out "custo_index") && has_col out "custo").
  - destruct (_map_col_if_exists out "custo" _MAP_CUSTO) as [[s|]|e];
      simpl in H; try discriminate; injection H as <-; apply frame_set_col.
  - injection H as <-. apply frame_refl.
Qed.

Lemma alias_custo_raw (out : DataFrame) :
  alias_custo out
  = (r <- custo_index_raw out ;;
     Ok (match get out "custo_index", r with
         | None, Some s => set_col out "custo_index" s
         | _, _ => out
         end)).
Proof.
  unfold alias_custo, custo_index_raw, has_col.
  destruct (get out "custo_index") as [s|] eqn:E1; simpl; [reflexivity|].
  destruct (get out "custo") as [s|] eqn:E2; simpl; [|reflexivity].
  unfold _map_col_if_exists. rewrite E2.
  destruct s as [l|l|l|l]; simpl; try reflexivity.
  destruct (mapM (strip_lower_get _MAP_CUSTO) l); reflexivity.
Qed.

Lemma alias_custo_target (out out' : DataFrame) :
  alias_custo out = Ok out' ->
  custo_index_raw out = Ok (get out' "custo_index").
Proof.
  rewrite alias_custo_raw. intros H.
  destruct (custo_index_raw out) as [r|e] eqn:E; simpl in H; [|discriminate].
  injection H as <-.
  unfold custo_index_raw in E.
  destruct (get out "custo_index") as [s|] eqn:E1.
  - injection E as <-. now rewrite E1.
  - destruct r as [s|]; [now rewrite get_set_col_same | now rewrite E1].
Qed.

Lemma alias_str_int_frame (target source : string) (d : dict Z) (out : DataFrame) :
  frame [target] out (alias_str_int target source d out).
Proof.
  unfold alias_str_int.
  destruct (negb (has_col out target)); [|apply frame_refl].
  destruct (get out source); [apply frame_set_col | apply frame_refl].
Qed.

Lemma alias_str_int_target (target source : string) (d : dict Z) (out : DataFrame) :
  get (alias_str_int target source d out) target
  = aliased (get out target) (option_map (map_str_int d) (get out source)).
Proof.
  unfold alias_str_int, has_col.
  destruct (get out target) as [s|] eqn:E; simpl; [assumption|].
  destruct (get out source) as [s|]; simpl;
    [apply get_set_col_same | assumption].
Qed.

Lemma alias_str_float_frame (target source : string) (d : dict Q) (out : DataFrame) :
  frame [target] out (alias_str_float target source d out).
Proof.
  unfold alias_str_float.
  destruct (negb (has_col out target)); [|apply frame_refl].
  destruct (get out source); [apply frame_set_col | apply frame_refl].
Qed.

Lemma alias_str_float_target (target source : string) (d : dict Q) (out : DataFrame) :
  get (alias_str_float target source d out) target
  = aliased (get out target) (option_map (map_str_float d) (get out source)).
Proof.
  unfold alias_str_float, has_col.
  destruct (get out target) as [s|] eqn:E; simpl; [assumption|].
  destruct (get out source) as [s|]; simpl;
    [apply get_set_col_same | assumption].
Qed.

Lemma map_simnao_frame (c : string) (out : DataFrame) :
  frame [c] out (map_simnao c out).
Proof.
  unfold map_simnao.
  destruct (get out c); [apply frame_set_col | apply frame_refl].
Qed.

Lemma map_simnao_target (c : string) (out : DataFrame) :
  get (map_simnao c out) c = simnao out c.
Proof.
  unfold map_simnao, simnao.
  destruct (get out c) as [s|] eqn:E; simpl;
    [apply get_set_col_same | assumption].
Qed.

Lemma alias_temp_frame (out : DataFrame) :
  frame ["melting_point_C"] out (alias_temp out).
Proof.
  unfold alias_temp.
  destruct (negb (has_col out "melting_point_C")); [|apply frame_refl].
  destruct (get out "temperatura_max"); [apply frame_set_col | apply frame_refl].
Qed.

Lemma alias_temp_target (out : DataFrame) :
  get (alias_temp out) "melting_point_C"
  = aliased (get out "melting_point_C") (get out "temperatura_max").
Proof.
  unfold alias_temp, has_col.
  destruct (get out "melting_point_C") as [s|] eqn:E; simpl; [assumption|].
  destruct (get out "temperatura_max") as [s|]; simpl;
    [apply get_set_col_same | assumption].
Qed.


Lemma frame_get (l : list string) (a b : DataFrame) (c : string) :
  frame l a b -> existsb (String.eqb c) l = false -> get b c = get a c.
Proof.
  intros [_ G] H. apply G. intros Hin.
  assert (existsb (String.eqb c) l = true); [|congruence].
  apply existsb_exists. exists c. split; [assumption | apply String.eqb_refl].
Qed.

(** *** Synthesis of the missing columns *)

Lemma add_missing_get (out : DataFrame) (f c : string) :
  get (add_missing out f) c
  = if String.eqb c f then Some (synth out c) else get out c.
Proof.
  unfold add_missing, has_col, synth.
  destruct (String.eqb c f) eqn:E.
  - apply String.eqb_eq in E. subst c.
    destruct (get out f) eqn:E'; [assumption | apply get_set_col_same].
  - destruct (get out f); [reflexivity|].
    rewrite get_set_col. now rewrite E.
Qed.

Lemma add_missing_nrows (out : DataFrame) (f : string) :
  nrows (add_missing out f) = nrows out.
Proof. unfold add_missing. now destruct (has_col out f). Qed.

Lemma fold_add_missing (fs : list string) :
  forall out,
    nrows (fold_left add_missing fs out) = nrows out
    /\ forall c, get (fold_left add_missing fs out) c
                 = if existsb (String.eqb c) fs then Some (synth out c)
                   else get out c.
Proof.
  induction fs as [|f fs IH]; intros out; simpl; [auto|].
  destruct (IH (add_missing out f)) as [N G].
  split; [now rewrite N, add_missing_nrows|].
  intros c. rewrite G. unfold synth.
  rewrite add_missing_nrows, add_missing_get.
  destruct (String.eqb c f) eqn:E; simpl; [|reflexivity].
  now destruct (existsb (String.eqb c) fs).
Qed.

(** *** The loops over the features *)

Lemma existsb_eqb_in (c : string) (fs : list string) :
  existsb (String.eqb c) fs = true <-> In c fs.
Proof.
  rewrite existsb_exists. split.
  - intros (x & Hx & E). apply String.eqb_eq in E. now subst.
  - intros H. exists c. split; [assumption | apply String.eqb_refl].
Qed.

Lemma existsb_eqb_not_in (c : string) (fs : list string) :
  ~ In c fs -> existsb (String.eqb c) fs = false.
Proof.
  intros H. destruct (existsb (String.eqb c) fs) eqn:E; [|reflexivity].
  apply existsb_eqb_in in E. contradiction.
Qed.

Lemma foldM_coerce (fs : list string) :
  NoDup fs ->
  forall out,
    (forall f, In f fs -> get out f <> None) ->
    exists out',
      foldM (coerce_feature parse_numeric) out fs = Ok out'
      /\ nrows out' = nrows out
      /\ forall c, get out' c
                   = if existsb (String.eqb c) fs
                     then option_map (to_numeric parse_numeric) (get out c)
                     else get out c.
Proof.
  induction 1 as [|f fs Hnin Hnd IH]; intros out Hall; simpl.
  - exists out. auto.
  - unfold coerce_feature at 1.
    destruct (get out f) as [s|] eqn:E.
    2:{ exfalso. apply (Hall f); [now left | assumption]. }
    simpl.
    destruct (IH (set_col out f (to_numeric parse_numeric s))) as (out' & H1 & H2 & H3).
    { intros g Hg. rewrite get_set_col.
      destruct (String.eqb g f); [discriminate | apply Hall; now right]. }
    exists out'. split; [assumption|]. split; [assumption|].
    intros c. rewrite H3, get_set_col.
    destruct (String.eqb c f) eqn:Ecf; simpl.
    + apply String.eqb_eq in Ecf. subst c.
      rewrite (existsb_eqb_not_in _ _ Hnin). now rewrite E.
    + reflexivity.
Qed.

Lemma to_numeric_not_obj (s : Series) : is_obj (to_numeric parse_numeric s) = false.
Proof. now destruct s. Qed.

Lemma series_median_floats (s : Series) :
  is_obj s = false -> series_median s = Ok (median (floats s)).
Proof. destruct s; simpl; intros H; [reflexivity..|discriminate]. Qed.

Lemma fill_feature_step (out : DataFrame) (f : string) (s : Series) (d : Z) :
  get out f = Some s -> is_obj s = false -> defaults_get defaults f = Ok d ->
  fill_feature out f = Ok (set_col out f (fill_col d s)).
Proof.
  intros Hs Hobj Hd. unfold fill_feature, fill_col. rewrite Hs.
  destruct (has_na s).
  - rewrite series_median_floats by assumption. cbn [bind].
    destruct (isnan (median (floats s))); [now rewrite Hd | reflexivity].
  - now rewrite set_col_same.
Qed.

Lemma fill_col_not_obj (d : Z) (s : Series) :
  is_obj s = false -> is_obj (fill_col d s) = false.
Proof.
  unfold fill_col. intros H.
  destruct (has_na s); [|assumption].
  destruct (isnan (median (floats s))); now destruct s.
Qed.

Lemma foldM_fill (fs : list string) :
  NoDup fs ->
  forall out,
    (forall f, In f fs ->
       exists s d, get out f = Some s /\ is_obj s = false
                   /\ defaults_get defaults f = Ok d) ->
    exists out',
      foldM fill_feature out fs = Ok out'
      /\ nrows out' = nrows out
      /\ forall c, get out' c
                   = if existsb (String.eqb c) fs then filled out c
                     else get out c.
Proof.
  induction 1 as [|f fs Hnin Hnd IH]; intros out Hall; simpl.
  - exists out. auto.
  - destruct (Hall f (or_introl eq_refl)) as (s & d & Hs & Hobj & Hd).
    rewrite (fill_feature_step out f s d Hs Hobj Hd). simpl.
    destruct (IH (set_col out f (fill_col d s))) as (out' & H1 & H2 & H3).
    { intros g Hg. destruct (Hall g (or_intror Hg)) as (s' & d' & Hs' & Ho' & Hd').
      exists s', d'. rewrite get_set_col_other; [auto|].
      intros ->. contradiction. }
    exists out'. split; [assumption|]. split; [assumption|].
    intros c. rewrite H3. unfold filled. rewrite get_set_col.
    destruct (String.eqb c f) eqn:Ecf; cbn [orb].
    + apply String.eqb_eq in Ecf. subst c.
      rewrite (existsb_eqb_not_in _ _ Hnin). now rewrite Hs, Hd.
    + reflexivity.
Qed.

Lemma select_cols_map (cols : list (string * Series)) (g : string -> Series)
  (names : list string) :
  (forall n, In n names -> lookup n cols = Some (g n)) ->
  select_cols cols names = Ok (map (fun n => (n, g n)) names).
Proof.
  induction names as [|n names IH]; intros H; simpl; [reflexivity|].
  rewrite (H n (or_introl eq_refl)).
  rewrite IH; [reflexivity|]. intros m Hm. apply H. now right.
Qed.

Lemma features_nodup : NoDup features.
Proof.
  unfold features.
  repeat (constructor; [simpl; intuition discriminate|]). constructor.
Qed.

Lemma defaults_features (f : string) :
  In f features -> exists d, defaults_get defaults f = Ok d.
Proof.
  unfold features. simpl.
  intros [<-|[<-|[<-|[<-|[<-|[<-|[<-|[]]]]]]]]; simpl; eauto.
Qed.

End NormalizerSteps.

Section NormalizerPipeline.

Variable parse_numeric : text -> flt.

(** The second half of the pipeline: synthesis, coercion, imputation. *)
Lemma finish_pipeline (out7 : DataFrame) :
  exists out10,
    (out9 <- foldM (coerce_feature parse_numeric)
                   (fold_left add_missing features out7) features ;;
     foldM fill_feature out9 features) = Ok out10
    /\ nrows out10 = nrows out7
    /\ (forall f d, In f features -> defaults_get defaults f = Ok d ->
          get out10 f
          = Some (normalized_column parse_numeric d (nrows out7) (get out7 f)))
    /\ (forall c, ~ In c features -> get out10 c = get out7 c).
Proof.
  destruct (fold_add_missing features out7) as [N8 G8].
  destruct (foldM_coerce parse_numeric features features_nodup
              (fold_left add_missing features out7)) as (out9 & H9 & N9 & G9).
  { intros f Hf. rewrite G8. apply existsb_eqb_in in Hf. now rewrite Hf. }
  destruct (foldM_fill features features_nodup out9) as (out10 & H10 & N10 & G10).
  { intros f Hf. destruct (defaults_features f Hf) as [d Hd].
    pose proof Hf as Hb. apply existsb_eqb_in in Hb.
    exists (to_numeric parse_numeric (synth out7 f)), d.
    rewrite G9, Hb, G8, Hb. simpl option_map.
    auto using to_numeric_not_obj. }
  exists out10. rewrite H9. cbn [bind]. split; [assumption|].
  split; [congruence|]. split.
  - intros f d Hf Hd. pose proof Hf as Hb. apply existsb_eqb_in in Hb.
    rewrite G10, Hb. unfold filled. rewrite G9, Hb, G8, Hb, Hd.
    reflexivity.
  - intros c Hc. apply existsb_eqb_not_in in Hc.
    now rewrite G10, Hc, G9, Hc, G8, Hc.
Qed.

Lemma alias_rest_gets (out1 : DataFrame) :
  nrows (alias_rest out1) = nrows out1
  /\ get (alias_rest out1) "custo_index" = get out1 "custo_index"
  /\ get (alias_rest out1) "densidade_kg_m3"
     = aliased (get out1 "densidade_kg_m3")
               (option_map (map_str_int dens_map) (get out1 "peso"))
  /\ get (alias_rest out1) "tensile_strength_MPa"
     = aliased (get out1 "tensile_strength_MPa")
               (option_map (map_str_float res_map) (get out1 "resistencia"))
  /\ get (alias_rest out1) "thermal_conductivity_W_mK"
     = aliased (get out1 "thermal_conductivity_W_mK")
               (option_map (map_str_float cond_map) (get out1 "condutividade"))
  /\ get (alias_rest out1) "reciclavel" = simnao out1 "reciclavel"
  /\ get (alias_rest out1) "biodegradavel" = simnao out1 "biodegradavel"
  /\ get (alias_rest out1) "melting_point_C"
     = aliased (get out1 "melting_point_C") (get out1 "temperatura_max")
  /\ (forall c, ~ In c features -> get (alias_rest out1) c = get out1 c).
Proof.
  unfold alias_rest.
  set (out2 := alias_str_int "densidade_kg_m3" "peso" dens_map out1).
  set (out3 := alias_str_float "tensile_strength_MPa" "resistencia" res_map out2).
  set (out4 := alias_str_float "thermal_conductivity_W_mK" "condutividade"
                 cond_map out3).
  set (out5 := map_simnao "reciclavel" out4).
  set (out6 := map_simnao "biodegradavel" out5).
  set (out7 := alias_temp out6).
  pose proof (alias_str_int_frame "densidade_kg_m3" "peso" dens_map out1) as F2.
  pose proof (alias_str_float_frame "tensile_strength_MPa" "resistencia"
                res_map out2) as F3.
  pose proof (alias_str_float_frame "thermal_conductivity_W_mK" "condutividade"
                cond_map out3) as F4.
  pose proof (map_simnao_frame "reciclavel" out4) as F5.
  pose proof (map_simnao_frame "biodegradavel" out5) as F6.
  pose proof (alias_temp_frame out6) as F7.
  fold out2 in F2. fold out3 in F3. fold out4 in F4. fold out5 in F5.
  fold out6 in F6. fold out7 in F7.
  assert (P2 : forall c, existsb (String.eqb c) ["densidade_kg_m3"] = false ->
                 get out2 c = get out1 c) by (intros; now apply (frame_get _ _ _ _ F2)).
  assert (P3 : forall c, existsb (String.eqb c) ["tensile_strength_MPa"] = false ->
                 get out3 c = get out2 c) by (intros; now apply (frame_get _ _ _ _ F3)).
  assert (P4 : forall c, existsb (String.eqb c) ["thermal_conductivity_W_mK"] = false ->
                 get out4 c = get out3 c) by (intros; now apply (frame_get _ _ _ _ F4)).
  assert (P5 : forall c, existsb (String.eqb c) ["reciclavel"] = false ->
                 get out5 c = get out4 c) by (intros; now apply (frame_get _ _ _ _ F5)).
  assert (P6 : forall c, existsb (String.eqb c) ["biodegradavel"] = false ->
                 get out6 c = get out5 c) by (intros; now apply (frame_get _ _ _ _ F6)).
  assert (P7 : forall c, existsb (String.eqb c) ["melting_point_C"] = false ->
                 get out7 c = get out6 c) by (intros; now apply (frame_get _ _ _ _ F7)).
  repeat split.
  - destruct F2, F3, F4, F5, F6, F7. congruence.
  - rewrite P7, P6, P5, P4, P3, P2 by reflexivity. reflexivity.
  - rewrite P7, P6, P5, P4, P3 by reflexivity.
    apply alias_str_int_target.
  - rewrite P7, P6, P5, P4 by reflexivity.
    unfold out3. rewrite alias_str_float_target.
    now rewrite !P2 by reflexivity.
  - rewrite P7, P6, P5 by reflexivity.
    unfold out4. rewrite alias_str_float_target.
    now rewrite !P3, !P2 by reflexivity.
  - rewrite P7, P6 by reflexivity.
    unfold out5. rewrite map_simnao_target. unfold simnao.
    now rewrite P4, P3, P2 by reflexivity.
  - rewrite P7 by reflexivity.
    unfold out6. rewrite map_simnao_target. unfold simnao.
    now rewrite P5, P4, P3, P2 by reflexivity.
  - unfold out7. rewrite alias_temp_target.
    now rewrite !P6, !P5, !P4, !P3, !P2 by reflexivity.
  - intros c Hc.
    assert (Hf : forall f, In f features -> existsb (String.eqb c) [f] = false).
    { intros f Hf. simpl. rewrite orb_false_r.
      destruct (String.eqb c f) eqn:E; [|reflexivity].
      apply String.eqb_eq in E. subst c. contradiction. }
    rewrite P7, P6, P5, P4, P3, P2; try reflexivity; apply Hf;
      unfold features; simpl; tauto.
Qed.

Lemma mapear_valores_unfold (df : DataFrame) :
  mapear_valores parse_numeric df
  = (out1 <- alias_custo df ;;
     out10 <- (out9 <- foldM (coerce_feature parse_numeric)
                         (fold_left add_missing features (alias_rest out1))
                         features ;;
               foldM fill_feature out9 features) ;;
     select out10 (filter (has_col out10) ["id"; "nome_material"] ++ features)).
Proof.
  unfold mapear_valores, alias_rest.
  destruct (alias_custo df) as [out1|e]; cbn [bind]; [|reflexivity].
  destruct (foldM (coerce_feature parse_numeric) _ features); reflexivity.
Qed.

(** The pipeline of the source computes the table column by column. *)
Theorem mapear_valores_by_column (df : DataFrame) :
  mapear_valores parse_numeric df = mapear_valores_por_coluna parse_numeric df.
Proof.
  rewrite mapear_valores_unfold. unfold mapear_valores_por_coluna.
  rewrite alias_custo_raw.
  destruct (custo_index_raw df) as [r|e] eqn:Er; cbn [bind]; [|reflexivity].
  set (out1 := match get df "custo_index", r with
               | None, Some s => set_col df "custo_index" s
               | _, _ => df
               end).
  assert (Ha : alias_custo df = Ok out1) by (now rewrite alias_custo_raw, Er).
  destruct (alias_custo_frame _ _ Ha) as [N1 F1].
  pose proof (alias_custo_target _ _ Ha) as T1.
  rewrite Er in T1. injection T1 as T1.
  destruct (alias_rest_gets out1) as (N7 & G0 & G1 & G2 & G3 & G4 & G5 & G6 & Go7).
  destruct (finish_pipeline (alias_rest out1)) as (out10 & H10 & N10 & Gf & Go).
  rewrite H10. cbn [bind].
  assert (P1 : forall c, c <> "custo_index" -> get out1 c = get df c).
  { intros c Hc. apply F1. simpl. intros [E|[]]. congruence. }
  assert (Hid : get out10 "id" = get df "id").
  { rewrite Go, Go7, P1; try reflexivity; try discriminate;
      unfold features; simpl; intuition discriminate. }
  assert (Hnm : get out10 "nome_material" = get df "nome_material").
  { rewrite Go, Go7, P1; try reflexivity; try discriminate;
      unfold features; simpl; intuition discriminate. }
  assert (Hn : nrows out10 = nrows df) by congruence.
  pose proof (Gf "custo_index" 3%Z) as C0.
  pose proof (Gf "densidade_kg_m3" 2000%Z) as C1.
  pose proof (Gf "tensile_strength_MPa" 50%Z) as C2.
  pose proof (Gf "thermal_conductivity_W_mK" 1%Z) as C3.
  pose proof (Gf "reciclavel" 1%Z) as C4.
  pose proof (Gf "biodegradavel" 0%Z) as C5.
  pose proof (Gf "melting_point_C" 300%Z) as C6.
  rewrite G0, <- T1, N7, N1 in C0.
  rewrite G1, N7, N1, !P1 in C1 by discriminate.
  rewrite G2, N7, N1, !P1 in C2 by discriminate.
  rewrite G3, N7, N1, !P1 in C3 by discriminate.
  rewrite G4, N7, N1 in C4. unfold simnao in C4. rewrite P1 in C4 by discriminate.
  rewrite G5, N7, N1 in C5. unfold simnao in C5. rewrite P1 in C5 by discriminate.
  rewrite G6, N7, N1, !P1 in C6 by discriminate.
  specialize (C0 ltac:(unfold features; simpl; tauto) eq_refl).
  specialize (C1 ltac:(unfold features; simpl; tauto) eq_refl).
  specialize (C2 ltac:(unfold features; simpl; tauto) eq_refl).
  specialize (C3 ltac:(unfold features; simpl; tauto) eq_refl).
  specialize (C4 ltac:(unfold features; simpl; tauto) eq_refl).
  specialize (C5 ltac:(unfold features; simpl; tauto) eq_refl).
  specialize (C6 ltac:(unfold features; simpl; tauto) eq_refl).
  unfold select, id_columns, simnao, features. cbn [filter flat_map].
  unfold has_col. rewrite Hid, Hnm, Hn.
  destruct (get df "id") as [sid|] eqn:Eid;
    destruct (get df "nome_material") as [snm|] eqn:Enm;
    cbn [app select_cols];
    unfold get in Hid, Hnm, C0, C1, C2, C3, C4, C5, C6;
    rewrite ?Hid, ?Hnm, C0, C1, C2, C3, C4, C5, C6; reflexivity.
Qed.

End NormalizerPipeline.

(** ** Consequences for the normalised table *)

Lemma lookup_in (c : string) (s : Series) (cols : list (string * Series)) :
  lookup c cols = Some s -> In (c, s) cols.
Proof.
  induction cols as [|[n s0] cols IH]; simpl; [discriminate|].
  destruct (String.eqb c n) eqn:E.
  - apply String.eqb_eq in E. intros [= ->]. left. now subst.
  - intros H. right. now apply IH.
Qed.

Lemma wf_get (df : DataFrame) (c : string) (s : Series) :
  wf df -> get df c = Some s -> series_len s = nrows df.
Proof.
  intros Hwf H. apply lookup_in in H.
  unfold wf in Hwf. rewrite Forall_forall in Hwf. exact (Hwf _ H).
Qed.

Lemma mapM_length {A B : Type} (f : A -> result B) (l : list A) (r : list B) :
  mapM f l = Ok r -> List.length r = List.length l.
Proof.
  revert r. induction l as [|a l IH]; simpl; intros r H.
  - now injection H as <-.
  - destruct (f a); [|discriminate]. simpl in H.
    destruct (mapM f l) as [bs|]; [|discriminate]. simpl in H.
    injection H as <-. simpl. f_equal. now apply IH.
Qed.

Lemma series_len_cells (s : Series) : List.length (cells s) = series_len s.
Proof. destruct s; simpl; now rewrite ?length_map. Qed.

Lemma series_len_infer_int (l : list (option Z)) :
  series_len (infer_int l) = List.length l.
Proof.
  unfold infer_int. destruct l as [|o l]; [reflexivity|].
  destruct (all_some (o :: l)); simpl; now rewrite length_map.
Qed.

Lemma series_len_infer_float (l : list (option Q)) :
  series_len (infer_float l) = List.length l.
Proof.
  unfold infer_float. destruct l as [|o l]; [reflexivity|].
  simpl. now rewrite length_map.
Qed.

Lemma series_len_map_str_int (d : dict Z) (s : Series) :
  series_len (map_str_int d s) = series_len s.
Proof.
  unfold map_str_int. now rewrite series_len_infer_int, length_map, series_len_cells.
Qed.

Lemma series_len_map_str_float (d : dict Q) (s : Series) :
  series_len (map_str_float d s) = series_len s.
Proof.
  unfold map_str_float.
  now rewrite series_len_infer_float, length_map, series_len_cells.
Qed.

Lemma series_len_fillna (s : Series) (x : flt) :
  series_len (fillna s x) = series_len s.
Proof. destruct s; simpl; now rewrite ?length_map. Qed.

Lemma series_len_fill_col (d : Z) (s : Series) :
  series_len (fill_col d s) = series_len s.
Proof.
  unfold fill_col. destruct (has_na s); [|reflexivity].
  destruct (isnan (median (floats s))); apply series_len_fillna.
Qed.

Lemma raw_ok_get (df : DataFrame) (c : string) :
  wf df -> raw_ok (nrows df) (get df c).
Proof.
  intros Hwf. destruct (get df c) eqn:E; simpl; [|exact I].
  now apply (wf_get df c).
Qed.

Lemma raw_ok_aliased (n : nat) (cur alt : option Series) :
  raw_ok n cur -> raw_ok n alt -> raw_ok n (aliased cur alt).
Proof. now destruct cur. Qed.

Lemma raw_ok_map (n : nat) (g : Series -> Series) (r : option Series) :
  (forall s, series_len (g s) = series_len s) ->
  raw_ok n r -> raw_ok n (option_map g r).
Proof. intros Hg. destruct r; simpl; [now rewrite Hg | auto]. Qed.

Lemma raw_ok_custo (df : DataFrame) (r : option Series) :
  wf df -> custo_index_raw df = Ok r -> raw_ok (nrows df) r.
Proof.
  intros Hwf. unfold custo_index_raw.
  destruct (get df "custo_index") as [s|] eqn:E1.
  - intros [= <-]. now apply (wf_get df "custo_index").
  - destruct (get df "custo") as [s|] eqn:E2.
    + unfold _map_col_if_exists. rewrite E2.
      pose proof (wf_get df "custo" s Hwf E2) as Hlen.
      destruct s as [l|l|l|l]; try (intros [= <-]; exact Hlen).
      destruct (mapM (strip_lower_get _MAP_CUSTO) l) as [m|] eqn:Em;
        [|discriminate].
      intros [= <-]. simpl. rewrite series_len_infer_int.
      now rewrite (mapM_length _ _ _ Em).
    + now intros [= <-].
Qed.

Section NormalizedTable.

Variable parse_numeric : text -> flt.

Lemma series_len_to_numeric (s : Series) :
  series_len (to_numeric parse_numeric s) = series_len s.
Proof. destruct s; simpl; now rewrite ?length_map. Qed.

Lemma existsb_isnan_fill (x : flt) (l : list flt) :
  isnan x = false ->
  existsb isnan (map (fun y => if isnan y then x else y) l) = false.
Proof.
  intros Hx. induction l as [|y l IH]; [reflexivity|].
  simpl. rewrite IH, orb_false_r.
  destruct (isnan y) eqn:E; assumption.
Qed.

Lemma has_na_fillna (s : Series) (x : flt) :
  is_obj s = false -> isnan x = false -> has_na (fillna s x) = false.
Proof.
  destruct s; simpl; intros Ho Hx; try reflexivity; try discriminate.
  now apply existsb_isnan_fill.
Qed.

Lemma has_na_fill_col (d : Z) (s : Series) :
  is_obj s = false -> has_na (fill_col d s) = false.
Proof.
  intros Ho. unfold fill_col.
  destruct (has_na s) eqn:E; [|assumption].
  destruct (isnan (median (floats s))) eqn:Em;
    now apply has_na_fillna.
Qed.

(** A normalised column is numeric, has one cell per row and no NaN. *)
Lemma normalized_column_complete (d : Z) (n : nat) (r : option Series) :
  raw_ok n r ->
  is_obj (normalized_column parse_numeric d n r) = false
  /\ series_len (normalized_column parse_numeric d n r) = n
  /\ has_na (normalized_column parse_numeric d n r) = false.
Proof.
  intros Hr. unfold normalized_column.
  repeat split.
  - apply fill_col_not_obj, to_numeric_not_obj.
  - rewrite series_len_fill_col, series_len_to_numeric.
    destruct r as [s|]; [exact Hr | simpl; apply repeat_length].
  - apply has_na_fill_col, to_numeric_not_obj.
Qed.

(** What [mapear_valores] returns, read column by column. *)
Lemma mapear_valores_columns (df out : DataFrame) :
  mapear_valores parse_numeric df = Ok out ->
  exists custo,
    custo_index_raw df = Ok custo
    /\ nrows out = nrows df
    /\ get out "id" = get df "id"
    /\ get out "nome_material" = get df "nome_material"
    /\ get out "custo_index"
       = Some (normalized_column parse_numeric 3 (nrows df) custo)
    /\ get out "densidade_kg_m3"
       = Some (normalized_column parse_numeric 2000 (nrows df)
                 (aliased (get df "densidade_kg_m3")
                    (option_map (map_str_int dens_map) (get df "peso"))))
    /\ get out "tensile_strength_MPa"
       = Some (normalized_column parse_numeric 50 (nrows df)
                 (aliased (get df "tensile_strength_MPa")
                    (option_map (map_str_float res_map)
                                (get df "resistencia"))))
    /\ get out "thermal_conductivity_W_mK"
       = Some (normalized_column parse_numeric 1 (nrows df)
                 (aliased (get df "thermal_conductivity_W_mK")
                    (option_map (map_str_float cond_map)
                                (get df "condutividade"))))
    /\ get out "reciclavel"
       = Some (normalized_column parse_numeric 1 (nrows df)
                 (simnao df "reciclavel"))
    /\ get out "biodegradavel"
       = Some (normalized_column parse_numeric 0 (nrows df)
                 (simnao df "biodegradavel"))
    /\ get out "melting_point_C"
       = Some (normalized_column parse_numeric 300 (nrows df)
                 (aliased (get df "melting_point_C")
                          (get df "temperatura_max")))
    /\ columns out
       = id_columns df
         ++ map (fun f => (f, synth out f)) features.
Proof.
  rewrite mapear_valores_by_column. unfold mapear_valores_por_coluna.
  destruct (custo_index_raw df) as [custo|e]; cbn [bind]; [|discriminate].
  intros [= <-]. exists custo. split; [reflexivity|].
  unfold id_columns, get at 1 2 3 4 5 6 7 8 9 10 11, synth, get. cbn [nrows columns flat_map].
  fold (get df "id"). fold (get df "nome_material").
  destruct (get df "id") as [sid|]; destruct (get df "nome_material") as [snm|];
    cbn; repeat split; reflexivity.
Qed.

End NormalizedTable.

(** ** When the normaliser returns *)

Lemma mapM_strip_lower_get_ok (mapa : dict Z) (l : list pyval) :
  forallb is_str l = true ->
  mapM (strip_lower_get mapa) l
  = Ok (map (fun v => match v with
                      | VStr s => dict_get mapa (lower (strip s))
                      | _ => None
                      end) l).
Proof.
  induction l as [|v l IH]; simpl; [reflexivity|].
  intros H. apply andb_prop in H as [Hv Hl].
  destruct v; try discriminate. simpl. now rewrite (IH Hl).
Qed.

Lemma mapM_strip_lower_get_err (mapa : dict Z) (l : list pyval) :
  forallb is_str l = false ->
  mapM (strip_lower_get mapa) l = Err AttributeError.
Proof.
  induction l as [|v l IH]; simpl; [discriminate|].
  intros H. destruct v; try reflexivity. simpl in H |- *.
  now rewrite (IH H).
Qed.

Section NormalizerClaims.

Variable parse_numeric : text -> flt.

(** The only failure of [mapear_valores]: the column 'custo_index' is
    absent and the column 'custo', of dtype [object], has a cell that is no
    string. *)
Lemma mapear_valores_raises (df : DataFrame) (l : list pyval) :
  get df "custo_index" = None ->
  get df "custo" = Some (SObj l) ->
  forallb is_str l = false ->
  mapear_valores parse_numeric df = Err AttributeError.
Proof.
  intros H1 H2 H3. rewrite mapear_valores_by_column.
  unfold mapear_valores_por_coluna, custo_index_raw, _map_col_if_exists.
  rewrite H1, H2. now rewrite mapM_strip_lower_get_err.
Qed.

Lemma mapear_valores_returns (df : DataFrame) :
  (get df "custo_index" <> None
   \/ match get df "custo" with
      | Some (SObj l) => forallb is_str l = true
      | _ => True
      end) ->
  exists out, mapear_valores parse_numeric df = Ok out.
Proof.
  intros H. rewrite mapear_valores_by_column.
  unfold mapear_valores_por_coluna, custo_index_raw, _map_col_if_exists.
  destruct (get df "custo_index") as [s|] eqn:E1; [simpl; eauto|].
  destruct H as [H|H]; [contradiction|].
  destruct (get df "custo") as [s|] eqn:E2; [|simpl; eauto].
  destruct s as [l|l|l|l]; try (simpl; eauto; fail).
  rewrite mapM_strip_lower_get_ok by assumption. simpl. eauto.
Qed.

(** C2: the claim that normalisation never raises fails on the code.  A
    'custo' column with one missing cell makes [_map_col_if_exists] call
    [.lower()] on NaN, which raises [AttributeError]. *)
Theorem C2_custo_missing_cell_raises :
  mapear_valores parse_numeric custo_com_lacuna = Err AttributeError.
Proof.
  apply (mapear_valores_raises custo_com_lacuna [VStr (u "baixo"); VNone]);
    reflexivity.
Qed.

(** The sibling path: the same missing cell in a 'peso' column is turned
    into text by [astype(str)], misses the map and is imputed. *)
Lemma peso_missing_cell_returns :
  mapear_valores parse_numeric peso_com_lacuna
  = Ok (mkDF 2 [("custo_index", SFloat [Fin 3; Fin 3]);
               ("densidade_kg_m3", SFloat [Fin 1000; Fin 1000]);
               ("tensile_strength_MPa", SFloat [Fin 50; Fin 50]);
               ("thermal_conductivity_W_mK", SFloat [Fin 1; Fin 1]);
               ("reciclavel", SFloat [Fin 1; Fin 1]);
               ("biodegradavel", SFloat [Fin 0; Fin 0]);
               ("melting_point_C", SFloat [Fin 300; Fin 300])]).
Proof. rewrite mapear_valores_by_column. reflexivity. Qed.

(** ** Completeness of the normalised table *)

Lemma feature_cases (P : string -> Prop) :
  P "custo_index" -> P "densidade_kg_m3" -> P "tensile_strength_MPa" ->
  P "thermal_conductivity_W_mK" -> P "reciclavel" -> P "biodegradavel" ->
  P "melting_point_C" ->
  forall f, In f features -> P f.
Proof.
  intros H1 H2 H3 H4 H5 H6 H7 f. unfold features. simpl.
  intros [<-|[<-|[<-|[<-|[<-|[<-|[<-|[]]]]]]]]; assumption.
Qed.

(** Each canonical column of the result is the normalisation of a raw
    column that, when it exists, has one cell per row. *)
Lemma mapear_valores_normalized (df out : DataFrame) :
  wf df ->
  mapear_valores parse_numeric df = Ok out ->
  forall f, In f features ->
    exists d r,
      get out f = Some (normalized_column parse_numeric d (nrows df) r)
      /\ raw_ok (nrows df) r.
Proof.
  intros Hwf H.
  destruct (mapear_valores_columns parse_numeric df out H)
    as (custo & Hc & Hn & _ & _ & G0 & G1 & G2 & G3 & G4 & G5 & G6 & _).
  apply feature_cases; eexists; eexists; (split; [eassumption|]).
  - now apply raw_ok_custo.
  - apply raw_ok_aliased; [now apply raw_ok_get|].
    apply raw_ok_map; [apply series_len_map_str_int | now apply raw_ok_get].
  - apply raw_ok_aliased; [now apply raw_ok_get|].
    apply raw_ok_map; [apply series_len_map_str_float | now apply raw_ok_get].
  - apply raw_ok_aliased; [now apply raw_ok_get|].
    apply raw_ok_map; [apply series_len_map_str_float | now apply raw_ok_get].
  - unfold simnao.
    apply raw_ok_map; [apply series_len_map_str_int | now apply raw_ok_get].
  - unfold simnao.
    apply raw_ok_map; [apply series_len_map_str_int | now apply raw_ok_get].
  - apply raw_ok_aliased; now apply raw_ok_get.
Qed.

Lemma mapear_valores_nrows (df out : DataFrame) :
  mapear_valores parse_numeric df = Ok out -> nrows out = nrows df.
Proof.
  intros H.
  now destruct (mapear_valores_columns parse_numeric df out H)
    as (custo & _ & Hn & _).
Qed.

(** C3, amended: for every raw table on which [mapear_valores] returns,
    each of the seven canonical columns of the result is present, numeric,
    has one cell per row and no missing (NaN) cell.  An infinite value of
    the input stays in the result. *)
Theorem C3_no_missing_values (df out : DataFrame) :
  wf df ->
  mapear_valores parse_numeric df = Ok out ->
  forall f, In f features ->
    exists s, get out f = Some s /\ is_obj s = false
              /\ series_len s = nrows out /\ has_na s = false.
Proof.
  intros Hwf H f Hf.
  destruct (mapear_valores_normalized df out Hwf H f Hf) as (d & r & Hg & Hr).
  destruct (normalized_column_complete parse_numeric d (nrows df) r Hr)
    as (Hobj & Hlen & Hna).
  exists (normalized_column parse_numeric d (nrows df) r).
  rewrite (mapear_valores_nrows df out H).
  repeat split; assumption.
Qed.

End NormalizerClaims.

(** C3, as stated, fails: a density column with an infinite value comes
    out of [mapear_valores] with that value. *)
Lemma C3_counterexample :
  exists out s,
    mapear_valores no_parse densidade_infinita = Ok out
    /\ get out "densidade_kg_m3" = Some s
    /\ forallb isfinite (floats s) = false.
Proof.
  eexists. exists (SFloat [PInf]).
  split; [vm_compute; reflexivity|]. split; reflexivity.
Qed.

Lemma cenario1_wf : wf cenario1.
Proof. repeat constructor. Qed.

Lemma cenario1_normalizado_eq :
  mapear_valores no_parse cenario1 = Ok cenario1_normalizado.
Proof. vm_compute. reflexivity. Qed.

Lemma C3_no_missing_values_witness :
  exists s, get cenario1_normalizado "custo_index" = Some s
            /\ is_obj s = false
            /\ series_len s = nrows cenario1_normalizado
            /\ has_na s = false.
Proof.
  apply (C3_no_missing_values no_parse cenario1 cenario1_normalizado).
  - repeat constructor.
  - vm_compute. reflexivity.
  - unfold features. simpl. tauto.
Defined.

(** ** The cells of a normalised column *)

Lemma map_fill_no_nan (x : flt) (l : list flt) :
  existsb isnan l = false ->
  map (fun y => if isnan y then x else y) l = l.
Proof.
  induction l as [|y l IH]; simpl; [reflexivity|].
  intros H. apply orb_false_elim in H as [Hy Hl].
  now rewrite Hy, IH.
Qed.

Lemma floats_fill_col_float (d : Z) (l : list flt) :
  floats (fill_col d (SFloat l))
  = map (fun y => if isnan y then fill_value d l else y) l.
Proof.
  unfold fill_col, fill_value. cbn [has_na floats].
  destruct (existsb isnan l) eqn:E.
  - destruct (isnan (median l)); reflexivity.
  - cbn [floats]. now rewrite map_fill_no_nan.
Qed.

Lemma isnan_of_Z (z : Z) : isnan (of_Z z) = false.
Proof. reflexivity. Qed.

Lemma isnan_of_bool (b : bool) : isnan (of_bool b) = false.
Proof. now destruct b. Qed.

(** Imputation changes the NaN cells only. *)
Lemma floats_fill_col (d : Z) (s : Series) :
  is_obj s = false ->
  floats (fill_col d s)
  = map (fun y => if isnan y then fill_value d (floats s) else y) (floats s).
Proof.
  destruct s as [l|l|l|l]; intros H; try discriminate.
  - unfold fill_col. simpl. rewrite map_map. apply map_ext. intros z.
    now rewrite isnan_of_Z.
  - apply floats_fill_col_float.
  - unfold fill_col. simpl. rewrite map_map. apply map_ext. intros b.
    now rewrite isnan_of_bool.
Qed.

Section NormalizedCells.

Variable parse_numeric : text -> flt.

Lemma to_numeric_numeric (s : Series) :
  is_obj s = false -> to_numeric parse_numeric s = s.
Proof. destruct s; simpl; intros H; [reflexivity..|discriminate]. Qed.

Lemma floats_to_numeric (s : Series) :
  floats (to_numeric parse_numeric s)
  = map (to_numeric_cell parse_numeric) (cells s).
Proof.
  destruct s as [l|l|l|l]; simpl; rewrite ?map_map; try reflexivity.
  now rewrite map_id.
Qed.

Lemma mapM_strip_lower_get_map (mapa : dict Z) (l : list pyval) (r : list (option Z)) :
  mapM (strip_lower_get mapa) l = Ok r ->
  forallb is_str l = true
  /\ r = map (fun v => match v with
                       | VStr s => dict_get mapa (lower (strip s))
                       | _ => None
                       end) l.
Proof.
  intros H. destruct (forallb is_str l) eqn:E.
  - rewrite mapM_strip_lower_get_ok in H by assumption.
    injection H as <-. auto.
  - rewrite mapM_strip_lower_get_err in H by assumption. discriminate.
Qed.

End NormalizedCells.

(** ** Rows, pass-through and the cost map *)

Lemma id_columns_wf (df : DataFrame) :
  wf df ->
  Forall (fun c => series_len (snd c) = nrows df) (id_columns df).
Proof.
  intros Hwf. unfold id_columns. simpl.
  destruct (get df "id") as [s|] eqn:E1;
    destruct (get df "nome_material") as [s'|] eqn:E2; simpl;
    repeat constructor; simpl; eauto using wf_get.
Qed.

Section NormalizerRows.

Variable parse_numeric : text -> flt.

(** C9: a non-boolean canonical column that the raw table already has with
    a numeric dtype goes through [mapear_valores] with every value that is
    not missing unchanged, at its position, whatever the value. *)
Theorem C9_numeric_pass_through (df out : DataFrame) (f : string) (s : Series) :
  In f non_boolean_features ->
  get df f = Some s ->
  is_obj s = false ->
  mapear_valores parse_numeric df = Ok out ->
  exists s',
    get out f = Some s'
    /\ series_len s' = series_len s
    /\ forall i x, nth_error (floats s) i = Some x -> isnan x = false ->
         nth_error (floats s') i = Some x.
Proof.
  intros Hf Hs Hobj H.
  destruct (mapear_valores_columns parse_numeric df out H)
    as (custo & Hc & Hn & _ & _ & G0 & G1 & G2 & G3 & _ & _ & G6 & _).
  assert (Hcol : forall d,
            exists s', Some (normalized_column parse_numeric d (nrows df) (Some s))
                       = Some s'
              /\ series_len s' = series_len s
              /\ forall i x, nth_error (floats s) i = Some x -> isnan x = false ->
                   nth_error (floats s') i = Some x).
  { intros d. eexists. split; [reflexivity|].
    unfold normalized_column. rewrite to_numeric_numeric by assumption.
    split; [apply series_len_fill_col|].
    intros i x Hi Hx. rewrite floats_fill_col by assumption.
    rewrite nth_error_map, Hi. simpl. now rewrite Hx. }
  unfold non_boolean_features in Hf. simpl in Hf.
  destruct Hf as [<-|[<-|[<-|[<-|[<-|[]]]]]].
  - unfold custo_index_raw in Hc. rewrite Hs in Hc. injection Hc as <-.
    rewrite G0. apply Hcol.
  - rewrite G1, Hs. apply Hcol.
  - rewrite G2, Hs. apply Hcol.
  - rewrite G3, Hs. apply Hcol.
  - rewrite G6, Hs. apply Hcol.
Qed.

Lemma custo_cell_spec (v : pyval) :
  custo_cell v
  = match (match v with
           | VStr s => dict_get _MAP_CUSTO (lower (strip s))
           | _ => None
           end) with
    | Some z => of_Z z
    | None => NaN
    end.
Proof. now destruct v. Qed.

Lemma infer_int_with_none (os : list (option Z)) :
  In None os ->
  infer_int os
  = SFloat (map (fun o => match o with Some z => of_Z z | None => NaN end) os).
Proof.
  intros Hin. unfold infer_int.
  destruct os as [|o os]; [contradiction|].
  destruct (all_some (o :: os)) eqn:E; [|reflexivity].
  unfold all_some in E. rewrite forallb_forall in E.
  specialize (E None Hin). discriminate.
Qed.

(** C10: the maps of weight, resistance and conductivity know "medio" and
    "media" with and without accent, the cost map knows "médio" only.  So
    for every raw table whose 'custo_index' comes from a 'custo' column, a
    cell "medio" (in any case, with any white space around it) is not
    recognised: it becomes missing and gets the median of the recognised
    cells of the column, or 3 when none is recognised, never 2 on its own
    account. *)
Theorem C10_custo_medio_unrecognised
  (df out : DataFrame) (l : list pyval) (i : nat) (s : text) :
  get df "custo_index" = None ->
  get df "custo" = Some (SObj l) ->
  mapear_valores parse_numeric df = Ok out ->
  nth_error l i = Some (VStr s) ->
  lower (strip s) = u "medio" ->
  (dict_get _MAP_CUSTO (u "medio") = None
   /\ dict_get _MAP_CUSTO (u "médio") = Some 2
   /\ dict_get dens_map (u "medio") = Some 5000
   /\ dict_get dens_map (u "médio") = Some 5000
   /\ dict_get res_map (u "media") = Some (100 # 1)%Q
   /\ dict_get res_map (u "média") = Some (100 # 1)%Q
   /\ dict_get cond_map (u "media") = Some (1 # 1)%Q
   /\ dict_get cond_map (u "média") = Some (1 # 1)%Q)
  /\ custo_cell (VStr s) = NaN
  /\ exists col,
       get out "custo_index" = Some col
       /\ nth_error (floats col) i = Some (fill_value 3 (map custo_cell l)).
Proof.
  intros H1 H2 H Hi Hs.
  split; [repeat split; reflexivity|].
  assert (Hcell : custo_cell (VStr s) = NaN) by (simpl; now rewrite Hs).
  split; [assumption|].
  destruct (mapear_valores_columns parse_numeric df out H)
    as (custo & Hc & _ & _ & _ & G0 & _).
  unfold custo_index_raw, _map_col_if_exists in Hc. rewrite H1, H2 in Hc.
  destruct (mapM (strip_lower_get _MAP_CUSTO) l) as [r|] eqn:Em; [|discriminate].
  injection Hc as <-.
  apply mapM_strip_lower_get_map in Em as [_ ->].
  rewrite infer_int_with_none in G0.
  2:{ apply in_map_iff. exists (VStr s). split.
      - now rewrite Hs.
      - eapply nth_error_In. exact Hi. }
  rewrite map_map in G0.
  rewrite (map_ext _ custo_cell) in G0 by (intros v; symmetry; apply custo_cell_spec).
  eexists. split; [exact G0|].
  unfold normalized_column. cbn [to_numeric].
  rewrite floats_fill_col_float, nth_error_map, nth_error_map, Hi.
  cbn [option_map]. now rewrite Hcell.
Qed.

End NormalizerRows.

Lemma C9_numeric_pass_through_witness :
  exists s',
    get (mkDF 2 [("custo_index", SInt [9; 2]);
                 ("densidade_kg_m3", SFloat [Fin (-5); Fin (-5)]);
                 ("tensile_strength_MPa", SFloat [Fin 50; Fin 50]);
                 ("thermal_conductivity_W_mK", SFloat [Fin 1; Fin 1]);
                 ("reciclavel", SFloat [Fin 1; Fin 1]);
                 ("biodegradavel", SFloat [Fin 0; Fin 0]);
                 ("melting_point_C", SFloat [Fin 300; Fin 300])])
        "densidade_kg_m3" = Some s'
    /\ series_len s' = series_len (SFloat [Fin (-5); NaN])
    /\ forall i x,
         nth_error (floats (SFloat [Fin (-5); NaN])) i = Some x ->
         isnan x = false ->
         nth_error (floats s') i = Some x.
Proof.
  apply (C9_numeric_pass_through no_parse fora_de_faixa _ "densidade_kg_m3").
  - unfold non_boolean_features. simpl. tauto.
  - reflexivity.
  - reflexivity.
  - vm_compute. reflexivity.
Defined.

Lemma C10_custo_medio_unrecognised_witness :
  (dict_get _MAP_CUSTO (u "medio") = None
   /\ dict_get _MAP_CUSTO (u "médio") = Some 2
   /\ dict_get dens_map (u "medio") = Some 5000
   /\ dict_get dens_map (u "médio") = Some 5000
   /\ dict_get res_map (u "media") = Some (100 # 1)%Q
   /\ dict_get res_map (u "média") = Some (100 # 1)%Q
   /\ dict_get cond_map (u "media") = Some (1 # 1)%Q
   /\ dict_get cond_map (u "média") = Some (1 # 1)%Q)
  /\ custo_cell (VStr (u "medio")) = NaN
  /\ exists col,
       get cenario1_normalizado "custo_index" = Some col
       /\ nth_error (floats col) 1
          = Some (fill_value 3
                    (map custo_cell [VStr (u "baixo"); VStr (u "medio")])).
Proof.
  apply (C10_custo_medio_unrecognised no_parse cenario1 cenario1_normalizado
           [VStr (u "baixo"); VStr (u "medio")] 1 (u "medio")).
  - reflexivity.
  - reflexivity.
  - vm_compute. reflexivity.
  - reflexivity.
  - reflexivity.
Defined.

(** ** Idempotence on canonical tables *)

Lemma median_all_nan {A : Type} (l : list A) :
  median (map (fun _ => NaN) l) = NaN.
Proof.
  unfold median.
  assert (E : dropna (map (fun _ : A => NaN) l) = []).
  { induction l as [|a l IH]; simpl; [reflexivity | exact IH]. }
  now rewrite E.
Qed.

Lemma fill_col_all_nan {A : Type} (d : Z) (l : list A) :
  fill_col d (SFloat (map (fun _ => NaN) l))
  = SFloat (map (fun _ => of_Z d) l).
Proof.
  unfold fill_col. cbn [has_na floats].
  destruct l as [|a l]; [reflexivity|].
  cbn [map existsb isnan orb].
  change (NaN :: map (fun _ : A => NaN) l) with (map (fun _ : A => NaN) (a :: l)).
  rewrite median_all_nan. cbn [isnan fillna]. f_equal.
  rewrite map_map. reflexivity.
Qed.

Lemma infer_int_all_none {A : Type} (l : list A) :
  l <> [] ->
  infer_int (map (fun _ => None) l) = SFloat (map (fun _ => NaN) l).
Proof.
  destruct l as [|a l]; [contradiction|]. intros _.
  unfold infer_int. cbn [map all_some forallb andb]. now rewrite map_map.
Qed.

Lemma lookup_simnao_01 (z : Z) :
  (z =? 0) || (z =? 1) = true -> lookup_cell _MAP_SIMNAO (VInt z) = Some z.
Proof.
  intros H. apply orb_prop in H as [H|H]; apply Z.eqb_eq in H; subst;
    reflexivity.
Qed.

Lemma map_lookup_simnao_01 (l : list Z) :
  forallb (fun z => (z =? 0) || (z =? 1)) l = true ->
  map (lookup_cell _MAP_SIMNAO) (map VInt l) = map Some l.
Proof.
  induction l as [|z l IH]; simpl; [reflexivity|].
  intros H. apply andb_prop in H as [Hz Hl].
  now rewrite (lookup_simnao_01 z Hz), (IH Hl).
Qed.

Lemma infer_int_all_some (l : list Z) :
  l <> [] -> infer_int (map Some l) = SInt l.
Proof.
  destruct l as [|z l]; [contradiction|]. intros _.
  unfold infer_int. cbn [map].
  assert (E : all_some (Some z :: map Some l) = true).
  { unfold all_some. apply forallb_forall. intros o Ho.
    destruct Ho as [<-|Ho]; [reflexivity|].
    apply in_map_iff in Ho as (x & <- & _). reflexivity. }
  rewrite E. f_equal. cbn [map]. f_equal. rewrite map_map. apply map_id.
Qed.

Section Idempotence.

Variable parse_numeric : text -> flt.

(** A column none of whose cells is in the yes/no map becomes a column of
    the default. *)
Lemma simnao_column_unmapped (d : Z) (n : nat) (s : Series) :
  (forall v, In v (cells s) -> lookup_cell _MAP_SIMNAO v = None) ->
  simnao_column parse_numeric d n s
  = SFloat (map (fun _ => of_Z d) (cells s)).
Proof.
  intros H. unfold simnao_column, normalized_column, map_str_int.
  rewrite (map_ext_in _ (fun _ => None) _ H).
  destruct (cells s) as [|v l] eqn:E; [reflexivity|].
  rewrite infer_int_all_none by discriminate.
  cbn [to_numeric]. apply fill_col_all_nan.
Qed.

Lemma simnao_column_float (d : Z) (n : nat) (l : list flt) :
  simnao_column parse_numeric d n (SFloat l)
  = SFloat (map (fun _ => of_Z d) l).
Proof.
  rewrite simnao_column_unmapped.
  - cbn [cells]. now rewrite map_map.
  - cbn [cells]. intros v Hv. apply in_map_iff in Hv as (x & <- & _).
    reflexivity.
Qed.

Lemma simnao_column_bool (d : Z) (n : nat) (l : list bool) :
  simnao_column parse_numeric d n (SBool l)
  = SFloat (map (fun _ => of_Z d) l).
Proof.
  rewrite simnao_column_unmapped.
  - cbn [cells]. now rewrite map_map.
  - cbn [cells]. intros v Hv. apply in_map_iff in Hv as (x & <- & _).
    now destruct x.
Qed.

Lemma simnao_column_int01 (d : Z) (n : nat) (l : list Z) :
  l <> [] ->
  forallb (fun z => (z =? 0) || (z =? 1)) l = true ->
  simnao_column parse_numeric d n (SInt l) = SInt l.
Proof.
  intros Hne H. unfold simnao_column, normalized_column, map_str_int.
  cbn [cells]. rewrite map_lookup_simnao_01 by assumption.
  rewrite infer_int_all_some by assumption. reflexivity.
Qed.


Lemma simnao_column_numeric (d : Z) (n : nat) (s : Series) :
  is_obj (simnao_column parse_numeric d n s) = false.
Proof. apply fill_col_not_obj, to_numeric_not_obj. Qed.





End Idempotence.

Lemma reciclavel_012_canonical : canonical reciclavel_012.
Proof.
  unfold canonical.
  apply feature_cases; eexists; (split; [reflexivity|]); split; reflexivity.
Qed.

(** Outside the data model the property is lost: with the value 2 in an
    integer 'reciclavel' column [0, 1, 2], the first pass gives
    [0, 1, 0.5] (2 is no key of the yes/no map, the median fills it) and
    the second [1, 1, 1] (the text of a float is no key, the default fills
    all). *)
Lemma idempotence_needs_flags_01 :
  canonical reciclavel_012
  /\ exists out1 out2,
       mapear_valores no_parse reciclavel_012 = Ok out1
       /\ mapear_valores no_parse out1 = Ok out2
       /\ get out1 "reciclavel" = Some (SFloat [Fin 0; Fin 1; Fin (1 # 2)])
       /\ get out2 "reciclavel" = Some (SFloat [Fin 1; Fin 1; Fin 1])
       /\ out2 <> out1.
Proof.
  split; [exact reciclavel_012_canonical|].
  eexists. eexists.
  split; [vm_compute; reflexivity|].
  split; [vm_compute; reflexivity|].
  split; [reflexivity|]. split; [reflexivity|].
  discriminate.
Qed.


(** ** The matcher: when a query raises *)

Lemma take_ok {A : Type} (l : list A) (idx : list nat) :
  Forall (fun i => (i < List.length l)%nat) idx ->
  exists r, take l idx = Ok r /\ List.length r = List.length idx.
Proof.
  induction 1 as [|i idx Hi _ IH]; simpl.
  - now exists [].
  - destruct (nth_error l i) as [a|] eqn:E.
    + destruct IH as (r & -> & Hr). simpl. exists (a :: r).
      split; [reflexivity | simpl; now rewrite Hr].
    + apply nth_error_None in E. lia.
Qed.

Lemma series_take_ok (s : Series) (idx : list nat) :
  Forall (fun i => (i < series_len s)%nat) idx ->
  exists r, series_take s idx = Ok r /\ series_len r = List.length idx.
Proof.
  destruct s as [l|l|l|l]; simpl; intros H;
    destruct (take_ok l idx H) as (r & -> & Hr); simpl; eexists;
    (split; [reflexivity | exact Hr]).
Qed.

Lemma iloc_ok (df : DataFrame) (idx : list nat) :
  wf df ->
  Forall (fun i => (i < nrows df)%nat) idx ->
  exists res, iloc df idx = Ok res /\ nrows res = List.length idx.
Proof.
  intros Hwf Hidx. unfold iloc.
  assert (Hb : forallb (fun i => Nat.ltb i (nrows df)) idx = true).
  { apply forallb_forall. intros i Hi. apply Nat.ltb_lt.
    rewrite Forall_forall in Hidx. auto. }
  rewrite Hb.
  assert (Hcols : exists cols,
            mapM (fun c => s <- series_take (snd c) idx ;; Ok (fst c, s))
                 (columns df) = Ok cols).
  { unfold wf in Hwf. induction Hwf as [|[n s] cols Hs _ IH]; simpl.
    - now exists [].
    - simpl in Hs.
      destruct (series_take_ok s idx) as (r & -> & _); [now rewrite Hs|].
      simpl. destruct IH as (cs & ->). simpl. eauto. }
  destruct Hcols as (cols & ->). simpl. eauto.
Qed.

Lemma check_array_row (v : list flt) :
  check_array [v] = if forallb isfinite v then Ok [v] else Err ValueError.
Proof. unfold check_array. simpl. now rewrite andb_true_r. Qed.

Section MatcherQueries.

Variable neighbors_search :
  list (list flt) -> list flt -> nat -> list flt * list nat.

(** What is asked of the library search: for [k] between 1 and the number
    of fitted rows it returns [k] distances and [k] positions of fitted
    rows. *)
Hypothesis search_sizes :
  forall X q k, (1 <= k <= List.length X)%nat ->
    List.length (fst (neighbors_search X q k)) = k
    /\ List.length (snd (neighbors_search X q k)) = k
    /\ Forall (fun i => (i < List.length X)%nat) (snd (neighbors_search X q k)).

Lemma kneighbors_invalid (modelo : NearestNeighbors) (v : list flt) (k : Z) :
  n_features_in modelo = 7%nat ->
  invalid_query modelo v k \/ k <= 0 ->
  kneighbors neighbors_search modelo v k = Err ValueError.
Proof.
  intros H7 Hbad. unfold kneighbors.
  destruct (k <=? 0) eqn:Ek; [reflexivity|].
  apply Z.leb_gt in Ek.
  rewrite check_array_row.
  destruct (forallb isfinite v) eqn:Ef; [|reflexivity]. cbn [bind].
  rewrite H7.
  destruct (Nat.eqb (List.length v) 7) eqn:E7; [|reflexivity]. cbn [negb].
  apply Nat.eqb_eq in E7.
  destruct (Z.of_nat (n_samples_fit modelo) <? k) eqn:En; [reflexivity|].
  apply Z.ltb_ge in En.
  unfold invalid_query in Hbad.
  destruct Hbad as [[H|[H|H]]|H]; try congruence; lia.
Qed.

Lemma kneighbors_valid (modelo : NearestNeighbors) (v : list flt) (k : Z) :
  n_features_in modelo = 7%nat ->
  ~ (invalid_query modelo v k \/ k <= 0) ->
  kneighbors neighbors_search modelo v k
  = Ok (neighbors_search (fit_X modelo) v (Z.to_nat k)).
Proof.
  intros H7 Hgood. unfold kneighbors, invalid_query in *.
  destruct (k <=? 0) eqn:Ek.
  { apply Z.leb_le in Ek. tauto. }
  rewrite check_array_row.
  destruct (forallb isfinite v) eqn:Ef; [|tauto]. cbn [bind].
  rewrite H7.
  destruct (Nat.eqb (List.length v) 7) eqn:E7.
  2:{ apply Nat.eqb_neq in E7. tauto. }
  cbn [negb].
  destruct (Z.of_nat (n_samples_fit modelo) <? k) eqn:En; [|reflexivity].
  apply Z.ltb_lt in En. tauto.
Qed.

End MatcherQueries.

(** *** The exhaustive search meets what is asked of the library *)

Lemma insert_near_length (e : flt * nat) (l : list (flt * nat)) :
  List.length (insert_near e l) = S (List.length l).
Proof.
  induction l as [|e' l IH]; simpl; [reflexivity|].
  destruct (Num.leb (fst e') (fst e)); simpl; now rewrite ?IH.
Qed.

Lemma sort_near_length (l : list (flt * nat)) :
  List.length (sort_near l) = List.length l.
Proof.
  induction l as [|e l IH]; simpl; [reflexivity|].
  now rewrite insert_near_length, IH.
Qed.

Lemma insert_near_Forall (P : flt * nat -> Prop) (e : flt * nat)
  (l : list (flt * nat)) :
  P e -> Forall P l -> Forall P (insert_near e l).
Proof.
  intros He Hl. induction Hl as [|e' l He' Hl IH]; simpl.
  - now constructor.
  - destruct (Num.leb (fst e') (fst e)); constructor; auto.
Qed.

Lemma sort_near_Forall (P : flt * nat -> Prop) (l : list (flt * nat)) :
  Forall P l -> Forall P (sort_near l).
Proof.
  induction 1 as [|e l He _ IH]; simpl; [constructor|].
  now apply insert_near_Forall.
Qed.

Lemma Forall_firstn {A : Type} (P : A -> Prop) (k : nat) (l : list A) :
  Forall P l -> Forall P (firstn k l).
Proof.
  intros H. revert k. induction H as [|a l Ha _ IH]; intros [|k]; simpl;
    constructor; auto.
Qed.

Lemma busca_exaustiva_sizes (X : list (list flt)) (q : list flt) (k : nat) :
  (1 <= k <= List.length X)%nat ->
  List.length (fst (busca_exaustiva X q k)) = k
  /\ List.length (snd (busca_exaustiva X q k)) = k
  /\ Forall (fun i => (i < List.length X)%nat) (snd (busca_exaustiva X q k)).
Proof.
  intros Hk. unfold busca_exaustiva. cbn [fst snd].
  set (ds := combine (map (sq_dist q) X) (seq 0 (List.length X))).
  assert (Hlen : List.length (sort_near ds) = List.length X).
  { rewrite sort_near_length. unfold ds.
    rewrite length_combine, length_map, length_seq. lia. }
  rewrite !length_map, length_firstn, Hlen.
  split; [lia|]. split; [lia|].
  apply Forall_map. apply Forall_firstn.
  apply sort_near_Forall. apply Forall_forall. intros [d i] Hin.
  apply in_combine_r in Hin. apply in_seq in Hin. simpl. lia.
Qed.

Lemma catalogo_modelo_fitted :
  preparar_modelo no_float catalogo 3 = Ok catalogo_modelo.
Proof. vm_compute. reflexivity. Qed.

(** C5, as stated, fails: with [k = 0] the query is none of the three
    listed kinds (seven finite entries, [k] not above the three fitted
    rows) and the matcher raises all the same. *)
Lemma C5_counterexample :
  ~ invalid_query catalogo_modelo consulta 0
  /\ recomendar_material busca_exaustiva catalogo_modelo catalogo consulta 0
     = Err ValueError.
Proof.
  split.
  - unfold invalid_query. intros [H|[H|H]].
    + apply H. reflexivity.
    + discriminate.
    + vm_compute in H. discriminate.
  - reflexivity.
Qed.

(** A model fitted by [preparar_modelo] has seven features and one fitted
    row per row of the table. *)
Lemma preparar_modelo_fitted (astype_float : text -> result flt)
  (df : DataFrame) (n : Z) (modelo : NearestNeighbors) :
  preparar_modelo astype_float df n = Ok modelo ->
  n_features_in modelo = 7%nat
  /\ n_samples_fit modelo = nrows df
  /\ n_neighbors modelo = n.
Proof.
  unfold preparar_modelo. intros H.
  apply bind_ok in H as (sel & _ & H).
  apply bind_ok in H as (cols & _ & H).
  destruct (n <=? 0); [discriminate|].
  apply bind_ok in H as (X & HX & H).
  injection H as <-. cbn [n_features_in n_neighbors].
  repeat split.
  unfold n_samples_fit. cbn [fit_X].
  unfold check_array in HX.
  destruct (rows_of (nrows df) cols) as [|r rs] eqn:E; [discriminate|].
  destruct (forallb (forallb isfinite) (r :: rs)); [|discriminate].
  injection HX as <-. rewrite <- E. unfold rows_of.
  now rewrite length_map, length_seq.
Qed.

(** * Further properties of the code *)

(** ** The normaliser: failure, schema, defaults *)

Lemma fill_col_repeat_nan (d : Z) (n : nat) :
  fill_col d (SFloat (repeat NaN n)) = SFloat (repeat (of_Z d) n).
Proof.
  pose proof (fill_col_all_nan d (repeat tt n)) as H.
  now rewrite !map_repeat in H.
Qed.

Section NormalizerExtras.

Variable parse_numeric : text -> flt.

Lemma normalized_column_absent (d : Z) (n : nat) :
  normalized_column parse_numeric d n None = SFloat (repeat (of_Z d) n).
Proof. unfold normalized_column. cbn [to_numeric]. apply fill_col_repeat_nan. Qed.

(** X1: [mapear_valores] raises in one situation only, and then with
    [AttributeError]: the column 'custo_index' is absent and the column
    'custo' has dtype [object] and a cell that is no string. *)
Theorem mapear_valores_error_iff (df : DataFrame) :
  (forall e, mapear_valores parse_numeric df = Err e -> e = AttributeError)
  /\ (mapear_valores parse_numeric df = Err AttributeError
      <-> get df "custo_index" = None
          /\ exists l, get df "custo" = Some (SObj l)
                       /\ forallb is_str l = false).
Proof.
  assert (Hchar : forall e, mapear_valores parse_numeric df = Err e ->
            e = AttributeError
            /\ get df "custo_index" = None
            /\ exists l, get df "custo" = Some (SObj l)
                         /\ forallb is_str l = false).
  { intros e H. rewrite mapear_valores_by_column in H.
    unfold mapear_valores_por_coluna, custo_index_raw, _map_col_if_exists in H.
    destruct (get df "custo_index") as [s|] eqn:E1; [discriminate|].
    destruct (get df "custo") as [s|] eqn:E2; [|discriminate].
    destruct s as [l|l|l|l]; try discriminate.
    destruct (forallb is_str l) eqn:Es.
    - rewrite mapM_strip_lower_get_ok in H by assumption. discriminate.
    - rewrite mapM_strip_lower_get_err in H by assumption.
      injection H as <-. eauto. }
  split.
  - intros e H. now destruct (Hchar e H).
  - split.
    + intros H. now destruct (Hchar _ H) as (_ & H1 & H2).
    + intros (H1 & l & H2 & H3).
      now apply (mapear_valores_raises parse_numeric df l).
Qed.

(** X2: the table [mapear_valores] returns has the columns 'id' and
    'nome_material' when the input has them, then the seven canonical
    columns in their fixed order, and no other column of the input. *)
Theorem mapear_valores_schema (df out : DataFrame) :
  mapear_valores parse_numeric df = Ok out ->
  map fst (columns out)
  = filter (has_col df) ["id"; "nome_material"] ++ features.
Proof.
  intros H.
  destruct (mapear_valores_columns parse_numeric df out H)
    as (custo & _ & _ & _ & _ & _ & _ & _ & _ & _ & _ & _ & Hcols).
  rewrite Hcols, map_app, map_map. cbn [fst]. rewrite map_id. f_equal.
  unfold id_columns, has_col. cbn [flat_map filter].
  destruct (get df "id"); destruct (get df "nome_material"); reflexivity.
Qed.

(** X3: a canonical column that the raw table has neither under its own
    name nor under its legacy alias comes out constant, with the default of
    the field (3, 2000, 50, 1, 1, 0, 300). *)
Theorem missing_column_default (df out : DataFrame) (f : string) (d : Z) :
  In f features ->
  defaults_get defaults f = Ok d ->
  source_column df f = None ->
  mapear_valores parse_numeric df = Ok out ->
  get out f = Some (SFloat (repeat (of_Z d) (nrows df))).
Proof.
  intros Hf Hd Hsrc H.
  destruct (mapear_valores_columns parse_numeric df out H)
    as (custo & Hc & _ & _ & _ & G0 & G1 & G2 & G3 & G4 & G5 & G6 & _).
  revert f Hf d Hd Hsrc. apply (feature_cases
    (fun f => forall d, defaults_get defaults f = Ok d ->
       source_column df f = None ->
       get out f = Some (SFloat (repeat (of_Z d) (nrows df)))));
    intros d Hd Hsrc; cbn in Hd; injection Hd as <-;
    unfold source_column in Hsrc; cbn [String.eqb Ascii.eqb Bool.eqb] in Hsrc.
  - unfold custo_index_raw in Hc.
    destruct (get df "custo_index"); [discriminate|]. simpl in Hsrc.
    rewrite Hsrc in Hc. injection Hc as <-.
    now rewrite G0, normalized_column_absent.
  - destruct (get df "densidade_kg_m3"); [discriminate|]. simpl in Hsrc.
    rewrite G1, Hsrc. cbn [aliased option_map]. now rewrite normalized_column_absent.
  - destruct (get df "tensile_strength_MPa"); [discriminate|]. simpl in Hsrc.
    rewrite G2, Hsrc. cbn [aliased option_map]. now rewrite normalized_column_absent.
  - destruct (get df "thermal_conductivity_W_mK"); [discriminate|]. simpl in Hsrc.
    rewrite G3, Hsrc. cbn [aliased option_map]. now rewrite normalized_column_absent.
  - destruct (get df "reciclavel") eqn:E; [discriminate|].
    rewrite G4. unfold simnao. rewrite E. cbn [option_map].
    now rewrite normalized_column_absent.
  - destruct (get df "biodegradavel") eqn:E; [discriminate|].
    rewrite G5. unfold simnao. rewrite E. cbn [option_map].
    now rewrite normalized_column_absent.
  - destruct (get df "melting_point_C"); [discriminate|]. simpl in Hsrc.
    rewrite G6, Hsrc. cbn [aliased]. now rewrite normalized_column_absent.
Qed.

End NormalizerExtras.

Lemma mapear_valores_schema_witness :
  map fst (columns cenario1_normalizado)
  = filter (has_col cenario1) ["id"; "nome_material"] ++ features.
Proof.
  apply (mapear_valores_schema no_parse cenario1 cenario1_normalizado).
  vm_compute. reflexivity.
Defined.

Lemma missing_column_default_witness :
  get cenario1_normalizado "melting_point_C"
  = Some (SFloat (repeat (of_Z 300) (nrows cenario1))).
Proof.
  apply (missing_column_default no_parse cenario1 cenario1_normalizado
           "melting_point_C" 300).
  - unfold features. simpl. tauto.
  - reflexivity.
  - reflexivity.
  - vm_compute. reflexivity.
Defined.

(** ** The normaliser: recognised categories and imputation *)

Lemma dict_get_in {V : Type} (d : dict V) (k : text) (v : V) :
  dict_get d k = Some v -> In v (map snd d).
Proof.
  induction d as [|[k0 v0] d IH]; simpl; [discriminate|].
  destruct (text_eqb k k0); [intros [= ->]; now left | auto].
Qed.

Lemma all_some_unwrap (os : list (option Z)) :
  all_some os = true ->
  map (fun o => of_Z (match o with Some z => z | None => 0 end)) os
  = map (fun o => match o with Some z => of_Z z | None => NaN end) os.
Proof.
  unfold all_some. rewrite forallb_forall. intros H.
  apply map_ext_in. intros o Ho. specialize (H o Ho). now destruct o.
Qed.

(** *** The median stays within the values it is taken from *)

Lemma insert_sorted_Forall (P : flt -> Prop) (x : flt) (l : list flt) :
  P x -> Forall P l -> Forall P (insert_sorted x l).
Proof.
  intros Hx Hl. induction Hl as [|y l Hy Hl IH]; simpl.
  - now constructor.
  - destruct (Num.leb x y); constructor; auto.
Qed.

Lemma sort_Forall (P : flt -> Prop) (l : list flt) :
  Forall P l -> Forall P (Num.sort l).
Proof.
  induction 1 as [|x l Hx _ IH]; simpl; [constructor|].
  now apply insert_sorted_Forall.
Qed.

Lemma insert_sorted_length (x : flt) (l : list flt) :
  List.length (insert_sorted x l) = S (List.length l).
Proof.
  induction l as [|y l IH]; simpl; [reflexivity|].
  destruct (Num.leb x y); simpl; now rewrite ?IH.
Qed.

Lemma sort_length (l : list flt) : List.length (Num.sort l) = List.length l.
Proof.
  induction l as [|x l IH]; simpl; [reflexivity|].
  now rewrite insert_sorted_length, IH.
Qed.

Lemma mean2_within (lo hi : Q) (x y : flt) :
  within lo hi x -> within lo hi y -> within lo hi (mean2 x y).
Proof.
  intros (a & -> & Ha) (b & -> & Hb). simpl. unfold fin.
  eexists. split; [reflexivity|].
  rewrite Qred_correct. split.
  - apply Qle_shift_div_l; [reflexivity | lra].
  - apply Qle_shift_div_r; [reflexivity | lra].
Qed.

Lemma median_within (lo hi : Q) (l : list flt) :
  (forall y, In y l -> isnan y = false -> within lo hi y) ->
  (exists y, In y l /\ isnan y = false) ->
  within lo hi (median l).
Proof.
  intros Hall (y0 & Hy0 & Hn0). unfold median.
  set (s := Num.sort (dropna l)).
  assert (Hs : Forall (within lo hi) s).
  { apply sort_Forall. apply Forall_forall. intros y Hy.
    unfold dropna in Hy. apply filter_In in Hy as [Hy Hn].
    apply Hall; [assumption|]. now destruct (isnan y). }
  assert (Hlen : (1 <= List.length s)%nat).
  { unfold s. rewrite sort_length.
    assert (Hin : In y0 (dropna l)).
    { unfold dropna. apply filter_In. split; [assumption | now rewrite Hn0]. }
    destruct (dropna l); [contradiction | simpl; lia]. }
  assert (Hnth : forall i, (i < List.length s)%nat -> within lo hi (nth i s NaN)).
  { intros i Hi. rewrite Forall_forall in Hs. apply Hs. now apply nth_In. }
  destruct (List.length s) as [|n] eqn:En; [lia|].
  destruct (Nat.even (S n)) eqn:Ev.
  - assert (Hn : (2 <= S n)%nat).
    { destruct n; [discriminate | lia]. }
    assert (Hd : (S n / 2 < S n)%nat) by (apply Nat.div_lt; lia).
    apply mean2_within; apply Hnth; lia.
  - apply Hnth. apply Nat.div_lt; lia.
Qed.

Lemma median_no_value (l : list flt) :
  (forall y, In y l -> isnan y = true) -> median l = NaN.
Proof.
  intros H. unfold median.
  assert (E : dropna l = []).
  { unfold dropna. induction l as [|y l IH]; [reflexivity|].
    simpl. rewrite (H y (or_introl eq_refl)). simpl.
    apply IH. intros z Hz. apply H. now right. }
  now rewrite E.
Qed.

Lemma within_not_nan (lo hi : Q) (x : flt) : within lo hi x -> isnan x = false.
Proof. now intros (q & -> & _). Qed.

(** The value imputed in a column: within the range of its values, or the
    default when it has none. *)
Lemma fill_value_within (d : Z) (lo hi : Q) (l : list flt) :
  (forall y, In y l -> isnan y = false -> within lo hi y) ->
  (exists y, In y l /\ isnan y = false) ->
  within lo hi (fill_value d l).
Proof.
  intros Hall Hex. pose proof (median_within lo hi l Hall Hex) as Hm.
  unfold fill_value. now rewrite (within_not_nan lo hi _ Hm).
Qed.

Lemma fill_value_default (d : Z) (l : list flt) :
  (forall y, In y l -> isnan y = true) -> fill_value d l = of_Z d.
Proof.
  intros H. unfold fill_value. now rewrite (median_no_value l H).
Qed.

Section NormalizerValues.

Variable parse_numeric : text -> flt.

(** The values of a column obtained through a map with integer values:
    the mapped value where the cell is recognised, the imputed value
    elsewhere. *)
Lemma floats_mapped_int (d : Z) (n : nat) (os : list (option Z)) :
  floats (normalized_column parse_numeric d n (Some (infer_int os)))
  = map (fun o => match o with
                  | Some z => of_Z z
                  | None =>
                    fill_value d
                      (map (fun o => match o with
                                     | Some z => of_Z z
                                     | None => NaN
                                     end) os)
                  end) os.
Proof.
  unfold normalized_column, infer_int.
  destruct os as [|o os]; [reflexivity|].
  destruct (all_some (o :: os)) eqn:E.
  - cbn [to_numeric]. unfold fill_col. cbn [has_na floats].
    rewrite map_map, (all_some_unwrap _ E).
    apply map_ext_in. intros x Hx.
    unfold all_some in E. rewrite forallb_forall in E.
    specialize (E x Hx). now destruct x.
  - cbn [to_numeric]. rewrite floats_fill_col_float, map_map.
    apply map_ext. intros [z|]; reflexivity.
Qed.

Lemma floats_mapped_float (d : Z) (n : nat) (os : list (option Q)) :
  floats (normalized_column parse_numeric d n (Some (infer_float os)))
  = map (fun o => match o with
                  | Some q => Fin q
                  | None =>
                    fill_value d
                      (map (fun o => match o with
                                     | Some q => Fin q
                                     | None => NaN
                                     end) os)
                  end) os.
Proof.
  unfold normalized_column, infer_float.
  destruct os as [|o os]; [reflexivity|].
  cbn [to_numeric]. rewrite floats_fill_col_float, map_map.
  apply map_ext. intros [q|]; reflexivity.
Qed.

Lemma mapped_int_cell (dct : dict Z) (d : Z) (n : nat) (src : Series)
  (i : nat) (v : pyval) (z : Z) :
  nth_error (cells src) i = Some v ->
  lookup_cell dct v = Some z ->
  nth_error
    (floats (normalized_column parse_numeric d n (Some (map_str_int dct src)))) i
  = Some (of_Z z).
Proof.
  intros Hi Hv. unfold map_str_int.
  rewrite floats_mapped_int, nth_error_map, nth_error_map, Hi.
  cbn [option_map]. now rewrite Hv.
Qed.

Lemma mapped_float_cell (dct : dict Q) (d : Z) (n : nat) (src : Series)
  (i : nat) (v : pyval) (q : Q) :
  nth_error (cells src) i = Some v ->
  lookup_cell dct v = Some q ->
  nth_error
    (floats (normalized_column parse_numeric d n (Some (map_str_float dct src)))) i
  = Some (Fin q).
Proof.
  intros Hi Hv. unfold map_str_float.
  rewrite floats_mapped_float, nth_error_map, nth_error_map, Hi.
  cbn [option_map]. now rewrite Hv.
Qed.

(** *** Row by row *)

Lemma floats_read_numeric (d : Z) (n : nat) (raw : Series) :
  floats (normalized_column parse_numeric d n (Some raw))
  = map (fun v =>
           if isnan (to_numeric_cell parse_numeric v)
           then fill_value d (map (to_numeric_cell parse_numeric) (cells raw))
           else to_numeric_cell parse_numeric v)
        (cells raw).
Proof.
  unfold normalized_column.
  rewrite floats_fill_col by apply to_numeric_not_obj.
  now rewrite floats_to_numeric, map_map.
Qed.

Lemma floats_read_int (dct : dict Z) (d : Z) (n : nat) (src : Series) :
  floats (normalized_column parse_numeric d n (Some (map_str_int dct src)))
  = map (fun v =>
           if isnan (mapped_int dct v)
           then fill_value d (map (mapped_int dct) (cells src))
           else mapped_int dct v)
        (cells src).
Proof.
  unfold map_str_int. rewrite floats_mapped_int, !map_map.
  apply map_ext. intros v. unfold mapped_int.
  now destruct (lookup_cell dct v).
Qed.

Lemma floats_read_float (dct : dict Q) (d : Z) (n : nat) (src : Series) :
  floats (normalized_column parse_numeric d n (Some (map_str_float dct src)))
  = map (fun v =>
           if isnan (mapped_float dct v)
           then fill_value d (map (mapped_float dct) (cells src))
           else mapped_float dct v)
        (cells src).
Proof.
  unfold map_str_float. rewrite floats_mapped_float, !map_map.
  apply map_ext. intros v. unfold mapped_float.
  now destruct (lookup_cell dct v).
Qed.

Lemma floats_read_custo (d : Z) (n : nat) (l : list pyval) :
  floats (normalized_column parse_numeric d n
            (Some (infer_int
                     (map (fun v => match v with
                                    | VStr s => dict_get _MAP_CUSTO (lower (strip s))
                                    | _ => None
                                    end) l))))
  = map (fun v =>
           if isnan (custo_cell v)
           then fill_value d (map custo_cell l)
           else custo_cell v) l.
Proof.
  rewrite floats_mapped_int, !map_map. cbv beta.
  assert (E : map (fun x => match match x with
                                  | VStr s => dict_get _MAP_CUSTO (lower (strip s))
                                  | _ => None
                                  end with
                            | Some z => of_Z z
                            | None => NaN
                            end) l
              = map custo_cell l).
  { apply map_ext. intros v. symmetry. apply custo_cell_spec. }
  rewrite E. apply map_ext. intros v. rewrite custo_cell_spec.
  now destruct (match v with
                | VStr s => dict_get _MAP_CUSTO (lower (strip s))
                | _ => None
                end).
Qed.

(** A column read from [cur] when the table has it, else through the map
    [g] from [alt]. *)
Lemma floats_read_aliased (g : Series -> Series) (h : pyval -> flt)
  (d : Z) (n : nat) (cur alt : option Series) :
  (forall src,
     floats (normalized_column parse_numeric d n (Some (g src)))
     = map (fun v => if isnan (h v) then fill_value d (map h (cells src))
                     else h v) (cells src)) ->
  match aliased cur alt with
  | Some src =>
    floats (normalized_column parse_numeric d n (aliased cur (option_map g alt)))
    = map (fun v =>
             let y := (match cur with
                       | Some _ => to_numeric_cell parse_numeric
                       | None => h
                       end) v in
             if isnan y
             then fill_value d
                    (map (match cur with
                          | Some _ => to_numeric_cell parse_numeric
                          | None => h
                          end) (cells src))
             else y) (cells src)
  | None =>
    floats (normalized_column parse_numeric d n (aliased cur (option_map g alt)))
    = repeat (of_Z d) n
  end.
Proof.
  intros Hg. destruct cur as [s|]; cbn [aliased].
  - apply floats_read_numeric.
  - destruct alt as [s|]; cbn [option_map].
    + apply Hg.
    + now rewrite normalized_column_absent.
Qed.

(** C7: for every raw table, the table [mapear_valores] returns has the
    row count of the input and its rows in the same order.  The identity
    columns are the columns of the input; every column of the result has
    one cell per input row; and in each canonical column the value in row
    [i] is [row_value] of the cell in row [i] of the input column the
    feature is read from: what the normaliser reads in that cell, or the
    one value imputed in the column when it reads nothing there.  The
    reading is the same function for every row of the table. *)
Theorem C7_rows_preserved (df out : DataFrame) :
  wf df ->
  mapear_valores parse_numeric df = Ok out ->
  nrows out = nrows df
  /\ wf out
  /\ get out "id" = get df "id"
  /\ get out "nome_material" = get df "nome_material"
  /\ forall f d, In f features -> defaults_get defaults f = Ok d ->
       exists s,
         get out f = Some s /\ series_len s = nrows df
         /\ match source_column df f with
            | Some src =>
              floats s = map (row_value parse_numeric df f d src) (cells src)
              /\ forall i v, nth_error (cells src) i = Some v ->
                   nth_error (floats s) i
                   = Some (row_value parse_numeric df f d src v)
            | None => floats s = repeat (of_Z d) (nrows df)
            end.
Proof.
  intros Hwf H.
  assert (Hcomp : forall f, In f features ->
            exists s, get out f = Some s /\ series_len s = nrows df).
  { intros f Hf.
    destruct (mapear_valores_normalized parse_numeric df out Hwf H f Hf)
      as (d & r & Hg & Hr).
    eexists. split; [exact Hg|].
    now apply normalized_column_complete. }
  destruct (mapear_valores_columns parse_numeric df out H)
    as (custo & Hc & Hn & Hid & Hnm & G0 & G1 & G2 & G3 & G4 & G5 & G6 & Hcols).
  split; [assumption|]. split; [|split; [assumption|split; [assumption|]]].
  - unfold wf. rewrite Hcols, Hn. apply Forall_app. split.
    + now apply id_columns_wf.
    + apply Forall_forall. intros [n s] Hin. apply in_map_iff in Hin as (f & E & Hf).
      injection E as <- <-. simpl.
      destruct (Hcomp f Hf) as (s & Hs & Hlen).
      unfold synth. now rewrite Hs.
  - assert (Hrows : forall (s : Series) (src : Series) (h : pyval -> flt),
              floats s = map h (cells src) ->
              floats s = map h (cells src)
              /\ forall i v, nth_error (cells src) i = Some v ->
                   nth_error (floats s) i = Some (h v)).
    { intros s src h E. split; [exact E|]. intros i v Hi.
      now rewrite E, nth_error_map, Hi. }
    assert (Hlen : forall f s, In f features -> get out f = Some s ->
                     series_len s = nrows df).
    { intros f s Hf Hs. destruct (Hcomp f Hf) as (s' & Hs' & Hl).
      congruence. }
    intros f d Hf. revert d. pattern f. revert f Hf.
    apply feature_cases; cbv beta; intros d Hd;
      cbn in Hd; injection Hd as <-.
    + (* custo_index *)
      eexists. split; [exact G0|]. split.
      * apply (Hlen "custo_index"); [unfold features; simpl; tauto | exact G0].
      * unfold source_column, row_value, reading, custo_index_raw, has_col in *.
        cbn [String.eqb Ascii.eqb Bool.eqb orb] in *.
        destruct (get df "custo_index") as [s|] eqn:E1; cbn [aliased].
        -- injection Hc as <-. apply Hrows. apply floats_read_numeric.
        -- destruct (get df "custo") as [s|] eqn:E2.
           ++ unfold _map_col_if_exists in Hc. rewrite E2 in Hc.
              destruct s as [l|l|l|l];
                try (injection Hc as <-; apply Hrows;
                     apply floats_read_numeric).
              destruct (mapM (strip_lower_get _MAP_CUSTO) l) as [r|] eqn:Em;
                [|discriminate].
              injection Hc as <-.
              apply mapM_strip_lower_get_map in Em as [_ ->].
              apply Hrows. apply floats_read_custo.
           ++ injection Hc as <-. now rewrite normalized_column_absent.
    + (* densidade_kg_m3 *)
      eexists. split; [exact G1|]. split.
      * apply (Hlen "densidade_kg_m3"); [unfold features; simpl; tauto | exact G1].
      * pose proof (floats_read_aliased (map_str_int dens_map)
                      (mapped_int dens_map) 2000 (nrows df)
                      (get df "densidade_kg_m3") (get df "peso")
                      (fun src => floats_read_int dens_map 2000 (nrows df) src))
          as Ha.
        unfold source_column, row_value, reading, has_col.
        cbn [String.eqb Ascii.eqb Bool.eqb orb].
        destruct (get df "densidade_kg_m3") as [s|]; cbn [aliased] in *.
        -- now apply Hrows.
        -- destruct (get df "peso") as [s|]; [now apply Hrows | exact Ha].
    + (* tensile_strength_MPa *)
      eexists. split; [exact G2|]. split.
      * apply (Hlen "tensile_strength_MPa"); [unfold features; simpl; tauto | exact G2].
      * pose proof (floats_read_aliased (map_str_float res_map)
                      (mapped_float res_map) 50 (nrows df)
                      (get df "tensile_strength_MPa") (get df "resistencia")
                      (fun src => floats_read_float res_map 50 (nrows df) src))
          as Ha.
        unfold source_column, row_value, reading, has_col.
        cbn [String.eqb Ascii.eqb Bool.eqb orb].
        destruct (get df "tensile_strength_MPa") as [s|]; cbn [aliased] in *.
        -- now apply Hrows.
        -- destruct (get df "resistencia") as [s|]; [now apply Hrows | exact Ha].
    + (* thermal_conductivity_W_mK *)
      eexists. split; [exact G3|]. split.
      * apply (Hlen "thermal_conductivity_W_mK");
          [unfold features; simpl; tauto | exact G3].
      * pose proof (floats_read_aliased (map_str_float cond_map)
                      (mapped_float cond_map) 1 (nrows df)
                      (get df "thermal_conductivity_W_mK")
                      (get df "condutividade")
                      (fun src => floats_read_float cond_map 1 (nrows df) src))
          as Ha.
        unfold source_column, row_value, reading, has_col.
        cbn [String.eqb Ascii.eqb Bool.eqb orb].
        destruct (get df "thermal_conductivity_W_mK") as [s|];
          cbn [aliased] in *.
        -- now apply Hrows.
        -- destruct (get df "condutividade") as [s|];
             [now apply Hrows | exact Ha].
    + (* reciclavel *)
      eexists. split; [exact G4|]. split.
      * apply (Hlen "reciclavel"); [unfold features; simpl; tauto | exact G4].
      * unfold source_column, row_value, reading, simnao.
        cbn [String.eqb Ascii.eqb Bool.eqb orb].
        destruct (get df "reciclavel") as [s|]; cbn [aliased option_map].
        -- apply Hrows. apply floats_read_int.
        -- now rewrite normalized_column_absent.
    + (* biodegradavel *)
      eexists. split; [exact G5|]. split.
      * apply (Hlen "biodegradavel"); [unfold features; simpl; tauto | exact G5].
      * unfold source_column, row_value, reading, simnao.
        cbn [String.eqb Ascii.eqb Bool.eqb orb].
        destruct (get df "biodegradavel") as [s|]; cbn [aliased option_map].
        -- apply Hrows. apply floats_read_int.
        -- now rewrite normalized_column_absent.
    + (* melting_point_C *)
      eexists. split; [exact G6|]. split.
      * apply (Hlen "melting_point_C"); [unfold features; simpl; tauto | exact G6].
      * unfold source_column, row_value, reading, has_col.
        cbn [String.eqb Ascii.eqb Bool.eqb orb].
        destruct (get df "melting_point_C") as [s|]; cbn [aliased].
        -- apply Hrows. apply floats_read_numeric.
        -- destruct (get df "temperatura_max") as [s|].
           ++ apply Hrows. apply floats_read_numeric.
           ++ now rewrite normalized_column_absent.
Qed.

(** X4: where the canonical column is absent and the legacy column is
    there, a row whose cell of 'peso', 'resistencia' or 'condutividade',
    trimmed and lowercased, is a key of the map of that column gets the
    mapped value, whatever the other rows hold. *)
Theorem alias_recognised_value (df out : DataFrame) (i : nat) :
  mapear_valores parse_numeric df = Ok out ->
  (forall src s z,
     get df "densidade_kg_m3" = None -> get df "peso" = Some src ->
     nth_error (cells src) i = Some (VStr s) ->
     dict_get dens_map (lower (strip s)) = Some z ->
     exists col, get out "densidade_kg_m3" = Some col
                 /\ nth_error (floats col) i = Some (of_Z z))
  /\ (forall src s q,
        get df "tensile_strength_MPa" = None ->
        get df "resistencia" = Some src ->
        nth_error (cells src) i = Some (VStr s) ->
        dict_get res_map (lower (strip s)) = Some q ->
        exists col, get out "tensile_strength_MPa" = Some col
                    /\ nth_error (floats col) i = Some (Fin q))
  /\ (forall src s q,
        get df "thermal_conductivity_W_mK" = None ->
        get df "condutividade" = Some src ->
        nth_error (cells src) i = Some (VStr s) ->
        dict_get cond_map (lower (strip s)) = Some q ->
        exists col, get out "thermal_conductivity_W_mK" = Some col
                    /\ nth_error (floats col) i = Some (Fin q)).
Proof.
  intros H.
  destruct (mapear_valores_columns parse_numeric df out H)
    as (custo & _ & _ & _ & _ & _ & G1 & G2 & G3 & _).
  repeat split.
  - intros src s z Hn Hs Hi Hk. rewrite Hn, Hs in G1. cbn [aliased option_map] in G1.
    eexists. split; [exact G1|]. now apply (mapped_int_cell _ _ _ _ _ (VStr s)).
  - intros src s q Hn Hs Hi Hk. rewrite Hn, Hs in G2. cbn [aliased option_map] in G2.
    eexists. split; [exact G2|]. now apply (mapped_float_cell _ _ _ _ _ (VStr s)).
  - intros src s q Hn Hs Hi Hk. rewrite Hn, Hs in G3. cbn [aliased option_map] in G3.
    eexists. split; [exact G3|]. now apply (mapped_float_cell _ _ _ _ _ (VStr s)).
Qed.

(** X5: a cell of 'reciclavel' or 'biodegradavel' whose text, trimmed and
    lowercased, is a key of the yes/no map ("sim", "não", "nao", "1", "0")
    gives the value of the map in its row, and that value is 0 or 1. *)
Theorem simnao_recognised_value
  (df out : DataFrame) (c : string) (src : Series) (i : nat) (v : pyval) (z : Z) :
  c = "reciclavel" \/ c = "biodegradavel" ->
  get df c = Some src ->
  nth_error (cells src) i = Some v ->
  lookup_cell _MAP_SIMNAO v = Some z ->
  mapear_valores parse_numeric df = Ok out ->
  (z = 0 \/ z = 1)
  /\ exists col, get out c = Some col
                 /\ nth_error (floats col) i = Some (of_Z z).
Proof.
  intros Hc Hs Hi Hv H. split.
  - unfold lookup_cell in Hv. destruct (str_key v) as [k|]; [|discriminate].
    apply dict_get_in in Hv. simpl in Hv. intuition lia.
  - destruct (mapear_valores_columns parse_numeric df out H)
      as (custo & _ & _ & _ & _ & _ & _ & _ & _ & G4 & G5 & _).
    unfold simnao in G4, G5.
    destruct Hc as [-> | ->]; rewrite Hs in *; cbn [option_map] in *.
    + eexists. split; [exact G4|]. now apply (mapped_int_cell _ _ _ _ _ v).
    + eexists. split; [exact G5|]. now apply (mapped_int_cell _ _ _ _ _ v).
Qed.

(** X6: where 'custo_index' comes from a 'custo' column of strings, a row
    whose cell, trimmed and lowercased, is a key of the cost map gets the
    ordinal of the map, between 0 and 4. *)
Theorem custo_recognised_value
  (df out : DataFrame) (l : list pyval) (i : nat) (s : text) (z : Z) :
  get df "custo_index" = None ->
  get df "custo" = Some (SObj l) ->
  nth_error l i = Some (VStr s) ->
  dict_get _MAP_CUSTO (lower (strip s)) = Some z ->
  mapear_valores parse_numeric df = Ok out ->
  0 <= z <= 4
  /\ exists col, get out "custo_index" = Some col
                 /\ nth_error (floats col) i = Some (of_Z z).
Proof.
  intros H1 H2 Hi Hk H. split.
  - apply dict_get_in in Hk. simpl in Hk. intuition lia.
  - destruct (mapear_valores_columns parse_numeric df out H)
      as (custo & Hc & _ & _ & _ & G0 & _).
    unfold custo_index_raw, _map_col_if_exists in Hc. rewrite H1, H2 in Hc.
    destruct (mapM (strip_lower_get _MAP_CUSTO) l) as [r|] eqn:Em; [|discriminate].
    injection Hc as <-.
    apply mapM_strip_lower_get_map in Em as [_ ->].
    eexists. split; [exact G0|].
    rewrite floats_mapped_int, nth_error_map, nth_error_map, Hi.
    cbn [option_map]. now rewrite Hk.
Qed.

(** X7: in a non-boolean canonical column that the raw table has as
    floats, the missing cells, and only they, are replaced by one value:
    the median of the other cells, which lies between the smallest and the
    largest of them, or the default of the field when every cell is
    missing. *)
Theorem numeric_column_imputation
  (df out : DataFrame) (f : string) (d : Z) (l : list flt) :
  In f non_boolean_features ->
  defaults_get defaults f = Ok d ->
  get df f = Some (SFloat l) ->
  mapear_valores parse_numeric df = Ok out ->
  get out f
  = Some (SFloat (map (fun y => if isnan y then fill_value d l else y) l))
  /\ (forall lo hi,
        (forall y, In y l -> isnan y = false -> within lo hi y) ->
        (exists y, In y l /\ isnan y = false) ->
        within lo hi (fill_value d l))
  /\ ((forall y, In y l -> isnan y = true) -> fill_value d l = of_Z d).
Proof.
  intros Hf Hd Hs H.
  split; [|split; [intros lo hi; apply fill_value_within
                   | apply fill_value_default]].
  destruct (mapear_valores_columns parse_numeric df out H)
    as (custo & Hc & _ & _ & _ & G0 & G1 & G2 & G3 & _ & _ & G6 & _).
  assert (Hcol : forall d',
            normalized_column parse_numeric d' (nrows df) (Some (SFloat l))
            = SFloat (map (fun y => if isnan y then fill_value d' l else y) l)).
  { intros d'. unfold normalized_column. cbn [to_numeric].
    pose proof (floats_fill_col_float d' l) as E.
    unfold fill_col in *. cbn [has_na] in *.
    destruct (existsb isnan l); [|exact (f_equal SFloat E)].
    destruct (isnan (median (floats (SFloat l)))); exact (f_equal SFloat E). }
  unfold non_boolean_features in Hf. simpl in Hf.
  destruct Hf as [<-|[<-|[<-|[<-|[<-|[]]]]]]; cbn in Hd; injection Hd as <-.
  - unfold custo_index_raw in Hc. rewrite Hs in Hc. injection Hc as <-.
    now rewrite G0, Hcol.
  - now rewrite G1, Hs, <- Hcol.
  - now rewrite G2, Hs, <- Hcol.
  - now rewrite G3, Hs, <- Hcol.
  - now rewrite G6, Hs, <- Hcol.
Qed.

(** X8: a 'reciclavel' or 'biodegradavel' column that is already numeric
    is sent through its text: a column of integers 0 and 1 comes out as it
    is, but in a column of floats or of booleans no text is a key of the
    yes/no map, so every row gets the default of the field (1 for
    'reciclavel', 0 for 'biodegradavel'), whatever it held. *)
Theorem numeric_boolean_column (df out : DataFrame) (c : string) (d : Z) :
  (c = "reciclavel" /\ d = 1) \/ (c = "biodegradavel" /\ d = 0) ->
  mapear_valores parse_numeric df = Ok out ->
  (forall l, get df c = Some (SFloat l) ->
     get out c = Some (SFloat (map (fun _ => of_Z d) l)))
  /\ (forall l, get df c = Some (SBool l) ->
        get out c = Some (SFloat (map (fun _ => of_Z d) l)))
  /\ (forall l, get df c = Some (SInt l) -> l <> [] ->
        forallb (fun z => (z =? 0) || (z =? 1)) l = true ->
        get out c = Some (SInt l)).
Proof.
  intros Hc H.
  destruct (mapear_valores_columns parse_numeric df out H)
    as (custo & _ & _ & _ & _ & _ & _ & _ & _ & G4 & G5 & _).
  unfold simnao in G4, G5.
  assert (Hg : forall s, get df c = Some s ->
            get out c = Some (simnao_column parse_numeric d (nrows df) s)).
  { intros s Hs. unfold simnao_column.
    destruct Hc as [[-> ->]|[-> ->]]; rewrite Hs in *; assumption. }
  repeat split.
  - intros l Hl. now rewrite (Hg _ Hl), simnao_column_float.
  - intros l Hl. now rewrite (Hg _ Hl), simnao_column_bool.
  - intros l Hl Hne H01. now rewrite (Hg _ Hl), simnao_column_int01.
Qed.

End NormalizerValues.

Lemma C7_rows_preserved_witness :
  nrows cenario1_normalizado = nrows cenario1
  /\ wf cenario1_normalizado
  /\ get cenario1_normalizado "id" = get cenario1 "id"
  /\ get cenario1_normalizado "nome_material" = get cenario1 "nome_material"
  /\ forall f d, In f features -> defaults_get defaults f = Ok d ->
       exists s,
         get cenario1_normalizado f = Some s
         /\ series_len s = nrows cenario1
         /\ match source_column cenario1 f with
            | Some src =>
              floats s = map (row_value no_parse cenario1 f d src) (cells src)
              /\ forall i v, nth_error (cells src) i = Some v ->
                   nth_error (floats s) i
                   = Some (row_value no_parse cenario1 f d src v)
            | None => floats s = repeat (of_Z d) (nrows cenario1)
            end.
Proof.
  apply (C7_rows_preserved no_parse cenario1 cenario1_normalizado).
  - repeat constructor.
  - vm_compute. reflexivity.
Defined.

(** The values are tied to their rows: in the example the density column
    is read from 'peso' as 1000 then 5000, and not in the other order. *)
Lemma row_value_example :
  source_column cenario1 "densidade_kg_m3"
  = Some (SObj [VStr (u "leve"); VStr (u "medio")])
  /\ map (row_value no_parse cenario1 "densidade_kg_m3" 2000
            (SObj [VStr (u "leve"); VStr (u "medio")]))
         [VStr (u "leve"); VStr (u "medio")]
     = [of_Z 1000; of_Z 5000]
  /\ [of_Z 1000; of_Z 5000] <> [of_Z 5000; of_Z 1000].
Proof. repeat split; try (vm_compute; reflexivity). discriminate. Qed.

Lemma alias_recognised_value_witness :
  (forall src s z,
     get cenario1 "densidade_kg_m3" = None -> get cenario1 "peso" = Some src ->
     nth_error (cells src) 0 = Some (VStr s) ->
     dict_get dens_map (lower (strip s)) = Some z ->
     exists col, get cenario1_normalizado "densidade_kg_m3" = Some col
                 /\ nth_error (floats col) 0 = Some (of_Z z))
  /\ (forall src s q,
        get cenario1 "tensile_strength_MPa" = None ->
        get cenario1 "resistencia" = Some src ->
        nth_error (cells src) 0 = Some (VStr s) ->
        dict_get res_map (lower (strip s)) = Some q ->
        exists col, get cenario1_normalizado "tensile_strength_MPa" = Some col
                    /\ nth_error (floats col) 0 = Some (Fin q))
  /\ (forall src s q,
        get cenario1 "thermal_conductivity_W_mK" = None ->
        get cenario1 "condutividade" = Some src ->
        nth_error (cells src) 0 = Some (VStr s) ->
        dict_get cond_map (lower (strip s)) = Some q ->
        exists col, get cenario1_normalizado "thermal_conductivity_W_mK" = Some col
                    /\ nth_error (floats col) 0 = Some (Fin q)).
Proof.
  apply (alias_recognised_value no_parse cenario1 cenario1_normalizado 0).
  vm_compute. reflexivity.
Defined.

Lemma simnao_recognised_value_witness :
  (0 = 0 \/ 0 = 1)
  /\ exists col, get reciclavel_texto_normalizado "reciclavel" = Some col
                 /\ nth_error (floats col) 0 = Some (of_Z 0).
Proof.
  apply (simnao_recognised_value no_parse reciclavel_texto
           reciclavel_texto_normalizado "reciclavel"
           (SObj [VStr (u "Não"); VStr (u " SIM ")]) 0 (VStr (u "Não")) 0).
  - left. reflexivity.
  - reflexivity.
  - reflexivity.
  - reflexivity.
  - vm_compute. reflexivity.
Defined.

Lemma custo_recognised_value_witness :
  0 <= 0 <= 4
  /\ exists col, get cenario1_normalizado "custo_index" = Some col
                 /\ nth_error (floats col) 0 = Some (of_Z 0).
Proof.
  apply (custo_recognised_value no_parse cenario1 cenario1_normalizado
           [VStr (u "baixo"); VStr (u "medio")] 0 (u "baixo") 0).
  - reflexivity.
  - reflexivity.
  - reflexivity.
  - reflexivity.
  - vm_compute. reflexivity.
Defined.

Lemma numeric_column_imputation_witness :
  get fora_de_faixa_normalizado "densidade_kg_m3"
  = Some (SFloat (map (fun y => if isnan y
                                then fill_value 2000 [Fin (-5); NaN] else y)
                      [Fin (-5); NaN]))
  /\ (forall lo hi,
        (forall y, In y [Fin (-5); NaN] -> isnan y = false -> within lo hi y) ->
        (exists y, In y [Fin (-5); NaN] /\ isnan y = false) ->
        within lo hi (fill_value 2000 [Fin (-5); NaN]))
  /\ ((forall y, In y [Fin (-5); NaN] -> isnan y = true) ->
      fill_value 2000 [Fin (-5); NaN] = of_Z 2000).
Proof.
  apply (numeric_column_imputation no_parse fora_de_faixa
           fora_de_faixa_normalizado "densidade_kg_m3" 2000 [Fin (-5); NaN]).
  - unfold non_boolean_features. simpl. tauto.
  - reflexivity.
  - reflexivity.
  - vm_compute. reflexivity.
Defined.

Lemma numeric_boolean_column_witness :
  (forall l, get reciclavel_float "reciclavel" = Some (SFloat l) ->
     get tabela_padrao_2 "reciclavel" = Some (SFloat (map (fun _ => of_Z 1) l)))
  /\ (forall l, get reciclavel_float "reciclavel" = Some (SBool l) ->
        get tabela_padrao_2 "reciclavel"
        = Some (SFloat (map (fun _ => of_Z 1) l)))
  /\ (forall l, get reciclavel_float "reciclavel" = Some (SInt l) -> l <> [] ->
        forallb (fun z => (z =? 0) || (z =? 1)) l = true ->
        get tabela_padrao_2 "reciclavel" = Some (SInt l)).
Proof.
  apply (numeric_boolean_column no_parse reciclavel_float tabela_padrao_2
           "reciclavel" 1).
  - left. split; reflexivity.
  - vm_compute. reflexivity.
Defined.

(** ** The text parser: totality and the range of each field *)

Lemma decimal_in_range (zs : list N) (c d : N) :
  decimal_in zs c = Some d -> (d <= 9)%N.
Proof.
  induction zs as [|z zs IH]; simpl; [discriminate|].
  destruct (N.ltb_spec c z); [discriminate|].
  destruct (N.leb_spec c (z + 9)); [|exact IH].
  intros [= <-]. lia.
Qed.

Lemma digit_val_range (c : N) : is_digit c = true -> 0 <= digit_val c <= 9.
Proof.
  unfold is_digit, digit_val, decimal.
  destruct (decimal_in decimal_zeros c) as [d|] eqn:E; [|discriminate].
  intros _. apply decimal_in_range in E. lia.
Qed.

Lemma fold_digits_bound (g : text) (acc : Z) :
  all_digits g -> 0 <= acc ->
  0 <= fold_left (fun a c => 10 * a + digit_val c) g acc
    < (acc + 1) * 10 ^ Z.of_nat (List.length g).
Proof.
  intros Hg. revert acc. induction Hg as [|c g Hc _ IH]; intros acc Hacc.
  - simpl. lia.
  - cbn [fold_left List.length]. apply digit_val_range in Hc.
    specialize (IH (10 * acc + digit_val c) ltac:(lia)).
    rewrite Nat2Z.inj_succ, Z.pow_succ_r by lia.
    assert (0 < 10 ^ Z.of_nat (List.length g)) by (apply Z.pow_pos_nonneg; lia).
    nia.
Qed.

Lemma digits_val_bound (g : text) :
  all_digits g -> 0 <= digits_val g < 10 ^ Z.of_nat (List.length g).
Proof.
  intros Hg. pose proof (fold_digits_bound g 0 Hg ltac:(lia)) as H.
  unfold digits_val. lia.
Qed.

Lemma digits_val_below (g : text) (n : nat) :
  all_digits g -> (List.length g <= n)%nat ->
  0 <= digits_val g <= 10 ^ Z.of_nat n - 1.
Proof.
  intros Hg Hn. pose proof (digits_val_bound g Hg) as H.
  assert (10 ^ Z.of_nat (List.length g) <= 10 ^ Z.of_nat n)
    by (apply Z.pow_le_mono_r; lia).
  lia.
Qed.

Lemma within_of_Z (lo hi z : Z) :
  lo <= z <= hi -> within (inject_Z lo) (inject_Z hi) (of_Z z).
Proof.
  intros H. exists (inject_Z z). split; [reflexivity|].
  rewrite <- !Zle_Qle. exact H.
Qed.

Lemma within_finite (lo hi : Q) (x : flt) : within lo hi x -> isfinite x = true.
Proof. now intros (q & -> & _). Qed.

Lemma Qred_inject_Z (z : Z) : Qred (inject_Z z) = inject_Z z.
Proof.
  unfold Qred, inject_Z.
  pose proof (Z.ggcd_gcd z 1) as Hg.
  pose proof (Z.ggcd_correct_divisors z 1) as Hd.
  destruct (Z.ggcd z 1) as [g [aa bb]]. cbn [fst snd] in *.
  rewrite Z.gcd_1_r in Hg. subst g. destruct Hd as [Ha Hb].
  assert (aa = z) as -> by lia. assert (bb = 1) as -> by lia.
  reflexivity.
Qed.

Lemma py_float_decimal_range (g : text) :
  decimal_number g ->
  exists q, py_float g = Ok (Fin q) /\ (0 <= q <= 10000)%Q.
Proof.
  intros (ip & Hip & Hlen & Hg).
  assert (Hne : ip <> []) by (intros ->; simpl in Hlen; lia).
  destruct Hg as [->|(fp & Hfp & Hfne & ->)].
  - rewrite py_float_digits by assumption.
    pose proof (digits_val_below ip 4 Hip ltac:(lia)) as Hb.
    exists (inject_Z (digits_val ip)). split; [reflexivity|].
    change 0%Q with (inject_Z 0). change 10000%Q with (inject_Z 10000).
    rewrite <- !Zle_Qle. simpl in Hb. lia.
  - destruct ip as [|c ip]; [contradiction|].
    assert (Hc : is_digit c = true) by now inversion Hip.
    assert (Hpy : py_float ((c :: ip) ++ u "." ++ fp)
                  = float_unsigned ((c :: ip) ++ 46%N :: fp)).
    { unfold py_float. simpl app.
      destruct (N.eq_dec c 45) as [->|Hn]; [discriminate|].
      destruct c as [|p]; [reflexivity|].
      repeat (destruct p as [p|p|]; try reflexivity); contradiction. }
    rewrite Hpy, float_unsigned_decimal by assumption.
    unfold fin. eexists. split; [reflexivity|].
    rewrite Qred_correct.
    assert (Hall : all_digits ((c :: ip) ++ fp)).
    { unfold all_digits. apply Forall_app. split; assumption. }
    pose proof (digits_val_bound _ Hall) as Hb.
    rewrite length_app, Nat2Z.inj_add, Z.pow_add_r in Hb by lia.
    assert (Hp : 0 < 10 ^ Z.of_nat (List.length fp))
      by (apply Z.pow_pos_nonneg; lia).
    assert (Hi : 10 ^ Z.of_nat (List.length (c :: ip)) <= 10 ^ 4)
      by (apply Z.pow_le_mono_r; lia).
    assert (HpQ : (0 < inject_Z (10 ^ Z.of_nat (List.length fp)))%Q).
    { change 0%Q with (inject_Z 0). rewrite <- Zlt_Qlt. exact Hp. }
    split.
    + apply Qle_shift_div_l; [exact HpQ|].
      rewrite Qmult_0_l. change 0%Q with (inject_Z 0).
      rewrite <- Zle_Qle. lia.
    + apply Qle_shift_div_r; [exact HpQ|].
      change 10000%Q with (inject_Z 10000).
      rewrite <- inject_Z_mult, <- Zle_Qle.
      change (10 ^ 4) with 10000 in Hi. nia.
Qed.

(** *** What each search captures *)

Lemma search_kg_m3_range (t : text) (m : captures) :
  search re_kg_m3 t = Some m ->
  exists x, group1_float m = Ok x /\ within 0 99999 x.
Proof.
  intros H. destruct (search_kg_m3_value t m H) as (g & Hat & _ & ->).
  destruct Hat as (n & pre & s & _ & _ & ws & unit & post & _ & Hd & Hl & _).
  eexists. split; [reflexivity|].
  apply (within_of_Z 0 99999).
  pose proof (digits_val_below g 5 Hd ltac:(lia)) as Hb. simpl in Hb. lia.
Qed.

Lemma search_g_cm3_range (t : text) (m : captures) :
  search re_g_cm3 t = Some m ->
  exists x, group1_float m = Ok x /\ within 0 10000000 (scale x (1000 # 1)%Q).
Proof.
  intros H. destruct (search_g_cm3_value t m H) as (g & x & Hat & _ & Hpy & ->).
  destruct Hat as (n & pre & s & _ & _ & ws & unit & post & _ & Hdec & _).
  destruct (py_float_decimal_range g Hdec) as (q & Hq & Hr).
  assert (x = Fin q) as -> by congruence.
  eexists. split; [reflexivity|].
  simpl. unfold fin. eexists. split; [reflexivity|].
  rewrite Qred_correct. split; nra.
Qed.

Lemma search_mpa_range (t : text) (m : captures) :
  search re_mpa t = Some m ->
  exists x, group1_float m = Ok x /\ within 0 9999 x.
Proof.
  intros H. apply search_some in H as (pre & s0 & -> & H).
  unfold re_mpa in H.
  apply match_here_group1 in H as (g & w2 & post & -> & Lg & _ & Hg).
  2:{ simpl. intros [E|[]]. discriminate. }
  apply lang_rep_inv in Lg as [Hd Hl].
  unfold group1_float. rewrite Hg. rewrite py_float_digits.
  - eexists. split; [reflexivity|]. apply (within_of_Z 0 9999).
    pose proof (digits_val_below g 4 Hd ltac:(lia)) as Hb. simpl in Hb. lia.
  - assumption.
  - intros ->. simpl in Hl. lia.
Qed.

Lemma search_w_mk_range (t : text) (m : captures) :
  search re_w_mk t = Some m ->
  exists x, group1_float m = Ok x /\ within 0 10000 x.
Proof.
  intros H. apply search_some in H as (pre & s0 & -> & H).
  unfold re_w_mk in H.
  apply match_here_group1 in H as (g & w2 & post & -> & Lg & _ & Hg).
  2:{ simpl. intros [E|[]]. discriminate. }
  apply lang_decimal_inv in Lg.
  destruct (py_float_decimal_range g Lg) as (q & Hq & Hr).
  unfold group1_float. rewrite Hg, Hq.
  eexists. split; [reflexivity|]. now exists q.
Qed.

Lemma lang_opt_char_inv (c : N) (w : text) :
  lang (RRep (is_char c) 0 (Some 1%nat)) w -> w = [] \/ w = [c].
Proof.
  intros L. apply lang_rep_inv in L as [Hs Hl].
  destruct w as [|x w]; [now left|]. right.
  destruct w; [|simpl in Hl; lia].
  inversion Hs as [|? ? Hx _]. unfold is_char in Hx.
  apply N.eqb_eq in Hx. now subst.
Qed.

Lemma py_float_signed (sign ds : text) :
  sign = [] \/ sign = u "-" -> all_digits ds -> ds <> [] ->
  py_float (sign ++ ds) = Ok (of_Z (signed_val (sign ++ ds))).
Proof.
  intros [->| ->] Hd Hne.
  - simpl app. rewrite py_float_digits by assumption.
    unfold signed_val. destruct ds as [|c ds]; [contradiction|].
    assert (Hc : is_digit c = true) by now inversion Hd.
    destruct (N.eq_dec c 45) as [->|Hn]; [discriminate|].
    destruct c as [|p]; [reflexivity|].
    repeat (destruct p as [p|p|]; try reflexivity); contradiction.
  - change (u "-" ++ ds) with (45%N :: ds). cbn [py_float signed_val].
    rewrite float_unsigned_digits by assumption. cbn [bind of_Z].
    unfold fin.
    change (- inject_Z (digits_val ds))%Q with (inject_Z (- digits_val ds)).
    now rewrite Qred_inject_Z.
Qed.

Lemma signed_val_range (sign ds : text) :
  sign = [] \/ sign = u "-" -> all_digits ds -> (List.length ds <= 4)%nat ->
  -9999 <= signed_val (sign ++ ds) <= 9999.
Proof.
  intros Hs Hd Hl.
  pose proof (digits_val_below ds 4 Hd Hl) as Hb. simpl in Hb.
  destruct Hs as [->| ->].
  - simpl app. unfold signed_val. destruct ds as [|c ds]; [simpl; lia|].
    assert (Hc : is_digit c = true) by now inversion Hd.
    destruct (N.eq_dec c 45) as [->|Hn]; [discriminate|].
    destruct c as [|p]; [lia|].
    repeat (destruct p as [p|p|]; try lia).
  - change (u "-" ++ ds) with (45%N :: ds). cbn [signed_val]. lia.
Qed.

Lemma temp_here_lang (s g : text) :
  temp_here s g -> exists w post, s = w ++ post /\ lang re_temp w.
Proof.
  intros (sign & ds & ws1 & deg & ws2 & post
          & -> & -> & Hs & Hd & Hl & Hw1 & Hdeg & Hw2).
  exists ((sign ++ ds) ++ ws1 ++ deg ++ ws2 ++ u "c"), post. split.
  - now rewrite <- !app_assoc.
  - unfold re_temp. constructor.
    + constructor. constructor.
      * constructor.
        -- destruct Hs as [->| ->]; repeat constructor.
        -- lia.
        -- intros h [= <-]. destruct Hs as [->| ->]; simpl; lia.
      * constructor; [assumption | lia |]. intros h [= <-]. lia.
    + constructor.
      * constructor; [assumption | lia | discriminate].
      * constructor.
        -- constructor.
           ++ destruct Hdeg as [->| ->]; repeat constructor.
           ++ lia.
           ++ intros h [= <-]. destruct Hdeg as [->| ->]; simpl; lia.
        -- constructor.
           ++ constructor; [assumption | lia | discriminate].
           ++ constructor.
Qed.

Lemma temp_here_unique (s g1 g2 : text) :
  temp_here s g1 -> temp_here s g2 -> g1 = g2.
Proof.
  assert (Htail : forall ws1 deg ws2 post,
            all_spaces ws1 -> deg = [] \/ deg = u "°" -> all_spaces ws2 ->
            exists c r, ws1 ++ deg ++ ws2 ++ u "c" ++ post = c :: r
                        /\ is_digit c = false).
  { intros ws1 deg ws2 post Hw1 Hdeg Hw2.
    destruct (after_number ws2 (u "c" ++ post) 99 Hw2) as (c2 & r2 & E2 & Hc2);
      [eexists; reflexivity|].
    assert (Hd2 : is_digit c2 = false)
      by (destruct Hc2 as [Hc2| ->]; [now apply space_not_digit | reflexivity]).
    destruct Hdeg as [->| ->].
    - cbn [app]. rewrite E2.
      destruct (after_number ws1 (c2 :: r2) c2 Hw1) as (c & r & E & Hc);
        [eexists; reflexivity|].
      exists c, r. split; [exact E|].
      destruct Hc as [Hc| ->]; [now apply space_not_digit | exact Hd2].
    - destruct (after_number ws1 (u "°" ++ ws2 ++ u "c" ++ post) 176 Hw1)
        as (c & r & E & Hc); [eexists; reflexivity|].
      exists c, r. split; [exact E|].
      destruct Hc as [Hc| ->]; [now apply space_not_digit | reflexivity]. }
  intros (sign1 & ds1 & ws11 & deg1 & ws21 & post1
          & E1 & -> & Hs1 & Hd1 & Hl1 & Hw11 & Hdeg1 & Hw21)
         (sign2 & ds2 & ws12 & deg2 & ws22 & post2
          & E2 & -> & Hs2 & Hd2 & Hl2 & Hw12 & Hdeg2 & Hw22).
  destruct (Htail ws11 deg1 ws21 post1 Hw11 Hdeg1 Hw21) as (c1 & r1 & T1 & Hc1).
  destruct (Htail ws12 deg2 ws22 post2 Hw12 Hdeg2 Hw22) as (c2 & r2 & T2 & Hc2).
  rewrite E1, T1, T2, <- !app_assoc in E2. clear E1.
  assert (Hminus : forall ds r r', all_digits ds -> (1 <= List.length ds)%nat ->
            ds ++ r <> 45%N :: r').
  { intros ds r r' Hd Hl E. destruct Hd as [|d ds Hd _]; [simpl in Hl; lia|].
    simpl in E. injection E as -> _. vm_compute in Hd. discriminate. }
  destruct Hs1 as [->| ->]; destruct Hs2 as [->| ->]; cbn [app] in E2 |- *.
  - now destruct (digits_prefix_unique ds1 ds2 (c1 :: r1) (c2 :: r2)
                    Hd1 Hd2 Hc1 Hc2 E2) as [-> _].
  - exfalso. apply (Hminus ds1 (c1 :: r1) (ds2 ++ c2 :: r2) Hd1); [lia|].
    exact E2.
  - exfalso. apply (Hminus ds2 (c2 :: r2) (ds1 ++ c1 :: r1) Hd2); [lia|].
    symmetry. exact E2.
  - change (u "-" ++ ds1 ++ c1 :: r1) with (45%N :: ds1 ++ c1 :: r1) in E2.
    change (u "-" ++ ds2 ++ c2 :: r2) with (45%N :: ds2 ++ c2 :: r2) in E2.
    injection E2 as E2.
    now destruct (digits_prefix_unique ds1 ds2 (c1 :: r1) (c2 :: r2)
                    Hd1 Hd2 Hc1 Hc2 E2) as [-> _].
Qed.

(** The number the temperature expression captures: the one of the
    leftmost place of the shape. *)
Lemma search_temp_leftmost (t : text) (m : captures) :
  search re_temp t = Some m ->
  exists n g, leftmost temp_here t n g /\ group 1 m = Some g
              /\ group1_float m = Ok (of_Z (signed_val g))
              /\ -9999 <= signed_val g <= 9999.
Proof.
  intros H. apply search_leftmost in H as (pre & s0 & -> & H & Hmin).
  unfold re_temp in H.
  apply match_here_group1 in H as (g & w2 & post & E & Lg & Lr & Hg).
  2:{ simpl. tauto. }
  inversion Lg as [| | |? ? sign ds Ls Ld| | | | |]; subst.
  apply lang_opt_char_inv in Ls.
  apply lang_rep_inv in Ld as [Hd Hdl].
  inversion Lr as [| | |? ? ws1 r1 Lw1 L1| | | | |]; subst.
  apply lang_star_inv in Lw1.
  inversion L1 as [| | |? ? deg r2 Ldeg L2| | | | |]; subst.
  apply lang_opt_char_inv in Ldeg.
  inversion L2 as [| | |? ? ws2 c Lw2 Lc| | | | |]; subst.
  apply lang_star_inv in Lw2. inversion Lc; subst.
  assert (Hne : ds <> []) by (intros ->; simpl in Hdl; lia).
  assert (Hhere : temp_here ((sign ++ ds) ++ (ws1 ++ deg ++ ws2 ++ u "c") ++ post)
                    (sign ++ ds)).
  { exists sign, ds, ws1, deg, ws2, post.
    repeat split; try assumption; try lia.
    now rewrite <- !app_assoc. }
  exists (List.length pre), (sign ++ ds). split; [|split; [assumption|split]].
  - apply (leftmost_intro re_temp);
      [exact temp_here_lang | exact temp_here_unique | exact Hhere
       | exact Hmin].
  - unfold group1_float. rewrite Hg. now apply py_float_signed.
  - apply signed_val_range; [assumption | assumption | lia].
Qed.

Lemma search_temp_value (t : text) (m : captures) :
  search re_temp t = Some m ->
  exists g, temp_at t g /\ group 1 m = Some g
            /\ group1_float m = Ok (of_Z (signed_val g))
            /\ -9999 <= signed_val g <= 9999.
Proof.
  intros H.
  destruct (search_temp_leftmost t m H) as (n & g & (Hat & _) & Hg & Hv & Hr).
  exists g. split; [now exists n | auto].
Qed.

Lemma temp_at_occurs (t g : text) : temp_at t g -> occurs re_temp t.
Proof. intros [n H]. exact (at_pos_occurs _ _ t n g temp_here_lang H). Qed.

(** *** Each computed field: a value in a fixed range, or the median *)

Lemma vetor_custo_cases (t : text) :
  In (vetor_custo t) [of_Z 1; of_Z 3; of_Z 6].
Proof.
  unfold vetor_custo.
  repeat match goal with |- context [if ?b then _ else _] => destruct b end;
    simpl; tauto.
Qed.

Lemma vetor_recicl_cases (t : text) : In (vetor_recicl t) [of_Z 0; of_Z 1].
Proof.
  unfold vetor_recicl.
  match goal with |- context [if ?b then _ else _] => destruct b end;
    simpl; tauto.
Qed.

Lemma vetor_bio_cases (t : text) : In (vetor_bio t) [of_Z 0; of_Z 1].
Proof.
  unfold vetor_bio.
  match goal with |- context [if ?b then _ else _] => destruct b end;
    simpl; tauto.
Qed.

Lemma vetor_dens_cases (t : text) (df : option DataFrame) :
  (exists x, vetor_dens t df = Ok x /\ within 0 10000000 x)
  \/ vetor_dens t df = population_median df "densidade_kg_m3" (of_Z 2000).
Proof.
  unfold vetor_dens.
  repeat match goal with |- context [if ?b then _ else _] => destruct b end;
    try (left; eexists; split; [reflexivity|];
         apply (within_of_Z 0 10000000); lia).
  destruct (search re_kg_m3 t) as [m|] eqn:E1.
  - destruct (search_kg_m3_range _ _ E1) as (x & -> & q & -> & Hq).
    left. eexists. split; [reflexivity|]. exists q. split; [reflexivity|]. lra.
  - destruct (search re_g_cm3 t) as [m|] eqn:E2; [|now right].
    destruct (search_g_cm3_range _ _ E2) as (x & -> & Hx).
    left. simpl. eauto.
Qed.

Lemma vetor_tens_cases (t : text) (df : option DataFrame) :
  (exists x, vetor_tens t df = Ok x /\ within 0 9999 x)
  \/ vetor_tens t df = population_median df "tensile_strength_MPa" (of_Z 50).
Proof.
  unfold vetor_tens.
  repeat match goal with |- context [if ?b then _ else _] => destruct b end;
    try (left; eexists; split; [reflexivity|];
         apply (within_of_Z 0 9999); lia).
  destruct (search re_mpa t) as [m|] eqn:E1; [|now right].
  destruct (search_mpa_range _ _ E1) as (x & -> & Hx). left. eauto.
Qed.

Lemma vetor_cond_cases (t : text) (df : option DataFrame) :
  (exists x, vetor_cond t df = Ok x /\ within 0 10000 x)
  \/ vetor_cond t df
     = population_median df "thermal_conductivity_W_mK" (of_Z 1).
Proof.
  unfold vetor_cond.
  repeat match goal with |- context [if ?b then _ else _] => destruct b end;
    try (left; eexists; split; [reflexivity|];
         first [ apply (within_of_Z 0 10000); lia
               | eexists; split; [reflexivity|]; lra ]).
  destruct (search re_w_mk t) as [m|] eqn:E1; [|now right].
  destruct (search_w_mk_range _ _ E1) as (x & -> & Hx). left. eauto.
Qed.

Lemma vetor_temp_cases (t : text) (df : option DataFrame) :
  (exists x, vetor_temp t df = Ok x /\ within (-9999) 9999 x)
  \/ vetor_temp t df = population_median df "melting_point_C" (of_Z 300).
Proof.
  unfold vetor_temp.
  destruct (search re_temp t) as [m|] eqn:E1.
  - destruct (search_temp_value _ _ E1) as (g & _ & _ & -> & Hr).
    left. eexists. split; [reflexivity|]. now apply (within_of_Z (-9999) 9999).
  - repeat match goal with |- context [if ?b then _ else _] => destruct b end;
      try (left; eexists; split; [reflexivity|];
           apply (within_of_Z (-9999) 9999); lia).
    now right.
Qed.

Lemma field_without_population (r : result flt) (lo hi : Q) (c : string)
  (d : Z) :
  (exists x, r = Ok x /\ within lo hi x)
  \/ r = population_median None c (of_Z d) ->
  exists x, r = Ok x /\ isfinite x = true.
Proof.
  intros [(x & -> & Hx)| ->].
  - exists x. split; [reflexivity|]. exact (within_finite _ _ _ Hx).
  - exists (of_Z d). split; reflexivity.
Qed.

Lemma in_of_Z_finite (x : flt) (l : list Z) :
  In x (map of_Z l) -> isfinite x = true.
Proof. intros H. apply in_map_iff in H as (z & <- & _). reflexivity. Qed.

(** X9: without a reference table the parser returns for every text: no
    number it reads can make [float] raise, and the result is a vector of
    seven finite numbers. *)
Theorem texto_para_vetor_sem_populacao (texto : text) :
  exists v, texto_para_vetor texto None = Ok v
            /\ List.length v = 7%nat
            /\ forallb isfinite v = true.
Proof.
  unfold texto_para_vetor. cbv zeta.
  destruct (field_without_population _ _ _ _ _
              (vetor_dens_cases (lower texto) None)) as (dens & -> & Hd).
  destruct (field_without_population _ _ _ _ _
              (vetor_tens_cases (lower texto) None)) as (tens & -> & Ht).
  destruct (field_without_population _ _ _ _ _
              (vetor_cond_cases (lower texto) None)) as (cond & -> & Hc).
  destruct (field_without_population _ _ _ _ _
              (vetor_temp_cases (lower texto) None)) as (temp & -> & Hp).
  cbn [bind]. eexists. split; [reflexivity|]. split; [reflexivity|].
  cbn [forallb]. rewrite Hd, Ht, Hc, Hp.
  rewrite (in_of_Z_finite _ [1; 3; 6] (vetor_custo_cases (lower texto))).
  rewrite (in_of_Z_finite _ [0; 1] (vetor_recicl_cases (lower texto))).
  rewrite (in_of_Z_finite _ [0; 1] (vetor_bio_cases (lower texto))).
  reflexivity.
Qed.

Lemma field_cases_ok (r : result flt) (lo hi : Q) (m : result flt) (x : flt) :
  (exists y, r = Ok y /\ within lo hi y) \/ r = m ->
  r = Ok x -> within lo hi x \/ m = Ok x.
Proof.
  intros [(y & Hy & Hw)|E] Hx.
  - left. congruence.
  - right. congruence.
Qed.

(** X10: the range of each field of a vector the parser returns.  The cost
    is 1, 3 or 6 and the two flags are 0 or 1; the density is between 0 and
    10^7, the strength between 0 and 9999, the conductivity between 0 and
    10^4 and the temperature between -9999 and 9999, unless the field is
    the median of the reference table's column (or the fixed default when
    there is no table). *)
Theorem texto_para_vetor_fields (texto : text) (df : option DataFrame)
  (v : list flt) :
  texto_para_vetor texto df = Ok v ->
  exists custo dens tens cond recicl bio temp,
    v = [custo; dens; tens; cond; recicl; bio; temp]
    /\ In custo [of_Z 1; of_Z 3; of_Z 6]
    /\ (within 0 10000000 dens
        \/ population_median df "densidade_kg_m3" (of_Z 2000) = Ok dens)
    /\ (within 0 9999 tens
        \/ population_median df "tensile_strength_MPa" (of_Z 50) = Ok tens)
    /\ (within 0 10000 cond
        \/ population_median df "thermal_conductivity_W_mK" (of_Z 1) = Ok cond)
    /\ In recicl [of_Z 0; of_Z 1]
    /\ In bio [of_Z 0; of_Z 1]
    /\ (within (-9999) 9999 temp
        \/ population_median df "melting_point_C" (of_Z 300) = Ok temp).
Proof.
  intros Hv. unfold texto_para_vetor in Hv. cbv zeta in Hv.
  apply bind_ok in Hv as (dens & Hdens & Hv).
  apply bind_ok in Hv as (tens & Htens & Hv).
  apply bind_ok in Hv as (cond & Hcond & Hv).
  apply bind_ok in Hv as (temp & Htemp & Hv).
  injection Hv as <-.
  exists (vetor_custo (lower texto)), dens, tens, cond,
         (vetor_recicl (lower texto)), (vetor_bio (lower texto)), temp.
  split; [reflexivity|].
  split; [apply vetor_custo_cases|].
  split; [exact (field_cases_ok _ _ _ _ _ (vetor_dens_cases _ _) Hdens)|].
  split; [exact (field_cases_ok _ _ _ _ _ (vetor_tens_cases _ _) Htens)|].
  split; [exact (field_cases_ok _ _ _ _ _ (vetor_cond_cases _ _) Hcond)|].
  split; [apply vetor_recicl_cases|].
  split; [apply vetor_bio_cases|].
  exact (field_cases_ok _ _ _ _ _ (vetor_temp_cases _ _) Htemp).
Qed.

Lemma texto_para_vetor_fields_witness :
  exists custo dens tens cond recicl bio temp,
    [of_Z 3; of_Z 1200; of_Z 50; of_Z 1; of_Z 0; of_Z 0; of_Z 300]
    = [custo; dens; tens; cond; recicl; bio; temp]
    /\ In custo [of_Z 1; of_Z 3; of_Z 6]
    /\ (within 0 10000000 dens
        \/ population_median None "densidade_kg_m3" (of_Z 2000) = Ok dens)
    /\ (within 0 9999 tens
        \/ population_median None "tensile_strength_MPa" (of_Z 50) = Ok tens)
    /\ (within 0 10000 cond
        \/ population_median None "thermal_conductivity_W_mK" (of_Z 1)
           = Ok cond)
    /\ In recicl [of_Z 0; of_Z 1]
    /\ In bio [of_Z 0; of_Z 1]
    /\ (within (-9999) 9999 temp
        \/ population_median None "melting_point_C" (of_Z 300) = Ok temp).
Proof.
  apply (texto_para_vetor_fields (u "Tubo de 1200 kg/m3") None).
  vm_compute. reflexivity.
Defined.

(** *** Words inside words *)

Lemma contains_skip (pre s sub : text) :
  contains s sub = true -> contains (pre ++ s) sub = true.
Proof.
  intros H. induction pre as [|c pre IH]; [exact H|].
  simpl. rewrite IH. apply orb_true_r.
Qed.

Lemma contains_split (t sub : text) :
  contains t sub = true -> exists pre post, t = pre ++ sub ++ post.
Proof.
  induction t as [|c t IH]; simpl; intros H.
  - rewrite orb_false_r in H. apply starts_with_split in H.
    exists [], (skipn (List.length sub) []). exact H.
  - apply orb_prop in H as [H|H].
    + apply starts_with_split in H.
      exists [], (skipn (List.length sub) (c :: t)). exact H.
    + destruct (IH H) as (pre & post & ->). now exists (c :: pre), post.
Qed.

Lemma contains_at (pre sub post : text) :
  contains (pre ++ sub ++ post) sub = true.
Proof.
  apply contains_skip. destruct (sub ++ post) eqn:E; simpl;
    rewrite <- E, starts_with_app; reflexivity.
Qed.

Lemma contains_suffix (t a b : text) :
  contains t (a ++ b) = true -> contains t b = true.
Proof.
  intros H. apply contains_split in H as (pre & post & ->).
  rewrite <- app_assoc, app_assoc. apply contains_at.
Qed.

(** X11: the value 10 that the source gives for "pouco resistente" is out
    of reach: a text with these words has the word "resistente", which is
    tested before, so its strength field is 200, or 400 when the text also
    has "muito resistente" or "alta resistência". *)
Theorem pouco_resistente_as_resistente (texto : text) (df : option DataFrame)
  (v : list flt) :
  contains (lower texto) (u "pouco resistente") = true ->
  texto_para_vetor texto df = Ok v ->
  nth_error v 2 = Some (of_Z 200) \/ nth_error v 2 = Some (of_Z 400).
Proof.
  intros Hp Hv.
  change (u "pouco resistente") with (u "pouco " ++ u "resistente") in Hp.
  apply contains_suffix in Hp.
  unfold texto_para_vetor in Hv. cbv zeta in Hv.
  apply bind_ok in Hv as (dens & _ & Hv).
  apply bind_ok in Hv as (tens & Htens & Hv).
  apply bind_ok in Hv as (cond & _ & Hv).
  apply bind_ok in Hv as (temp & _ & Hv).
  injection Hv as <-. cbn [nth_error].
  unfold vetor_tens in Htens. rewrite Hp in Htens.
  destruct (contains (lower texto) (u "muito resistente")
            || contains (lower texto) (u "alta resistência"));
    cbn [orb] in Htens; injection Htens as <-; auto.
Qed.

Lemma pouco_resistente_as_resistente_witness :
  nth_error [of_Z 3; of_Z 2000; of_Z 200; of_Z 1; of_Z 0; of_Z 0; of_Z 300] 2
  = Some (of_Z 200)
  \/ nth_error [of_Z 3; of_Z 2000; of_Z 200; of_Z 1; of_Z 0; of_Z 0; of_Z 300] 2
     = Some (of_Z 400).
Proof.
  apply (pouco_resistente_as_resistente (u "Pouco resistente") None).
  - reflexivity.
  - vm_compute. reflexivity.
Defined.

(** X12: the temperature field.  When the lowercased text has somewhere a
    number of 1 to 4 decimal digits, with an optional minus sign,
    followed by optional white space, an optional degree sign, optional
    white space and the letter "c", the field is the number found at the
    leftmost such place (the position [n] before which the shape is not
    found, [g] being the only number the shape is found with there),
    between -9999 and 9999, whatever words the text has; the letter may
    start any word.  Only otherwise do the words count: 1000 for "resiste
    ao calor" or "alta temperatura", else 1500 for "nao derrete" or "não
    derrete", else the median of the reference table, or 300 without a
    table. *)
Theorem temperature_field (texto : text) (df : option DataFrame)
  (v : list flt) :
  texto_para_vetor texto df = Ok v ->
  ((exists g, temp_at (lower texto) g) ->
   exists n g m, leftmost temp_here (lower texto) n g
                 /\ search re_temp (lower texto) = Some m
                 /\ group 1 m = Some g
                 /\ nth_error v 6 = Some (of_Z (signed_val g))
                 /\ -9999 <= signed_val g <= 9999)
  /\ (~ (exists g, temp_at (lower texto) g) ->
      if contains (lower texto) (u "resiste ao calor")
         || contains (lower texto) (u "alta temperatura")
      then nth_error v 6 = Some (of_Z 1000)
      else if contains (lower texto) (u "nao derrete")
              || contains (lower texto) (u "não derrete")
      then nth_error v 6 = Some (of_Z 1500)
      else population_median df "melting_point_C" (of_Z 300)
           = Ok (nth 6%nat v NaN)).
Proof.
  intros Hv. unfold texto_para_vetor in Hv. cbv zeta in Hv.
  apply bind_ok in Hv as (dens & _ & Hv).
  apply bind_ok in Hv as (tens & _ & Hv).
  apply bind_ok in Hv as (cond & _ & Hv).
  apply bind_ok in Hv as (temp & Htemp & Hv).
  injection Hv as <-. cbn [nth_error nth].
  unfold vetor_temp in Htemp.
  destruct (search re_temp (lower texto)) as [m|] eqn:E.
  - destruct (search_temp_leftmost _ _ E) as (n & g & Hleft & Hg & Hval & Hr).
    split.
    + intros _. exists n, g, m. repeat split; try assumption;
        try apply Hleft; try lia. congruence.
    + intros Hno. exfalso. apply Hno. exists g, n. exact (proj1 Hleft).
  - split.
    + intros [g Hg]. apply temp_at_occurs in Hg.
      now apply search_none_iff in E.
    + intros _.
      destruct (contains (lower texto) (u "resiste ao calor")
                || contains (lower texto) (u "alta temperatura"));
        [congruence|].
      destruct (contains (lower texto) (u "nao derrete")
                || contains (lower texto) (u "não derrete"));
        [congruence | assumption].
Qed.

Lemma temperature_field_witness :
  (exists n g m,
     leftmost temp_here (lower (u "Resiste ao calor, 2 camadas")) n g
     /\ search re_temp (lower (u "Resiste ao calor, 2 camadas")) = Some m
     /\ group 1 m = Some g
     /\ nth_error [of_Z 3; of_Z 2000; of_Z 50; of_Z 1; of_Z 0; of_Z 0;
                   of_Z 2] 6
        = Some (of_Z (signed_val g))
     /\ -9999 <= signed_val g <= 9999)
  /\ (if contains (lower (u "Resiste ao calor")) (u "resiste ao calor")
         || contains (lower (u "Resiste ao calor")) (u "alta temperatura")
      then nth_error [of_Z 3; of_Z 2000; of_Z 50; of_Z 1; of_Z 0; of_Z 0;
                      of_Z 1000] 6
           = Some (of_Z 1000)
      else if contains (lower (u "Resiste ao calor")) (u "nao derrete")
              || contains (lower (u "Resiste ao calor")) (u "não derrete")
      then nth_error [of_Z 3; of_Z 2000; of_Z 50; of_Z 1; of_Z 0; of_Z 0;
                      of_Z 1000] 6
           = Some (of_Z 1500)
      else population_median None "melting_point_C" (of_Z 300)
           = Ok (nth 6%nat [of_Z 3; of_Z 2000; of_Z 50; of_Z 1; of_Z 0;
                            of_Z 0; of_Z 1000] NaN)).
Proof.
  split.
  - destruct (temperature_field (u "Resiste ao calor, 2 camadas") None
                [of_Z 3; of_Z 2000; of_Z 50; of_Z 1; of_Z 0; of_Z 0; of_Z 2])
      as (H1 & _); [vm_compute; reflexivity|].
    apply H1.
    exists (u "2"), 18%nat, (u "resiste ao calor, "), (u "2 camadas").
    split; [reflexivity|]. split; [reflexivity|].
    exists [], (u "2"), (u " "), [], [], (u "amadas").
    split; [reflexivity|]. split; [reflexivity|]. split; [now left|].
    split; [repeat constructor|]. split; [simpl; lia|].
    split; [repeat constructor|]. split; [now left | constructor].
  - destruct (temperature_field (u "Resiste ao calor") None
                [of_Z 3; of_Z 2000; of_Z 50; of_Z 1; of_Z 0; of_Z 0;
                 of_Z 1000])
      as (_ & H2); [vm_compute; reflexivity|].
    apply H2. intros [g Hg]. apply temp_at_occurs in Hg.
    assert (E : search re_temp (lower (u "Resiste ao calor")) = None)
      by (vm_compute; reflexivity).
    now apply search_none_iff in E.
Defined.

(** ** The matcher: fitting *)

Lemma select_cols_missing (cols : list (string * Series)) (names : list string)
  (f : string) :
  In f names -> lookup f cols = None -> select_cols cols names = Err KeyError.
Proof.
  intros Hin Hf. induction names as [|n names IH]; [contradiction|].
  simpl. destruct (lookup n cols) as [s|] eqn:E; [|reflexivity].
  destruct Hin as [->|Hin]; [congruence|].
  now rewrite (IH Hin).
Qed.

Lemma nth_error_rows_of (n : nat) (cols : list (list flt)) (i : nat) :
  (i < n)%nat ->
  nth_error (rows_of n cols) i = Some (map (fun c => nth i c NaN) cols).
Proof.
  intros Hi. unfold rows_of.
  rewrite nth_error_map, nth_error_seq.
  destruct (Nat.ltb_spec i n); [reflexivity | lia].
Qed.

Lemma rows_of_length (n : nat) (cols : list (list flt)) :
  List.length (rows_of n cols) = n.
Proof. unfold rows_of. now rewrite length_map, length_seq. Qed.

(** A matrix given by columns of [n] cells has a cell that is not finite
    in some row exactly when some column has one. *)
Lemma rows_of_finite (n : nat) (cols : list (list flt)) :
  Forall (fun c => List.length c = n) cols ->
  forallb (forallb isfinite) (rows_of n cols) = true
  <-> Forall (Forall (fun x => isfinite x = true)) cols.
Proof.
  intros Hlen. rewrite forallb_forall. split.
  - intros H. apply Forall_forall. intros c Hc.
    apply Forall_forall. intros x Hx.
    apply In_nth_error in Hx as [i Hi].
    assert (Hin : (i < n)%nat).
    { rewrite Forall_forall in Hlen. rewrite <- (Hlen c Hc).
      apply nth_error_Some. congruence. }
    specialize (H (map (fun c => nth i c NaN) cols)).
    rewrite forallb_forall in H. apply H.
    + eapply nth_error_In. now apply nth_error_rows_of.
    + apply in_map_iff. exists c. split; [|assumption].
      now apply nth_error_nth.
  - intros H row Hrow. unfold rows_of in Hrow.
    apply in_map_iff in Hrow as (i & <- & Hi). apply in_seq in Hi.
    apply forallb_forall. intros x Hx.
    apply in_map_iff in Hx as (c & <- & Hc).
    rewrite Forall_forall in H, Hlen.
    specialize (H c Hc). rewrite Forall_forall in H. apply H.
    apply nth_In. rewrite (Hlen c Hc). lia.
Qed.

Lemma check_array_rows (X : list (list flt)) :
  check_array X
  = if Nat.eqb (List.length X) 0 then Err ValueError
    else if forallb (forallb isfinite) X then Ok X else Err ValueError.
Proof. now destruct X. Qed.

Lemma floats_length (s : Series) :
  is_obj s = false -> List.length (floats s) = series_len s.
Proof.
  destruct s; simpl; intros H; try discriminate;
    now rewrite ?length_map.
Qed.

Lemma select_cols_error (cols : list (string * Series)) (names : list string)
  (e : exn) :
  select_cols cols names = Err e ->
  e = KeyError /\ exists f, In f names /\ lookup f cols = None.
Proof.
  induction names as [|n names IH]; simpl; [discriminate|].
  destruct (lookup n cols) as [s|] eqn:E.
  - destruct (select_cols cols names) as [rest|e']; cbn [bind];
      [discriminate|].
    intros [= <-]. destruct (IH eq_refl) as (He & f & Hf & Hl).
    split; [exact He|]. exists f. auto.
  - intros [= <-]. split; [reflexivity|]. exists n. auto.
Qed.

Lemma mapM_error {A B : Type} (f : A -> result B) (l : list A) (e : exn) :
  mapM f l = Err e -> exists a, In a l /\ f a = Err e.
Proof.
  induction l as [|a l IH]; simpl; [discriminate|].
  destruct (f a) as [b|e'] eqn:E; cbn [bind].
  - destruct (mapM f l) as [bs|e'']; cbn [bind]; [discriminate|].
    intros [= <-]. destruct (IH eq_refl) as (a' & Ha & Hf). eauto.
  - intros [= <-]. eauto.
Qed.

Section MatcherFit.

Variable parse_numeric : text -> flt.
Variable astype_float : text -> result flt.

Lemma mapM_values_cell_numeric (s : Series) :
  is_obj s = false -> series_values astype_float s = Ok (floats s).
Proof.
  unfold series_values.
  destruct s as [l|l|l|l]; simpl; intros H; try discriminate;
    induction l as [|x l IH]; simpl; try reflexivity;
    simpl in IH; now rewrite IH.
Qed.

(** X13: [preparar_modelo] raises [KeyError] exactly when the table lacks
    one of the seven feature columns (a raw table, not yet normalised),
    whatever the other columns hold and whatever [n_neighbors] is; every
    other failure is a [ValueError].  The conversion of a text cell is
    taken to raise nothing but [ValueError]. *)
Theorem preparar_modelo_key_error (df : DataFrame) (n : Z) :
  (forall s e, astype_float s = Err e -> e = ValueError) ->
  (preparar_modelo astype_float df n = Err KeyError
   <-> exists f, In f _FEATURES /\ get df f = None)
  /\ (forall e, preparar_modelo astype_float df n = Err e ->
                e = KeyError \/ e = ValueError).
Proof.
  intros Hconv.
  assert (Hkind : forall e, preparar_modelo astype_float df n = Err e ->
            (e = KeyError /\ exists f, In f _FEATURES /\ get df f = None)
            \/ e = ValueError).
  { intros e H. unfold preparar_modelo, select in H.
    destruct (select_cols (columns df) _FEATURES) as [sel|e0] eqn:Es;
      cbn [bind] in H.
    - right.
      destruct (mapM _ (columns _)) as [cols|e1] eqn:Ec; cbn [bind] in H.
      + destruct (n <=? 0); [congruence|].
        unfold check_array in H.
        destruct (rows_of (nrows df) cols); cbn [bind] in H; [congruence|].
        destruct (forallb (forallb isfinite) _); cbn [bind] in H;
          [discriminate | congruence].
      + injection H as <-.
        apply mapM_error in Ec as ([c s] & _ & Hs). cbn [snd] in Hs.
        apply mapM_error in Hs as (v & _ & Hv).
        destruct v; try discriminate. exact (Hconv _ _ Hv).
    - injection H as <-. left. now apply select_cols_error in Es. }
  split; [split|].
  - intros H. destruct (Hkind _ H) as [[_ Hf]|E]; [exact Hf | discriminate].
  - intros (f & Hin & Hf). unfold preparar_modelo, select.
    now rewrite (select_cols_missing (columns df) _FEATURES f Hin Hf).
  - intros e H. destruct (Hkind e H) as [[-> _]| ->]; auto.
Qed.

(** The feature columns of a normalised table, as the matrix sees them. *)
Lemma normalized_feature (df out : DataFrame) :
  wf df ->
  mapear_valores parse_numeric df = Ok out ->
  forall f, In f _FEATURES ->
    exists s, get out f = Some s /\ is_obj s = false
              /\ List.length (floats s) = nrows df
              /\ has_na s = false.
Proof.
  intros Hwf H f Hf.
  destruct (mapear_valores_normalized parse_numeric df out Hwf H f Hf)
    as (d & r & Hg & Hr).
  destruct (normalized_column_complete parse_numeric d (nrows df) r Hr)
    as (Hobj & Hlen & Hna).
  eexists. split; [exact Hg|]. split; [exact Hobj|].
  split; [|exact Hna]. now rewrite floats_length.
Qed.

Lemma mapM_series_values (out : DataFrame) (names : list string) :
  (forall f, In f names -> exists s, get out f = Some s /\ is_obj s = false) ->
  mapM (fun c => series_values astype_float (snd c))
       (map (fun f => (f, synth out f)) names)
  = Ok (map (fun f => floats (synth out f)) names).
Proof.
  induction names as [|f names IH]; intros H; simpl; [reflexivity|].
  destruct (H f (or_introl eq_refl)) as (s & Hs & Hobj).
  unfold synth at 1 3. rewrite Hs.
  rewrite (mapM_values_cell_numeric s Hobj). cbn [bind].
  rewrite IH; [reflexivity|]. intros g Hg. apply H. now right.
Qed.

(** [preparar_modelo] on a normalised table: the columns are there and
    numeric, so what is left is the validation of scikit-learn. *)
Lemma preparar_modelo_on_normalized (df out : DataFrame) (n : Z) :
  wf df ->
  mapear_valores parse_numeric df = Ok out ->
  preparar_modelo astype_float out n
  = if n <=? 0 then Err ValueError
    else X <- check_array
                (rows_of (nrows df)
                         (map (fun f => floats (synth out f)) _FEATURES)) ;;
         Ok (mkNN n X 7).
Proof.
  intros Hwf H.
  pose proof (normalized_feature df out Hwf H) as Hf.
  unfold preparar_modelo, select.
  rewrite (select_cols_map (columns out) (synth out) _FEATURES).
  2:{ intros f Hin. destruct (Hf f Hin) as (s & Hs & _).
      unfold synth. fold (get out f). now rewrite Hs. }
  cbn [bind columns nrows].
  rewrite mapM_series_values.
  2:{ intros f Hin. destruct (Hf f Hin) as (s & Hs & Hobj & _). eauto. }
  cbn [bind].
  now rewrite (mapear_valores_nrows parse_numeric df out H).
Qed.

Lemma normalized_matrix_columns (df out : DataFrame) :
  wf df ->
  mapear_valores parse_numeric df = Ok out ->
  Forall (fun c => List.length c = nrows df)
         (map (fun f => floats (synth out f)) _FEATURES).
Proof.
  intros Hwf H. apply Forall_map. apply Forall_forall. intros f Hf.
  destruct (normalized_feature df out Hwf H f Hf) as (s & Hs & _ & Hl & _).
  unfold synth. now rewrite Hs.
Qed.

(** When the validation lets a normalised table through. *)
Lemma normalized_matrix_finite (df out : DataFrame) :
  wf df ->
  mapear_valores parse_numeric df = Ok out ->
  forallb (forallb isfinite)
    (rows_of (nrows df) (map (fun f => floats (synth out f)) _FEATURES))
  = false
  <-> exists f s x, In f _FEATURES /\ get out f = Some s
                    /\ In x (floats s) /\ isfinite x = false.
Proof.
  intros Hwf H.
  pose proof (normalized_matrix_columns df out Hwf H) as Hlen.
  split.
  - intros Hb.
    destruct (Forall_Exists_dec (Forall (fun x => isfinite x = true))
                (fun c => Forall_dec (fun x => isfinite x = true)
                            (fun x => bool_dec (isfinite x) true) c)
                (map (fun f => floats (synth out f)) _FEATURES))
      as [Hall|Hex].
    + apply (rows_of_finite (nrows df) _ Hlen) in Hall. congruence.
    + apply Exists_exists in Hex as (c & Hc & Hnot).
      apply in_map_iff in Hc as (f & <- & Hf).
      apply neg_Forall_Exists_neg in Hnot;
        [|intros x; apply bool_dec].
      apply Exists_exists in Hnot as (x & Hx & Hfin).
      destruct (normalized_feature df out Hwf H f Hf) as (s & Hs & _).
      unfold synth in Hx. rewrite Hs in Hx.
      exists f, s, x. repeat split; try assumption.
      now destruct (isfinite x).
  - intros (f & s & x & Hf & Hs & Hx & Hfin).
    destruct (forallb (forallb isfinite) _) eqn:E; [|reflexivity].
    apply (rows_of_finite (nrows df) _ Hlen) in E. rewrite Forall_forall in E.
    specialize (E (floats (synth out f))
                  (in_map (fun f => floats (synth out f)) _ f Hf)).
    unfold synth in E. rewrite Hs in E. rewrite Forall_forall in E.
    specialize (E x Hx). congruence.
Qed.

(** X14: fitting on a normalised table.  [preparar_modelo] never fails
    for a missing column or a text cell there: it raises (a [ValueError])
    exactly when [n_neighbors] is not positive, the table has no row, or a
    feature column holds an infinite value.  Otherwise the fitted matrix
    has one row per row of the table, and row [i] is the seven feature
    values of row [i], in the order of [_FEATURES]. *)
Theorem preparar_modelo_normalized (df out : DataFrame) (n : Z) :
  wf df ->
  mapear_valores parse_numeric df = Ok out ->
  (forall e, preparar_modelo astype_float out n = Err e -> e = ValueError)
  /\ (preparar_modelo astype_float out n = Err ValueError
      <-> n <= 0 \/ nrows df = 0%nat
          \/ exists f s x, In f _FEATURES /\ get out f = Some s
                           /\ In x (floats s) /\ isfinite x = false)
  /\ (forall modelo, preparar_modelo astype_float out n = Ok modelo ->
      n_neighbors modelo = n
      /\ List.length (fit_X modelo) = nrows df
      /\ forall i, (i < nrows df)%nat ->
           exists row,
             nth_error (fit_X modelo) i = Some row
             /\ List.length row = 7%nat
             /\ forall j f s, nth_error _FEATURES j = Some f ->
                              get out f = Some s ->
                              nth_error row j = nth_error (floats s) i).
Proof.
  intros Hwf H.
  rewrite (preparar_modelo_on_normalized df out n Hwf H).
  pose proof (normalized_matrix_finite df out Hwf H) as Hfin.
  set (X := rows_of (nrows df)
              (map (fun f => floats (synth out f)) _FEATURES)) in *.
  assert (HX : List.length X = nrows df) by apply rows_of_length.
  destruct (Z.leb_spec n 0) as [Hn|Hn].
  { split; [now intros e [= <-]|]. split; [tauto | discriminate]. }
  rewrite check_array_rows, HX.
  destruct (Nat.eqb_spec (nrows df) 0) as [Hz|Hz]; cbn [bind].
  { split; [now intros e [= <-]|]. split; [tauto | discriminate]. }
  destruct (forallb (forallb isfinite) X) eqn:Eb; cbn [bind].
  - split; [discriminate|]. split.
    + split; [discriminate|].
      intros [Hn'|[Hz'|Hex]]; [lia | contradiction |].
      apply Hfin in Hex. discriminate.
    + intros modelo [= <-]. cbn [n_neighbors fit_X].
      split; [reflexivity|]. split; [exact HX|].
      intros i Hi. unfold X. rewrite nth_error_rows_of by assumption.
      eexists. split; [reflexivity|]. split; [now rewrite !length_map|].
      intros j f s Hj Hs.
      rewrite nth_error_map, nth_error_map, Hj. cbn [option_map].
      unfold synth. rewrite Hs.
      destruct (normalized_feature df out Hwf H f (nth_error_In _ _ Hj))
        as (s' & Hs' & _ & Hl & _).
      assert (s' = s) as -> by congruence.
      symmetry. apply nth_error_nth'. lia.
  - split; [now intros e [= <-]|]. split; [|discriminate].
    split; [|reflexivity].
    intros _. right. right. now apply Hfin.
Qed.

End MatcherFit.

Lemma preparar_modelo_key_error_witness :
  (preparar_modelo no_float cenario1 5 = Err KeyError
   <-> exists f, In f _FEATURES /\ get cenario1 f = None)
  /\ (forall e, preparar_modelo no_float cenario1 5 = Err e ->
                e = KeyError \/ e = ValueError).
Proof.
  apply (preparar_modelo_key_error no_float cenario1 5).
  intros s e H. unfold no_float in H. now injection H.
Defined.

Lemma preparar_modelo_normalized_witness :
  (forall e, preparar_modelo no_float cenario1_normalizado 5 = Err e ->
             e = ValueError)
  /\ (preparar_modelo no_float cenario1_normalizado 5 = Err ValueError
      <-> 5 <= 0 \/ nrows cenario1 = 0%nat
          \/ exists f s x, In f _FEATURES
                           /\ get cenario1_normalizado f = Some s
                           /\ In x (floats s) /\ isfinite x = false)
  /\ (forall modelo,
        preparar_modelo no_float cenario1_normalizado 5 = Ok modelo ->
        n_neighbors modelo = 5
        /\ List.length (fit_X modelo) = nrows cenario1
        /\ forall i, (i < nrows cenario1)%nat ->
             exists row,
               nth_error (fit_X modelo) i = Some row
               /\ List.length row = 7%nat
               /\ forall j f s, nth_error _FEATURES j = Some f ->
                                get cenario1_normalizado f = Some s ->
                                nth_error row j = nth_error (floats s) i).
Proof.
  apply (preparar_modelo_normalized no_parse no_float cenario1
           cenario1_normalizado 5).
  - repeat constructor.
  - vm_compute. reflexivity.
Defined.

(** ** The matcher: the table a query returns *)

Lemma take_nth {A : Type} (l : list A) (idx : list nat) (r : list A) :
  take l idx = Ok r ->
  List.length r = List.length idx
  /\ forall j i, nth_error idx j = Some i -> nth_error r j = nth_error l i.
Proof.
  revert r. induction idx as [|i0 idx IH]; simpl; intros r H.
  - injection H as <-. split; [reflexivity|]. intros [|j] i; discriminate.
  - destruct (nth_error l i0) as [a|] eqn:E; [|discriminate].
    apply bind_ok in H as (rest & Hrest & H). injection H as <-.
    destruct (IH rest Hrest) as [Hlen Hnth].
    split; [simpl; now rewrite Hlen|].
    intros [|j] i Hj; simpl in Hj |- *.
    + injection Hj as <-. now rewrite E.
    + now apply Hnth.
Qed.

Lemma series_take_cells (s r : Series) (idx : list nat) :
  series_take s idx = Ok r ->
  series_len r = List.length idx
  /\ forall j i, nth_error idx j = Some i ->
                 nth_error (cells r) j = nth_error (cells s) i.
Proof.
  destruct s as [l|l|l|l]; simpl; intros H;
    apply bind_ok in H as (t & Ht & H); injection H as <-;
    destruct (take_nth l idx t Ht) as [Hlen Hnth];
    (split; [exact Hlen|]); intros j i Hj; simpl;
    rewrite ?nth_error_map; now rewrite (Hnth j i Hj).
Qed.

Lemma mapM_take_lookup (idx : list nat) (cols cols' : list (string * Series)) :
  mapM (fun c => s <- series_take (snd c) idx ;; Ok (fst c, s)) cols = Ok cols' ->
  map fst cols' = map fst cols
  /\ forall c,
       match lookup c cols with
       | Some s => exists r, series_take s idx = Ok r /\ lookup c cols' = Some r
       | None => lookup c cols' = None
       end.
Proof.
  revert cols'. induction cols as [|[n s] cols IH]; simpl; intros cols' H.
  - injection H as <-. split; [reflexivity|]. intros c. reflexivity.
  - apply bind_ok in H as ([n' r] & Hr & H).
    apply bind_ok in Hr as (r0 & Hr0 & Hr). injection Hr as <- <-.
    apply bind_ok in H as (rest & Hrest & H). injection H as <-.
    destruct (IH rest Hrest) as [Hn Hl].
    split; [simpl; now rewrite Hn|].
    intros c. simpl. destruct (String.eqb c n); [eauto | apply Hl].
Qed.

Lemma iloc_columns (df res : DataFrame) (idx : list nat) :
  iloc df idx = Ok res ->
  nrows res = List.length idx
  /\ map fst (columns res) = map fst (columns df)
  /\ forall c,
       match get df c with
       | Some s => exists r, series_take s idx = Ok r /\ get res c = Some r
       | None => get res c = None
       end.
Proof.
  unfold iloc. destruct (forallb _ idx); [|discriminate]. intros H.
  apply bind_ok in H as (cols & Hcols & H). injection H as <-.
  destruct (mapM_take_lookup idx _ _ Hcols) as [Hn Hl].
  split; [reflexivity|]. split; [exact Hn | exact Hl].
Qed.

Lemma assign_names (c : string) (s : Series) (cols : list (string * Series)) :
  map fst (assign c s cols)
  = match lookup c cols with
    | Some _ => map fst cols
    | None => map fst cols ++ [c]
    end.
Proof.
  induction cols as [|[n s0] cols IH]; simpl; [reflexivity|].
  destruct (String.eqb c n); simpl; [reflexivity|].
  rewrite IH. now destruct (lookup c cols).
Qed.

Section MatcherResult.

Variable neighbors_search :
  list (list flt) -> list flt -> nat -> list flt * list nat.

(** X15: the table [recomendar_material] returns.  Its rows are the rows
    of [df_original] at the positions the search returned, in that order:
    every column of [df_original] is there under its name, with its dtype,
    and cell [j] of it is the cell of the original column at position
    [idx[j]].  The distances are in the column 'distancia', which is added
    last, or takes the place of a column of that name in [df_original]. *)
Theorem recomendar_material_result (modelo : NearestNeighbors)
  (df_original : DataFrame) (v : list flt) (k : Z) (res : DataFrame) :
  recomendar_material neighbors_search modelo df_original v k = Ok res ->
  exists dist idx,
    neighbors_search (fit_X modelo) v (Z.to_nat k) = (dist, idx)
    /\ nrows res = List.length idx
    /\ get res "distancia" = Some (SFloat dist)
    /\ map fst (columns res)
       = (if has_col df_original "distancia" then map fst (columns df_original)
          else map fst (columns df_original) ++ ["distancia"])
    /\ forall c s, c <> "distancia" -> get df_original c = Some s ->
         exists r, series_take s idx = Ok r
                   /\ get res c = Some r
                   /\ forall j i, nth_error idx j = Some i ->
                                  nth_error (cells r) j = nth_error (cells s) i.
Proof.
  unfold recomendar_material. intros H.
  apply bind_ok in H as ([dist idx] & Hk & H).
  apply bind_ok in H as (resultados & Hres & H).
  destruct (Nat.eqb (List.length dist) (nrows resultados)); [|discriminate].
  injection H as <-.
  assert (Hs : neighbors_search (fit_X modelo) v (Z.to_nat k) = (dist, idx)).
  { unfold kneighbors in Hk.
    repeat match type of Hk with
           | (if ?b then _ else _) = _ => destruct b; [discriminate|]
           | bind ?r _ = _ => destruct r; [cbn [bind] in Hk | discriminate]
           end.
    now injection Hk. }
  destruct (iloc_columns df_original resultados idx Hres) as (Hn & Hnames & Hcols).
  exists dist, idx. split; [exact Hs|]. split; [exact Hn|].
  split; [apply get_set_col_same|]. split.
  - unfold set_col. cbn [columns]. rewrite assign_names.
    fold (get resultados "distancia"). unfold has_col.
    specialize (Hcols "distancia").
    destruct (get df_original "distancia") as [s|].
    + destruct Hcols as (r & _ & ->). exact Hnames.
    + rewrite Hcols. now rewrite Hnames.
  - intros c s Hc Hs'. specialize (Hcols c). rewrite Hs' in Hcols.
    destruct Hcols as (r & Hr & Hg).
    exists r. split; [exact Hr|]. split.
    + now rewrite get_set_col_other.
    + exact (proj2 (series_take_cells s r idx Hr)).
Qed.

End MatcherResult.

Lemma recomendar_material_result_witness :
  exists dist idx,
    busca_exaustiva (fit_X catalogo_modelo) consulta (Z.to_nat 2) = (dist, idx)
    /\ nrows consulta_resultado = List.length idx
    /\ get consulta_resultado "distancia" = Some (SFloat dist)
    /\ map fst (columns consulta_resultado)
       = (if has_col catalogo "distancia" then map fst (columns catalogo)
          else map fst (columns catalogo) ++ ["distancia"])
    /\ forall c s, c <> "distancia" -> get catalogo c = Some s ->
         exists r, series_take s idx = Ok r
                   /\ get consulta_resultado c = Some r
                   /\ forall j i, nth_error idx j = Some i ->
                                  nth_error (cells r) j = nth_error (cells s) i.
Proof.
  apply (recomendar_material_result busca_exaustiva catalogo_modelo catalogo
           consulta 2 consulta_resultado).
  vm_compute. reflexivity.
Defined.

(** ** The matcher: a table shorter than the fitted one *)

Section MatcherShort.

Variable neighbors_search :
  list (list flt) -> list flt -> nat -> list flt * list nat.

Hypothesis search_sizes :
  forall X q k, (1 <= k <= List.length X)%nat ->
    List.length (fst (neighbors_search X q k)) = k
    /\ List.length (snd (neighbors_search X q k)) = k
    /\ Forall (fun i => (i < List.length X)%nat) (snd (neighbors_search X q k)).

(** X16: a query on a table other than the fitted one (a saved model and
    a shorter table).  For a query that passes the validation, with the
    search returning the positions [idx]: when one of them is not a row of
    [df_original], [recomendar_material] raises [IndexError]; when all are,
    it returns [k] rows. *)
Theorem recomendar_material_short_table (modelo : NearestNeighbors)
  (df_original : DataFrame) (v : list flt) (k : Z) :
  n_features_in modelo = 7%nat ->
  wf df_original ->
  ~ (invalid_query modelo v k \/ k <= 0) ->
  ((exists i, In i (snd (neighbors_search (fit_X modelo) v (Z.to_nat k)))
              /\ (nrows df_original <= i)%nat) ->
   recomendar_material neighbors_search modelo df_original v k
   = Err IndexError)
  /\ ((forall i, In i (snd (neighbors_search (fit_X modelo) v (Z.to_nat k))) ->
                 (i < nrows df_original)%nat) ->
      exists res,
        recomendar_material neighbors_search modelo df_original v k = Ok res
        /\ nrows res = Z.to_nat k).
Proof.
  intros H7 Hwf Hgood. unfold recomendar_material.
  rewrite (kneighbors_valid neighbors_search modelo v k H7 Hgood). cbn [bind].
  assert (Hk : (1 <= Z.to_nat k <= List.length (fit_X modelo))%nat).
  { unfold invalid_query, n_samples_fit in Hgood. lia. }
  destruct (search_sizes (fit_X modelo) v (Z.to_nat k) Hk) as (Hd & Hi & _).
  destruct (neighbors_search (fit_X modelo) v (Z.to_nat k)) as [dist idx].
  cbn [fst snd] in *. split.
  - intros (i & Hin & Hle). unfold iloc.
    assert (Hb : forallb (fun j => Nat.ltb j (nrows df_original)) idx = false).
    { destruct (forallb _ idx) eqn:E; [|reflexivity].
      rewrite forallb_forall in E. specialize (E i Hin).
      apply Nat.ltb_lt in E. lia. }
    now rewrite Hb.
  - intros Hall.
    destruct (iloc_ok df_original idx Hwf) as (res & Hres & Hn).
    { apply Forall_forall. exact Hall. }
    rewrite Hres. cbn [bind].
    assert (E : Nat.eqb (List.length dist) (nrows res) = true)
      by (apply Nat.eqb_eq; congruence).
    rewrite E. eexists. split; [reflexivity|].
    cbn [set_col nrows]. congruence.
Qed.

End MatcherShort.

Lemma recomendar_material_short_table_witness :
  ((exists i, In i (snd (busca_exaustiva (fit_X catalogo_modelo) consulta
                           (Z.to_nat 3)))
              /\ (nrows cenario1 <= i)%nat) ->
   recomendar_material busca_exaustiva catalogo_modelo cenario1 consulta 3
   = Err IndexError)
  /\ ((forall i, In i (snd (busca_exaustiva (fit_X catalogo_modelo) consulta
                              (Z.to_nat 3))) ->
                 (i < nrows cenario1)%nat) ->
      exists res,
        recomendar_material busca_exaustiva catalogo_modelo cenario1 consulta 3
        = Ok res
        /\ nrows res = Z.to_nat 3).
Proof.
  apply (recomendar_material_short_table busca_exaustiva busca_exaustiva_sizes
           catalogo_modelo cenario1 consulta 3).
  - reflexivity.
  - repeat constructor.
  - unfold invalid_query. intros [[H|[H|H]]|H].
    + apply H. reflexivity.
    + discriminate.
    + vm_compute in H. discriminate.
    + lia.
Defined.

(** ** The matcher: when a query raises, and what it returns otherwise *)

Lemma take_error {A : Type} (l : list A) (idx : list nat) (e : exn) :
  take l idx = Err e -> e = IndexError.
Proof.
  induction idx as [|i idx IH]; simpl; [discriminate|].
  destruct (nth_error l i); [|now intros [= <-]].
  destruct (take l idx); cbn [bind]; [discriminate|].
  intros [= <-]. now apply IH.
Qed.

Lemma series_take_error (s : Series) (idx : list nat) (e : exn) :
  series_take s idx = Err e -> e = IndexError.
Proof.
  destruct s as [l|l|l|l]; simpl;
    destruct (take l idx) eqn:E; cbn [bind]; try discriminate;
    intros [= <-]; exact (take_error _ _ _ E).
Qed.

Lemma iloc_error (df : DataFrame) (idx : list nat) (e : exn) :
  iloc df idx = Err e -> e = IndexError.
Proof.
  unfold iloc. destruct (forallb _ idx); [|now intros [= <-]].
  destruct (mapM _ (columns df)) as [cols|e'] eqn:E; cbn [bind];
    [discriminate|].
  intros [= <-]. apply mapM_error in E as ([n s] & _ & Hs).
  cbn [snd fst] in Hs.
  destruct (series_take s idx) eqn:Et; cbn [bind] in Hs; [discriminate|].
  injection Hs as <-. exact (series_take_error _ _ _ Et).
Qed.

Lemma iloc_nrows (df res : DataFrame) (idx : list nat) :
  iloc df idx = Ok res -> nrows res = List.length idx.
Proof.
  unfold iloc. destruct (forallb _ idx); [|discriminate].
  destruct (mapM _ (columns df)); cbn [bind]; [|discriminate].
  now intros [= <-].
Qed.

Section MatcherClaims.

Variable neighbors_search :
  list (list flt) -> list flt -> nat -> list flt * list nat.

Hypothesis search_sizes :
  forall X q k, (1 <= k <= List.length X)%nat ->
    List.length (fst (neighbors_search X q k)) = k
    /\ List.length (snd (neighbors_search X q k)) = k
    /\ Forall (fun i => (i < List.length X)%nat) (snd (neighbors_search X q k)).

(** C5, amended: a query on a matcher fitted on seven features raises a
    [ValueError] (that of scikit-learn, which the function lets through
    to its caller) exactly when the query vector has not 7 entries, or has
    an entry that is not finite, or [k] exceeds the number of fitted rows,
    or [k] is not positive; in particular [k = 100] on 50 fitted rows
    raises.  Otherwise, when the table queried has at least as many rows
    as the matrix the matcher was fitted on (as it has when it is the
    table it was fitted on), the query returns, with [k] rows. *)
Theorem C5_query_errors
  (modelo : NearestNeighbors) (df_original : DataFrame) (v : list flt) (k : Z) :
  n_features_in modelo = 7%nat ->
  (recomendar_material neighbors_search modelo df_original v k
   = Err ValueError
   <-> invalid_query modelo v k \/ k <= 0)
  /\ (wf df_original ->
      (n_samples_fit modelo <= nrows df_original)%nat ->
      ~ (invalid_query modelo v k \/ k <= 0) ->
      exists res,
        recomendar_material neighbors_search modelo df_original v k = Ok res
        /\ nrows res = Z.to_nat k)
  /\ (n_samples_fit modelo = 50%nat ->
      recomendar_material neighbors_search modelo df_original v 100
      = Err ValueError).
Proof.
  intros H7.
  assert (Hbad : forall k', invalid_query modelo v k' \/ k' <= 0 ->
            recomendar_material neighbors_search modelo df_original v k'
            = Err ValueError).
  { intros k' Hk'. unfold recomendar_material.
    now rewrite (kneighbors_invalid neighbors_search modelo v k' H7 Hk'). }
  assert (Hgood : ~ (invalid_query modelo v k \/ k <= 0) ->
            recomendar_material neighbors_search modelo df_original v k
            = (resultados <- iloc df_original
                               (snd (neighbors_search (fit_X modelo) v
                                       (Z.to_nat k))) ;;
               Ok (set_col resultados "distancia"
                     (SFloat (fst (neighbors_search (fit_X modelo) v
                                     (Z.to_nat k))))))).
  { intros Hok. unfold recomendar_material.
    rewrite (kneighbors_valid neighbors_search modelo v k H7 Hok). cbn [bind].
    assert (Hk : (1 <= Z.to_nat k <= List.length (fit_X modelo))%nat).
    { unfold invalid_query, n_samples_fit in Hok. lia. }
    destruct (search_sizes (fit_X modelo) v (Z.to_nat k) Hk) as (Hd & Hi & _).
    destruct (neighbors_search (fit_X modelo) v (Z.to_nat k)) as [dist idx].
    cbn [fst snd] in *.
    destruct (iloc df_original idx) as [res|e] eqn:E; cbn [bind];
      [|reflexivity].
    rewrite (iloc_nrows _ _ _ E), Hd, Hi, Nat.eqb_refl. reflexivity. }
  split; [split|split].
  - intros Herr.
    assert (Hdec : forall P : Prop, (P \/ ~ P) -> ~ ~ P -> P) by tauto.
    apply Hdec.
    + unfold invalid_query.
      destruct (Nat.eq_dec (List.length v) 7);
        destruct (forallb isfinite v);
        destruct (Z_lt_dec (Z.of_nat (n_samples_fit modelo)) k);
        destruct (Z_le_dec k 0);
        try (left; tauto);
        right; intros [[H|[H|H]]|H]; congruence || lia.
    + intros Hok. rewrite (Hgood Hok) in Herr.
      destruct (iloc df_original _) as [res|e] eqn:E; cbn [bind] in Herr;
        [discriminate|].
      apply iloc_error in E. congruence.
  - apply Hbad.
  - intros Hwf Hrows Hok. rewrite (Hgood Hok).
    assert (Hk : (1 <= Z.to_nat k <= List.length (fit_X modelo))%nat).
    { unfold invalid_query, n_samples_fit in Hok. lia. }
    destruct (search_sizes (fit_X modelo) v (Z.to_nat k) Hk) as (_ & Hi & Hlt).
    destruct (iloc_ok df_original
                (snd (neighbors_search (fit_X modelo) v (Z.to_nat k))) Hwf)
      as (res & Hres & Hn).
    { eapply Forall_impl; [|exact Hlt]. intros i Hi'. simpl in Hi'.
      unfold n_samples_fit in Hrows. lia. }
    rewrite Hres. cbn [bind]. eexists. split; [reflexivity|].
    cbn [set_col nrows]. congruence.
  - intros H50. apply Hbad. left. right. right. rewrite H50. lia.
Qed.

End MatcherClaims.

Lemma C5_query_errors_witness :
  (exists res,
     recomendar_material busca_exaustiva catalogo_modelo catalogo consulta 2
     = Ok res
     /\ nrows res = Z.to_nat 2)
  /\ recomendar_material busca_exaustiva catalogo_modelo catalogo consulta 0
     = Err ValueError
  /\ recomendar_material busca_exaustiva catalogo_modelo catalogo
       [Fin 2; Fin 3000; Fin 120] 2
     = Err ValueError
  /\ recomendar_material busca_exaustiva catalogo_modelo catalogo
       [Fin 2; PInf; Fin 120; Fin 2; Fin 1; Fin 0; Fin 800] 2
     = Err ValueError
  /\ recomendar_material busca_exaustiva catalogo_modelo catalogo consulta 4
     = Err ValueError
  /\ recomendar_material busca_exaustiva modelo_50 catalogo consulta 100
     = Err ValueError.
Proof.
  assert (H7 : n_features_in catalogo_modelo = 7%nat) by reflexivity.
  split; [|split; [|split; [|split; [|split]]]].
  - destruct (C5_query_errors busca_exaustiva busca_exaustiva_sizes
                catalogo_modelo catalogo consulta 2 H7) as (_ & H & _).
    apply H.
    + repeat constructor.
    + vm_compute. lia.
    + unfold invalid_query. intros [[E|[E|E]]|E].
      * apply E. reflexivity.
      * discriminate.
      * vm_compute in E. discriminate.
      * lia.
  - destruct (C5_query_errors busca_exaustiva busca_exaustiva_sizes
                catalogo_modelo catalogo consulta 0 H7) as ([_ Hb] & _ & _).
    apply Hb. right. lia.
  - destruct (C5_query_errors busca_exaustiva busca_exaustiva_sizes
                catalogo_modelo catalogo [Fin 2; Fin 3000; Fin 120] 2 H7)
      as ([_ Hb] & _ & _).
    apply Hb. left. left. discriminate.
  - destruct (C5_query_errors busca_exaustiva busca_exaustiva_sizes
                catalogo_modelo catalogo
                [Fin 2; PInf; Fin 120; Fin 2; Fin 1; Fin 0; Fin 800] 2 H7)
      as ([_ Hb] & _ & _).
    apply Hb. left. right. left. reflexivity.
  - destruct (C5_query_errors busca_exaustiva busca_exaustiva_sizes
                catalogo_modelo catalogo consulta 4 H7) as ([_ Hb] & _ & _).
    apply Hb. left. right. right. vm_compute. reflexivity.
  - destruct (C5_query_errors busca_exaustiva busca_exaustiva_sizes
                modelo_50 catalogo consulta 100 eq_refl) as (_ & _ & H50).
    apply H50. reflexivity.
Defined.

(** ** Training and the application: the functions put together *)

Lemma dropna_finite (l : list flt) :
  Forall (fun x => isfinite x = true) l -> dropna l = l.
Proof.
  unfold dropna. induction 1 as [|x l Hx _ IH]; simpl; [reflexivity|].
  destruct x; try discriminate. simpl. now rewrite IH.
Qed.

Lemma mean2_finite (x y : flt) :
  isfinite x = true -> isfinite y = true -> isfinite (mean2 x y) = true.
Proof. destruct x, y; simpl; intros; congruence. Qed.

Lemma median_finite (l : list flt) :
  Forall (fun x => isfinite x = true) l -> l <> [] ->
  isfinite (median l) = true.
Proof.
  intros Hl Hne. unfold median. rewrite (dropna_finite l Hl).
  pose proof (sort_Forall _ l Hl) as Hs.
  pose proof (sort_length l) as Hlen.
  assert (Hnth : forall i, (i < List.length (Num.sort l))%nat ->
            isfinite (nth i (Num.sort l) NaN) = true).
  { intros i Hi. rewrite Forall_forall in Hs. apply Hs. now apply nth_In. }
  destruct (List.length (Num.sort l)) as [|n] eqn:En.
  { destruct l; [contradiction | simpl in Hlen; lia]. }
  destruct (Nat.even (S n)) eqn:Ev.
  - assert (Hn : (2 <= S n)%nat) by (destruct n; [discriminate | lia]).
    assert (Hd : (S n / 2 < S n)%nat) by (apply Nat.div_lt; lia).
    apply mean2_finite; apply Hnth; lia.
  - apply Hnth. apply Nat.div_lt; lia.
Qed.

Lemma field_with_population (r m : result flt) (lo hi : Q) (x : flt) :
  (exists y, r = Ok y /\ within lo hi y) \/ r = m ->
  m = Ok x -> isfinite x = true ->
  exists y, r = Ok y /\ isfinite y = true.
Proof.
  intros [(y & -> & Hy)| ->] Hm Hx.
  - exists y. split; [reflexivity|]. exact (within_finite _ _ _ Hy).
  - exists x. now split.
Qed.

Lemma mapear_valores_error_kind (parse_numeric : text -> flt)
  (df : DataFrame) (e : exn) :
  mapear_valores parse_numeric df = Err e -> e = AttributeError.
Proof.
  intros H. rewrite mapear_valores_by_column in H.
  unfold mapear_valores_por_coluna, custo_index_raw, _map_col_if_exists in H.
  destruct (get df "custo_index") as [s|]; [discriminate|].
  destruct (get df "custo") as [s|]; [|discriminate].
  destruct s as [l|l|l|l]; try discriminate.
  destruct (forallb is_str l) eqn:Es.
  - rewrite mapM_strip_lower_get_ok in H by assumption. discriminate.
  - rewrite mapM_strip_lower_get_err in H by assumption. now injection H.
Qed.

Section AppFlow.

Variable parse_numeric : text -> flt.
Variable astype_float : text -> result flt.
Variable neighbors_search :
  list (list flt) -> list flt -> nat -> list flt * list nat.

Hypothesis search_sizes :
  forall X q k, (1 <= k <= List.length X)%nat ->
    List.length (fst (neighbors_search X q k)) = k
    /\ List.length (snd (neighbors_search X q k)) = k
    /\ Forall (fun i => (i < List.length X)%nat) (snd (neighbors_search X q k)).

(** A table on which a model could be fitted has a row and only finite
    feature values. *)
Lemma fitted_table_finite (df out : DataFrame) (n : Z)
  (modelo : NearestNeighbors) :
  wf df ->
  mapear_valores parse_numeric df = Ok out ->
  preparar_modelo astype_float out n = Ok modelo ->
  nrows df <> 0%nat
  /\ forall f s, In f _FEATURES -> get out f = Some s ->
       Forall (fun x => isfinite x = true) (floats s).
Proof.
  intros Hwf H Hm.
  rewrite (preparar_modelo_on_normalized parse_numeric astype_float
             df out n Hwf H) in Hm.
  destruct (n <=? 0); [discriminate|].
  rewrite check_array_rows, rows_of_length in Hm.
  destruct (Nat.eqb_spec (nrows df) 0) as [Hz|Hz]; [discriminate|].
  split; [exact Hz|].
  destruct (forallb (forallb isfinite) _) eqn:Eb in Hm; [|discriminate].
  intros f s Hf Hs. apply Forall_forall. intros x Hx.
  destruct (isfinite x) eqn:Ex; [reflexivity|].
  assert (Hbad : forallb (forallb isfinite)
                   (rows_of (nrows df)
                      (map (fun f => floats (synth out f)) _FEATURES)) = false).
  { apply (normalized_matrix_finite parse_numeric df out Hwf H).
    now exists f, s, x. }
  congruence.
Qed.

Lemma population_median_fitted (df out : DataFrame) (n : Z)
  (modelo : NearestNeighbors) (f : string) (d : flt) :
  wf df ->
  mapear_valores parse_numeric df = Ok out ->
  preparar_modelo astype_float out n = Ok modelo ->
  In f _FEATURES ->
  exists m, population_median (Some out) f d = Ok m /\ isfinite m = true.
Proof.
  intros Hwf H Hm Hf.
  destruct (fitted_table_finite df out n modelo Hwf H Hm) as [Hz Hfin].
  destruct (normalized_feature parse_numeric df out Hwf H f Hf)
    as (s & Hs & Hobj & Hlen & _).
  unfold population_median. rewrite Hs.
  rewrite (series_median_floats s Hobj).
  eexists. split; [reflexivity|].
  apply median_finite; [now apply (Hfin f)|].
  intros E. rewrite E in Hlen. simpl in Hlen. lia.
Qed.

(** The description is parsed against the table the model was fitted on:
    the parser returns, with seven finite numbers. *)
Lemma texto_para_vetor_fitted (df out : DataFrame) (n : Z)
  (modelo : NearestNeighbors) (texto : text) :
  wf df ->
  mapear_valores parse_numeric df = Ok out ->
  preparar_modelo astype_float out n = Ok modelo ->
  exists v, texto_para_vetor texto (Some out) = Ok v
            /\ List.length v = 7%nat /\ forallb isfinite v = true.
Proof.
  intros Hwf H Hm.
  assert (Hpm : forall f d, In f _FEATURES ->
            exists m, population_median (Some out) f d = Ok m
                      /\ isfinite m = true).
  { intros f d Hf. now apply (population_median_fitted df out n modelo). }
  destruct (Hpm "densidade_kg_m3" (of_Z 2000)) as (m1 & Hm1 & Hf1);
    [simpl; tauto|].
  destruct (Hpm "tensile_strength_MPa" (of_Z 50)) as (m2 & Hm2 & Hf2);
    [simpl; tauto|].
  destruct (Hpm "thermal_conductivity_W_mK" (of_Z 1)) as (m3 & Hm3 & Hf3);
    [simpl; tauto|].
  destruct (Hpm "melting_point_C" (of_Z 300)) as (m4 & Hm4 & Hf4);
    [simpl; tauto|].
  unfold texto_para_vetor. cbv zeta.
  destruct (field_with_population _ _ _ _ _
              (vetor_dens_cases (lower texto) (Some out)) Hm1 Hf1)
    as (dens & -> & Hd).
  destruct (field_with_population _ _ _ _ _
              (vetor_tens_cases (lower texto) (Some out)) Hm2 Hf2)
    as (tens & -> & Ht).
  destruct (field_with_population _ _ _ _ _
              (vetor_cond_cases (lower texto) (Some out)) Hm3 Hf3)
    as (cond & -> & Hc).
  destruct (field_with_population _ _ _ _ _
              (vetor_temp_cases (lower texto) (Some out)) Hm4 Hf4)
    as (temp & -> & Hp).
  cbn [bind]. eexists. split; [reflexivity|]. split; [reflexivity|].
  cbn [forallb]. rewrite Hd, Ht, Hc, Hp.
  rewrite (in_of_Z_finite _ [1; 3; 6] (vetor_custo_cases (lower texto))).
  rewrite (in_of_Z_finite _ [0; 1] (vetor_recicl_cases (lower texto))).
  rewrite (in_of_Z_finite _ [0; 1] (vetor_bio_cases (lower texto))).
  reflexivity.
Qed.

(** A valid query returns [k] rows. *)
Lemma recomendar_material_valid (modelo : NearestNeighbors)
  (df_original : DataFrame) (v : list flt) (k : Z) :
  n_features_in modelo = 7%nat ->
  wf df_original ->
  (n_samples_fit modelo <= nrows df_original)%nat ->
  ~ (invalid_query modelo v k \/ k <= 0) ->
  exists res,
    recomendar_material neighbors_search modelo df_original v k = Ok res
    /\ nrows res = Z.to_nat k.
Proof.
  intros H7 Hwf Hrows Hgood. unfold recomendar_material.
  rewrite (kneighbors_valid neighbors_search modelo v k H7 Hgood). cbn [bind].
  assert (Hk : (1 <= Z.to_nat k <= List.length (fit_X modelo))%nat).
  { unfold invalid_query, n_samples_fit in Hgood. lia. }
  destruct (search_sizes (fit_X modelo) v (Z.to_nat k) Hk) as (Hd & Hi & Hlt).
  destruct (neighbors_search (fit_X modelo) v (Z.to_nat k)) as [dist idx].
  simpl in Hd, Hi, Hlt.
  destruct (iloc_ok df_original idx Hwf) as (res & Hres & Hn).
  { eapply Forall_impl; [|exact Hlt]. intros i Hi'. simpl in Hi'.
    unfold n_samples_fit in Hrows. lia. }
  rewrite Hres. cbn [bind].
  assert (E : Nat.eqb (List.length dist) (nrows res) = true)
    by (apply Nat.eqb_eq; congruence).
  rewrite E. eexists. split; [reflexivity|].
  simpl. congruence.
Qed.

(** X17: the training script.  [main] fails in two ways only: with the
    [AttributeError] of the normaliser, or with a [ValueError] when the
    table normalises but has no row or an infinite feature value.  A
    missing column or a table of fewer than five rows does not stop it.
    What it saves is the model fitted on all rows of the normalised table
    with [n_neighbors = 5], the seven feature names and that table. *)
Theorem treinar_modelo_main_outcome (df : DataFrame) :
  wf df ->
  (forall e, treinar_modelo_main parse_numeric astype_float df = Err e ->
     (e = AttributeError /\ mapear_valores parse_numeric df = Err AttributeError)
     \/ (e = ValueError
         /\ exists out, mapear_valores parse_numeric df = Ok out
            /\ (nrows df = 0%nat
                \/ exists f s x, In f _FEATURES /\ get out f = Some s
                                 /\ In x (floats s) /\ isfinite x = false)))
  /\ (forall out, mapear_valores parse_numeric df = Ok out ->
        nrows df <> 0%nat ->
        (forall f s, In f _FEATURES -> get out f = Some s ->
                     Forall (fun x => isfinite x = true) (floats s)) ->
        exists modelo,
          treinar_modelo_main parse_numeric astype_float df
          = Ok (modelo, _FEATURES, out))
  /\ (forall modelo fs out,
        treinar_modelo_main parse_numeric astype_float df
        = Ok (modelo, fs, out) ->
        mapear_valores parse_numeric df = Ok out
        /\ fs = _FEATURES
        /\ n_neighbors modelo = 5
        /\ n_features_in modelo = 7%nat
        /\ n_samples_fit modelo = nrows df).
Proof.
  intros Hwf. unfold treinar_modelo_main.
  destruct (mapear_valores parse_numeric df) as [out|e0] eqn:H; cbn [bind].
  - pose proof (preparar_modelo_on_normalized parse_numeric astype_float
                  df out 5 Hwf H) as Hp.
    change (5 <=? 0) with false in Hp. cbv iota in Hp.
    rewrite check_array_rows, rows_of_length in Hp.
    pose proof (normalized_matrix_finite parse_numeric df out Hwf H) as Hfin.
    rewrite Hp.
    destruct (Nat.eqb_spec (nrows df) 0) as [Hz|Hz]; cbn [bind].
    { split; [|split].
      - intros e [= <-]. right. split; [reflexivity|]. exists out. auto.
      - intros out' [= <-] Hnz. contradiction.
      - discriminate. }
    destruct (forallb (forallb isfinite) _) eqn:Eb; cbn [bind].
    + split; [discriminate|]. split.
      * intros out' [= <-] _ _. eexists. reflexivity.
      * intros modelo fs out' [= <- <- <-].
        cbn [n_neighbors n_features_in]. unfold n_samples_fit. cbn [fit_X].
        rewrite rows_of_length. auto.
    + split; [|split].
      * intros e [= <-]. right. split; [reflexivity|]. exists out.
        split; [reflexivity|]. right. now apply Hfin.
      * intros out' [= <-] _ Hall. exfalso.
        destruct (proj1 Hfin eq_refl) as (f & s & x & Hf & Hs & Hx & Hbad).
        specialize (Hall f s Hf Hs). rewrite Forall_forall in Hall.
        specialize (Hall x Hx). congruence.
      * discriminate.
  - rewrite (mapear_valores_error_kind parse_numeric df e0 H) in *.
    split; [|split].
    + intros e [= <-]. left. now split.
    + discriminate.
    + discriminate.
Qed.

(** X18: the application in its free-text mode, for a table that
    normalises and on which a model can be fitted (the one fitted on the
    spot, or that same model read back from its file): every description
    is parsed to seven finite numbers; when the table has at least three
    rows the query returns three rows, and with fewer rows every
    description ends in the [ValueError] of the query. *)
Theorem app_descricao_answers (df_raw df_proc : DataFrame)
  (modelo : NearestNeighbors) (saved : option NearestNeighbors)
  (texto : text) :
  wf df_raw ->
  mapear_valores parse_numeric df_raw = Ok df_proc ->
  preparar_modelo astype_float df_proc 5 = Ok modelo ->
  saved = None \/ saved = Some modelo ->
  exists vetor,
    texto_para_vetor texto (Some df_proc) = Ok vetor
    /\ List.length vetor = 7%nat
    /\ forallb isfinite vetor = true
    /\ app_descricao parse_numeric astype_float neighbors_search
         saved df_raw texto
       = recomendar_material neighbors_search modelo df_raw vetor 3
    /\ ((3 <= nrows df_raw)%nat ->
        exists res,
          app_descricao parse_numeric astype_float neighbors_search
            saved df_raw texto = Ok res
          /\ nrows res = 3%nat)
    /\ ((nrows df_raw < 3)%nat ->
        app_descricao parse_numeric astype_float neighbors_search
          saved df_raw texto = Err ValueError).
Proof.
  intros Hwf H Hm Hsaved.
  destruct (texto_para_vetor_fitted df_raw df_proc 5 modelo texto Hwf H Hm)
    as (v & Hv & Hlen & Hfin).
  destruct (preparar_modelo_fitted astype_float df_proc 5 modelo Hm)
    as (H7 & Hn & _).
  rewrite (mapear_valores_nrows parse_numeric df_raw df_proc H) in Hn.
  assert (Happ : app_descricao parse_numeric astype_float neighbors_search
                   saved df_raw texto
                 = recomendar_material neighbors_search modelo df_raw v 3).
  { unfold app_descricao. rewrite H. cbn [bind].
    destruct Hsaved as [->| ->]; [rewrite Hm|]; cbn [bind];
      now rewrite Hv. }
  exists v. split; [exact Hv|]. split; [exact Hlen|]. split; [exact Hfin|].
  split; [exact Happ|]. rewrite Happ. split.
  - intros H3.
    destruct (recomendar_material_valid modelo df_raw v 3 H7 Hwf) as (res & Hr & Hk).
    + lia.
    + unfold invalid_query. rewrite Hn. intros [[E|[E|E]]|E]; try congruence; lia.
    + exists res. split; [exact Hr|]. exact Hk.
  - intros H3. unfold recomendar_material.
    rewrite (kneighbors_invalid neighbors_search modelo v 3 H7); [reflexivity|].
    left. right. right. rewrite Hn. lia.
Qed.

End AppFlow.

Lemma treinar_modelo_main_outcome_witness :
  (forall e, treinar_modelo_main no_parse no_float cenario1 = Err e ->
     (e = AttributeError /\ mapear_valores no_parse cenario1 = Err AttributeError)
     \/ (e = ValueError
         /\ exists out, mapear_valores no_parse cenario1 = Ok out
            /\ (nrows cenario1 = 0%nat
                \/ exists f s x, In f _FEATURES /\ get out f = Some s
                                 /\ In x (floats s) /\ isfinite x = false)))
  /\ (forall out, mapear_valores no_parse cenario1 = Ok out ->
        nrows cenario1 <> 0%nat ->
        (forall f s, In f _FEATURES -> get out f = Some s ->
                     Forall (fun x => isfinite x = true) (floats s)) ->
        exists modelo,
          treinar_modelo_main no_parse no_float cenario1
          = Ok (modelo, _FEATURES, out))
  /\ (forall modelo fs out,
        treinar_modelo_main no_parse no_float cenario1
        = Ok (modelo, fs, out) ->
        mapear_valores no_parse cenario1 = Ok out
        /\ fs = _FEATURES
        /\ n_neighbors modelo = 5
        /\ n_features_in modelo = 7%nat
        /\ n_samples_fit modelo = nrows cenario1).
Proof.
  apply (treinar_modelo_main_outcome no_parse no_float cenario1).
  repeat constructor.
Defined.

Lemma app_descricao_answers_witness :
  exists vetor,
    texto_para_vetor exemplo_texto (Some catalogo) = Ok vetor
    /\ List.length vetor = 7%nat
    /\ forallb isfinite vetor = true
    /\ app_descricao no_parse no_float busca_exaustiva None catalogo
         exemplo_texto
       = recomendar_material busca_exaustiva
           (mkNN 5 (fit_X catalogo_modelo) 7) catalogo vetor 3
    /\ ((3 <= nrows catalogo)%nat ->
        exists res,
          app_descricao no_parse no_float busca_exaustiva None catalogo
            exemplo_texto = Ok res
          /\ nrows res = 3%nat)
    /\ ((nrows catalogo < 3)%nat ->
        app_descricao no_parse no_float busca_exaustiva None catalogo
          exemplo_texto = Err ValueError).
Proof.
  apply (app_descricao_answers no_parse no_float busca_exaustiva
           busca_exaustiva_sizes catalogo catalogo
           (mkNN 5 (fit_X catalogo_modelo) 7) None exemplo_texto).
  - repeat constructor.
  - vm_compute. reflexivity.
  - vm_compute. reflexivity.
  - left. reflexivity.
Defined.
